(** * zkEngine transform-and-codegen pipeline (langchain_service.py)

    A shallow embedding of the three pipeline stages of
    [src/langchain_service.py]:

    - [transform_for_zkengine]: the source normalizer (lines 105-166);
    - [generate_wat_from_c_analysis] with its local [extract_value]: the
      fingerprint matcher and the template code generator (lines 168-461);
    - [compile_to_wasm] and the endpoint [compile_transformed]: the artifact
      orchestrator (lines 463-513 and 931-953).

    Python [str] values are modelled as lists of 8-bit characters (code
    points below 256); Python integers as [Z] or [N]; the [re] module by a
    small backtracking matcher that covers the pattern constructs the
    service uses; the 32-bit arithmetic of the emitted modules as [Z] with
    the wrap-around written out.

    The module [Exn] gives the orchestrator, the generator and the parser
    of proof requests once more with the exceptions of the interpreter
    written out: the limit of [int] on the number of digits, failing
    calls of [print], a write that fails after its file was opened, and
    exceptions that are not instances of [Exception]. *)

From Stdlib Require Import Ascii String DecimalString.
From Stdlib Require Import ZArith NArith Lia Bool Arith List.
Import ListNotations.

Open Scope list_scope.

(** ** Texts *)

Definition text := list ascii.

Definition str (s : string) : text := list_ascii_of_string s.

Definition nl : ascii := "010"%char.
Definition dq : ascii := "034"%char.

Definition text_eqb (a b : text) : bool :=
  if list_eq_dec ascii_dec a b then true else false.

(** ** The operations of Python's [str] that the service uses *)

Module Py.

(** [s.startswith(p)] *)
Fixpoint starts_with (p s : text) : bool :=
  match p, s with
  | [], _ => true
  | _ :: _, [] => false
  | a :: p', b :: s' => Ascii.eqb a b && starts_with p' s'
  end.

(** [sub in s] *)
Fixpoint contains (sub s : text) : bool :=
  starts_with sub s ||
  match s with
  | [] => false
  | _ :: s' => contains sub s'
  end.

(** Offset of the first occurrence of [sub] in [s]. *)
Fixpoint first_index (sub s : text) : option nat :=
  if starts_with sub s then Some 0
  else match s with
       | [] => None
       | _ :: s' => option_map S (first_index sub s')
       end.

(** Offset of the last occurrence of [sub] in [s]. *)
Fixpoint last_index (sub s : text) : option nat :=
  match s with
  | [] => if starts_with sub [] then Some 0 else None
  | _ :: s' =>
      match last_index sub s' with
      | Some i => Some (S i)
      | None => if starts_with sub s then Some 0 else None
      end
  end.

(** [s.find(sub, start)]: -1 when there is no occurrence; a negative
    [start] counts from the end of [s], as Python's slice indices do. *)
Definition find (sub s : text) (start : Z) : Z :=
  let len := Z.of_nat (length s) in
  let start := if (start <? 0)%Z then Z.max 0 (start + len) else start in
  if (len <? start)%Z then (-1)%Z
  else match first_index sub (skipn (Z.to_nat start) s) with
       | Some i => (start + Z.of_nat i)%Z
       | None => (-1)%Z
       end.

(** [s.rfind(sub)] *)
Definition rfind (sub s : text) : Z :=
  match last_index sub s with
  | Some i => Z.of_nat i
  | None => (-1)%Z
  end.

(** [s[:k]] and [s[k:]] for [k >= 0]. *)
Definition upto (k : Z) (s : text) : text := firstn (Z.to_nat k) s.
Definition from (k : Z) (s : text) : text := skipn (Z.to_nat k) s.

(** [s.replace(old, new)] for a non-empty [old]: the occurrences are
    found from left to right and do not overlap.  [skip] counts the
    characters of the current occurrence still to be dropped. *)
Fixpoint replace_from (old new : text) (s : text) (skip : nat) : text :=
  match s with
  | [] => []
  | c :: s' =>
      match skip with
      | S k => replace_from old new s' k
      | O =>
          if starts_with old s
          then new ++ replace_from old new s' (length old - 1)
          else c :: replace_from old new s' 0
      end
  end.

Definition replace (old new s : text) : text := replace_from old new s 0.

(** [c.lower()] on the code points below 256: the ASCII capitals and the
    Latin-1 capitals (0xC0-0xDE without the multiplication sign 0xD7)
    move up by 32; every other character is its own lower case. *)
Definition lower_char (c : ascii) : ascii :=
  let n := nat_of_ascii c in
  if ((65 <=? n) && (n <=? 90)) ||
     ((192 <=? n) && (n <=? 222) && negb (n =? 215))
  then ascii_of_nat (n + 32)
  else c.

(** [s.lower()] *)
Definition lower (s : text) : text := map lower_char s.

(** [int(ds)] for a text of decimal digits, as a total function; the
    interpreter's limit of 4300 digits is written out in [Exn.int]. *)
Definition digit_val (c : ascii) : N := N.of_nat (nat_of_ascii c - 48).

Definition int (ds : text) : N :=
  fold_left (fun acc c => (10 * acc + digit_val c)%N) ds 0%N.

(** [str(n)] / the f-string rendering of a non-negative integer. *)
Definition dec (n : N) : text :=
  str (NilEmpty.string_of_uint (N.to_uint n)).

(** [len(s.encode('utf-8'))]: one byte below 128, two bytes for the
    code points 128..255. *)
Definition utf8_len (s : text) : Z :=
  fold_right
    (fun c acc => Z.add (if Nat.ltb (nat_of_ascii c) 128 then 1%Z else 2%Z) acc)
    0%Z s.

End Py.

(** ** The fragment of Python's [re] that the service uses

    The patterns of the service are sequences of: literal characters,
    greedy repetitions [c*] / [c+] of a one-character class, a
    non-capturing alternation of literals, the word boundary and one
    capturing group.  Matching backtracks as Python's engine does: a greedy
    repetition first takes the longest run and gives characters back one
    at a time, alternatives are tried from left to right, and [search]
    reports the leftmost position that matches. *)

Module Re.

Inductive atom : Type :=
| Chr (c : ascii)                       (* a literal character *)
| Rep (min : nat) (cls : ascii -> bool) (* cls* (min = 0), cls+ (min = 1) *)
| Alt (alts : list text)                (* (?:lit|lit|...) *)
| WordB                                 (* \b *)
| GOpen                                 (* opening of group 1 *)
| GClose.                               (* closing of group 1 *)

Definition regex := list atom.

Definition lit (s : string) : regex := map Chr (str s).

(** Character classes, on the code points below 256, as [re] has them
    for [str] patterns. *)
Definition is_space (c : ascii) : bool :=
  let n := nat_of_ascii c in
  ((9 <=? n) && (n <=? 13)) || ((28 <=? n) && (n <=? 32)) ||
  (n =? 133) || (n =? 160).

Definition is_digit (c : ascii) : bool :=
  let n := nat_of_ascii c in (48 <=? n) && (n <=? 57).

Definition is_word (c : ascii) : bool :=
  let n := nat_of_ascii c in
  ((48 <=? n) && (n <=? 57)) || ((65 <=? n) && (n <=? 90)) || (n =? 95) ||
  ((97 <=? n) && (n <=? 122)) ||
  (n =? 170) || (n =? 178) || (n =? 179) || (n =? 181) || (n =? 185) ||
  (n =? 186) || ((188 <=? n) && (n <=? 190)) ||
  ((192 <=? n) && (n <=? 214)) || ((216 <=? n) && (n <=? 246)) ||
  ((248 <=? n) && (n <=? 255)).

Definition is_not (x : ascii) (c : ascii) : bool := negb (Ascii.eqb x c).

(** The result of a match attempt at one position: the length of the
    match and the offsets of group 1, all relative to that position. *)
Record found : Type := Found {
  m_len : nat;
  g_start : option nat;
  g_end : option nat
}.

Definition shift (k : nat) (r : found) : found :=
  Found (k + m_len r)
        (option_map (Nat.add k) (g_start r))
        (option_map (Nat.add k) (g_end r)).

(** Length of the longest prefix of [s] inside the class. *)
Fixpoint run_length (cls : ascii -> bool) (s : text) : nat :=
  match s with
  | c :: s' => if cls c then S (run_length cls s') else 0
  | [] => 0
  end.

(** The character before the position reached after [k] characters. *)
Definition prev_after (prev : option ascii) (k : nat) (s : text)
  : option ascii :=
  match k with
  | O => prev
  | S k' => nth_error s k'
  end.

Definition word_opt (c : option ascii) : bool :=
  match c with
  | Some x => is_word x
  | None => false
  end.

(** [match_here re prev s]: match [re] at the start of [s], where [prev]
    is the character just before (for the word boundary). *)
Fixpoint match_here (re : regex) (prev : option ascii) (s : text)
  : option found :=
  match re with
  | [] => Some (Found 0 None None)
  | Chr c :: re' =>
      match s with
      | c' :: s' =>
          if Ascii.eqb c c'
          then option_map (shift 1) (match_here re' (Some c') s')
          else None
      | [] => None
      end
  | Rep min cls :: re' =>
      (fix give_back (k : nat) : option found :=
         if k <? min then None
         else match match_here re' (prev_after prev k s) (skipn k s) with
              | Some r => Some (shift k r)
              | None =>
                  match k with
                  | O => None
                  | S k' => give_back k'
                  end
              end) (run_length cls s)
  | Alt alts :: re' =>
      (fix next_alt (l : list text) : option found :=
         match l with
         | [] => None
         | a :: l' =>
             if Py.starts_with a s
             then match match_here re' (prev_after prev (length a) s)
                                   (skipn (length a) s) with
                  | Some r => Some (shift (length a) r)
                  | None => next_alt l'
                  end
             else next_alt l'
         end) alts
  | WordB :: re' =>
      if xorb (word_opt prev) (word_opt (hd_error s))
      then match_here re' prev s
      else None
  | GOpen :: re' =>
      match match_here re' prev s with
      | Some r => Some (Found (m_len r) (Some 0) (g_end r))
      | None => None
      end
  | GClose :: re' =>
      match match_here re' prev s with
      | Some r => Some (Found (m_len r) (g_start r) (Some 0))
      | None => None
      end
  end.

(** The text of group 1 of a match found at the start of [s]. *)
Definition group1 (r : found) (s : text) : text :=
  match g_start r, g_end r with
  | Some a, Some b => firstn (b - a) (skipn a s)
  | _, _ => []
  end.

(** [re.search(re, s)]: the leftmost match, as its start offset, its
    length and the text of group 1. *)
Fixpoint search_from (re : regex) (prev : option ascii) (s : text)
  : option (nat * nat * text) :=
  match match_here re prev s with
  | Some r => Some (0, m_len r, group1 r s)
  | None =>
      match s with
      | [] => None
      | c :: s' =>
          match search_from re (Some c) s' with
          | Some (i, n, g) => Some (S i, n, g)
          | None => None
          end
      end
  end.

Definition search (re : regex) (s : text) : option (nat * nat * text) :=
  search_from re None s.

(** A replacement template: literal text and back-references to
    group 1. *)
Inductive piece : Type :=
| Keep (t : text)
| Group1.

Definition expand (tpl : list piece) (g : text) : text :=
  flat_map (fun p => match p with Keep t => t | Group1 => g end) tpl.

(** [re.sub(re, tpl, s)]: every non-overlapping match, from left to
    right, is replaced by the expanded template.  [skip] counts the
    characters of the current match still to be dropped; after an empty
    match the scan moves on by one character. *)
Fixpoint sub_from (re : regex) (tpl : list piece) (prev : option ascii)
         (s : text) (skip : nat) : text :=
  match s with
  | [] =>
      match skip, match_here re prev [] with
      | O, Some r => expand tpl (group1 r [])
      | _, _ => []
      end
  | c :: s' =>
      match skip with
      | S k => sub_from re tpl (Some c) s' k
      | O =>
          match match_here re prev s with
          | Some r =>
              expand tpl (group1 r s) ++
              match m_len r with
              | O => c :: sub_from re tpl (Some c) s' 0
              | S k => sub_from re tpl (Some c) s' k
              end
          | None => c :: sub_from re tpl (Some c) s' 0
          end
      end
  end.

Definition sub (re : regex) (tpl : list piece) (s : text) : text :=
  sub_from re tpl None s 0.

(** [[m.end() for m in re.finditer(re, s)]]: the end offsets of the
    successive non-overlapping matches; [pos] is the offset of [s] in
    the whole text. *)
Fixpoint finditer_ends (re : regex) (prev : option ascii) (s : text)
         (skip pos : nat) : list nat :=
  match s with
  | [] =>
      match skip, match_here re prev [] with
      | O, Some _ => [pos]
      | _, _ => []
      end
  | c :: s' =>
      match skip with
      | S k => finditer_ends re (Some c) s' k (S pos)
      | O =>
          match match_here re prev s with
          | Some r =>
              (pos + m_len r) ::
              finditer_ends re (Some c) s' (m_len r - 1) (S pos)
          | None => finditer_ends re (Some c) s' 0 (S pos)
          end
      end
  end.

End Re.

(** ** Source normalizer: [transform_for_zkengine] (lines 105-166) *)

Import Re.

(** The patterns of the normalizer, in the order of their use:
    [\bint\s+], [\bfloat\s+], [printf\s*\([^;]+\);], [scanf\s*\([^;]+\);],
    [int32_t\s+main\s*\([^)]*\)], [#include\s*<[^>]+>],
    [(\w+)\s*=\s*malloc\([^)]+\)] and [free\s*\([^)]+\);]. *)
Definition int_re : regex := WordB :: lit "int" ++ [Rep 1 is_space].

Definition float_re : regex := WordB :: lit "float" ++ [Rep 1 is_space].

Definition io_call_re (name : string) : regex :=
  lit name ++
  [Rep 0 is_space; Chr "("; Rep 1 (is_not ";"); Chr ")"; Chr ";"]%char.

Definition printf_re : regex := io_call_re "printf".

Definition scanf_re : regex := io_call_re "scanf".

Definition main_re : regex :=
  lit "int32_t" ++ [Rep 1 is_space] ++ lit "main" ++
  [Rep 0 is_space; Chr "("; Rep 0 (is_not ")"); Chr ")"]%char.

Definition include_re : regex :=
  lit "#include" ++
  [Rep 0 is_space; Chr "<"; Rep 1 (is_not ">"); Chr ">"]%char.

Definition malloc_re : regex :=
  [GOpen; Rep 1 is_word; GClose; Rep 0 is_space; Chr "="; Rep 0 is_space]%char
  ++ lit "malloc(" ++ [Rep 1 (is_not ")"); Chr ")"]%char.

Definition free_re : regex :=
  lit "free" ++
  [Rep 0 is_space; Chr "("; Rep 1 (is_not ")"); Chr ")"; Chr ";"]%char.

(** The entries of the change log. *)
Definition msg_stdint : text := str "Added #include <stdint.h>".
Definition msg_types : text := str "Converted int/float to int32_t".
Definition msg_printf : text := str "Removed printf statements".
Definition msg_scanf : text := str "Removed scanf statements".
Definition msg_main : text := str "Fixed main signature for hardcoded values".
Definition msg_malloc : text := str "Converted dynamic allocation to stack".

(** The texts the rules insert. *)
Definition stdint_line : text := str "#include <stdint.h>" ++ [nl].
Definition buffer_define : text := str "#define BUFFER_SIZE 1000" ++ [nl].
Definition stack_cast : text :=
  str " = (int32_t" ++ "*"%char :: str ")stack_buffer".
Definition stack_decl : text :=
  nl :: str "    int32_t stack_buffer[BUFFER_SIZE];" ++ [nl].

(** The working state of the function: the text being rewritten and the
    change log, to which entries are only ever appended. *)
Definition norm_state : Type := (text * list text)%type.

(** Lines 110-121: add the stdint include when a native declaration is
    used, [int32_t] does not occur yet and the include is not there. *)
Definition add_stdint_include (st : norm_state) : norm_state :=
  let '(code, changes) := st in
  if negb (Py.contains (str "int32_t") code) &&
     (Py.contains (str "int ") code || Py.contains (str "float ") code)
  then
    if negb (Py.contains (str "#include <stdint.h>") code) then
      let include_pos := Py.rfind (str "#include") code in
      let code' :=
        if (0 <=? include_pos)%Z then
          let newline_pos := Py.find [nl] code include_pos in
          if (0 <=? newline_pos)%Z then
            Py.upto (newline_pos + 1) code ++ stdint_line ++
            Py.from (newline_pos + 1) code
          else code ++ nl :: stdint_line
        else stdint_line ++ nl :: code in
      (code', changes ++ [msg_stdint])
    else st
  else st.

(** Lines 124-126: both substitutions, then the unconditional append. *)
Definition narrow_types (st : norm_state) : norm_state :=
  let '(code, changes) := st in
  let code := Re.sub int_re [Keep (str "int32_t ")] code in
  let code := Re.sub float_re [Keep (str "int32_t ")] code in
  (code, changes ++ [msg_types]).

(** Lines 129-131. *)
Definition remove_printf (st : norm_state) : norm_state :=
  let '(code, changes) := st in
  if Py.contains (str "printf") code then
    (Re.sub printf_re [Keep (str "/* printf removed */;")] code,
     changes ++ [msg_printf])
  else st.

(** Lines 133-135. *)
Definition remove_scanf (st : norm_state) : norm_state :=
  let '(code, changes) := st in
  if Py.contains (str "scanf") code then
    (Re.sub scanf_re [Keep (str "/* scanf removed */;")] code,
     changes ++ [msg_scanf])
  else st.

(** Lines 139-143. *)
Definition fix_main (st : norm_state) : norm_state :=
  let '(code, changes) := st in
  match Re.search main_re code with
  | Some _ =>
      (Re.sub main_re [Keep (str "int32_t main()")] code,
       changes ++ [msg_main])
  | None => st
  end.

(** Lines 146-164.  [includes_end] is the end of the last include
    directive ([0] when there is none); [main_start] is the offset of the
    first opening brace at or after the first occurrence of [main]
    ([str.find] with the start [-1] when [main] does not occur). *)
Definition convert_malloc (st : norm_state) : norm_state :=
  let '(code, changes) := st in
  if Py.contains (str "malloc") code then
    let code :=
      if negb (Py.contains (str "#define BUFFER_SIZE") code) then
        let includes_end := last (Re.finditer_ends include_re None code 0 0) 0 in
        if 0 <? includes_end
        then firstn includes_end code ++ nl :: buffer_define ++
             skipn includes_end code
        else buffer_define ++ code
      else code in
    let code := Re.sub malloc_re [Group1; Keep stack_cast] code in
    let code := Re.sub free_re [Keep (str "/* free removed */;")] code in
    let main_start := Py.find (str "{") code (Py.find (str "main") code 0) in
    let code :=
      if (0 <? main_start)%Z
      then Py.upto (main_start + 1) code ++ stack_decl ++
           Py.from (main_start + 1) code
      else code in
    (code, changes ++ [msg_malloc])
  else st.

Definition transform_for_zkengine (code : text) : text * list text :=
  convert_malloc
    (fix_main
       (remove_scanf
          (remove_printf
             (narrow_types
                (add_stdint_include (code, [])))))).

(** ** Fingerprint matcher and template generator:
       [generate_wat_from_c_analysis] (lines 168-461) *)

(** The two probes of [extract_value]: [{var}\s*=\s*(\d+)] and
    [{func_name}\s*\(\s*(\d+)\s*\)]. *)
Definition assign_re (var : string) : regex :=
  lit var ++
  [Rep 0 is_space; Chr "="; Rep 0 is_space; GOpen; Rep 1 is_digit; GClose]%char.

Definition call_re (func_name : string) : regex :=
  lit func_name ++
  [Rep 0 is_space; Chr "("; Rep 0 is_space; GOpen; Rep 1 is_digit; GClose;
   Rep 0 is_space; Chr ")"]%char.

(** [int(match.group(1))] of [re.search re code], when there is a match. *)
Definition probe (re : regex) (code : text) : option N :=
  match Re.search re code with
  | Some (_, _, g) => Some (Py.int g)
  | None => None
  end.

(** Lines 174-185.  The loop body holds both probes: for each candidate
    name, its assignment probe and then the call probe.  [func_name] is
    [None] for Python's [None]; every caller passes a non-empty name. *)
Fixpoint extract_value (code : text) (var_names : list string)
         (func_name : option string) (default : N) : N :=
  match var_names with
  | [] => default
  | var :: rest =>
      match probe (assign_re var) code with
      | Some v => v
      | None =>
          match func_name with
          | Some f =>
              match probe (call_re f) code with
              | Some v => v
              | None => extract_value code rest func_name default
              end
          | None => extract_value code rest func_name default
          end
      end
  end.

(** The operand probes of the GCD family:
    [(?:a|x|first)\s*=\s*(\d+)] and [(?:b|y|second)\s*=\s*(\d+)]. *)
Definition operand_re (names : list string) : regex :=
  [Alt (map str names); Rep 0 is_space; Chr "="; Rep 0 is_space;
   GOpen; Rep 1 is_digit; GClose]%char.

Definition gcd_a_re : regex := operand_re ["a"; "x"; "first"]%string.
Definition gcd_b_re : regex := operand_re ["b"; "y"; "second"]%string.

(** The detection predicates of the if-chain (lines 187, 237, 288, 336,
    380, 415). *)
Definition detect_prime (code : text) : bool :=
  Py.contains (str "is_prime") code.

Definition detect_collatz (code : text) : bool :=
  Py.contains (str "collatz") (Py.lower code).

Definition detect_digital_root (code : text) : bool :=
  Py.contains (str "digital_root") code || Py.contains (str "digit_sum") code.

Definition detect_fibonacci (code : text) : bool :=
  Py.contains (str "fibonacci") code.

Definition detect_factorial (code : text) : bool :=
  Py.contains (str "factorial") code.

Definition detect_gcd (code : text) : bool :=
  Py.contains (str "gcd") code || Py.contains (str "greatest_common") code.

(** The value each family bakes into its module. *)
Definition prime_value (code : text) : N :=
  extract_value code ["number_to_check"; "n"; "num"]%string
                (Some "is_prime"%string) 17.

Definition collatz_value (code : text) : N :=
  extract_value code ["starting_number"; "start"; "n"]%string
                (Some "collatz"%string) 27.

Definition digital_root_value (code : text) : N :=
  extract_value code ["input_number"; "num"; "n"]%string
                (Some "digital_root"%string) 12345.

Definition fibonacci_value (code : text) : N :=
  extract_value code ["n"; "num"; "value"]%string
                (Some "fibonacci"%string) 10.

Definition factorial_value (code : text) : N :=
  extract_value code ["n"; "num"; "value"]%string
                (Some "factorial"%string) 5.

Definition gcd_a_value (code : text) : N :=
  match probe gcd_a_re code with Some a => a | None => 48%N end.

Definition gcd_b_value (code : text) : N :=
  match probe gcd_b_re code with Some b => b | None => 18%N end.

(** The module templates, character for character. *)
Definition prime_wat (value : N) : text :=
  str "(module
  ;; Prime checker for " ++ Py.dec value ++ str " - REAL ALGORITHM
  (func (export " ++ dq :: str "main" ++ dq :: str ") (param $dummy i32) (result i32)
    (local $n i32)
    (local $i i32)
    
    ;; Set n = " ++ Py.dec value ++ str "
    (local.set $n (i32.const " ++ Py.dec value ++ str "))
    
    ;; Check if less than 2
    (if (i32.lt_s (local.get $n) (i32.const 2))
      (then (return (i32.const 0)))
    )
    
    ;; Check if equals 2
    (if (i32.eq (local.get $n) (i32.const 2))
      (then (return (i32.const 1)))
    )
    
    ;; Check if even
    (if (i32.eq (i32.rem_s (local.get $n) (i32.const 2)) (i32.const 0))
      (then (return (i32.const 0)))
    )
    
    ;; Loop from 3 to sqrt(n)
    (local.set $i (i32.const 3))
    (block $exit
      (loop $continue
        ;; If i*i > n, exit loop
        (br_if $exit (i32.gt_s (i32.mul (local.get $i) (local.get $i)) (local.get $n)))
        
        ;; If n % i == 0, not prime
        (if (i32.eq (i32.rem_s (local.get $n) (local.get $i)) (i32.const 0))
          (then (return (i32.const 0)))
        )
        
        ;; i += 2
        (local.set $i (i32.add (local.get $i) (i32.const 2)))
        (br $continue)
      )
    )
    
    ;; Is prime
    (i32.const 1)
  )
)".

Definition collatz_wat (value : N) : text :=
  str "(module
  ;; Collatz sequence steps for " ++ Py.dec value ++ str " - REAL ALGORITHM
  (func (export " ++ dq :: str "main" ++ dq :: str ") (param $dummy i32) (result i32)
    (local $n i32)
    (local $steps i32)
    
    ;; Initialize
    (local.set $n (i32.const " ++ Py.dec value ++ str "))
    (local.set $steps (i32.const 0))
    
    ;; Loop until n = 1
    (block $exit
      (loop $continue
        ;; Exit if n = 1
        (br_if $exit (i32.eq (local.get $n) (i32.const 1)))
        
        ;; Exit if steps > 1000 (safety)
        (br_if $exit (i32.gt_s (local.get $steps) (i32.const 1000)))
        
        ;; If even: n = n / 2
        ;; If odd: n = 3n + 1
        (if (i32.eq (i32.rem_s (local.get $n) (i32.const 2)) (i32.const 0))
          (then
            ;; Even: n = n / 2
            (local.set $n (i32.div_s (local.get $n) (i32.const 2)))
          )
          (else
            ;; Odd: n = 3n + 1
            (local.set $n 
              (i32.add 
                (i32.mul (local.get $n) (i32.const 3))
                (i32.const 1)
              )
            )
          )
        )
        
        ;; Increment steps
        (local.set $steps (i32.add (local.get $steps) (i32.const 1)))
        
        (br $continue)
      )
    )
    
    (local.get $steps)
  )
)".

Definition digital_root_wat (value : N) : text :=
  str "(module
  ;; Digital root calculator for " ++ Py.dec value ++ str " - REAL ALGORITHM
  (func (export " ++ dq :: str "main" ++ dq :: str ") (param $dummy i32) (result i32)
    (local $n i32)
    (local $sum i32)
    (local $digit i32)
    
    ;; Initialize
    (local.set $n (i32.const " ++ Py.dec value ++ str "))
    
    ;; Loop until single digit
    (block $outer_exit
      (loop $outer_continue
        ;; Exit if n < 10 (single digit)
        (br_if $outer_exit (i32.lt_s (local.get $n) (i32.const 10)))
        
        ;; Calculate digit sum
        (local.set $sum (i32.const 0))
        (block $inner_exit
          (loop $inner_continue
            ;; Exit if n = 0
            (br_if $inner_exit (i32.eq (local.get $n) (i32.const 0)))
            
            ;; Get last digit
            (local.set $digit (i32.rem_s (local.get $n) (i32.const 10)))
            ;; Add to sum
            (local.set $sum (i32.add (local.get $sum) (local.get $digit)))
            ;; Remove last digit
            (local.set $n (i32.div_s (local.get $n) (i32.const 10)))
            
            (br $inner_continue)
          )
        )
        
        ;; Set n to sum for next iteration
        (local.set $n (local.get $sum))
        
        (br $outer_continue)
      )
    )
    
    (local.get $n)
  )
)".

Definition fibonacci_wat (value : N) : text :=
  str "(module
  ;; Fibonacci calculator for n=" ++ Py.dec value ++ str " - ITERATIVE
  (func (export " ++ dq :: str "main" ++ dq :: str ") (param $dummy i32) (result i32)
    (local $n i32)
    (local $a i32)
    (local $b i32)
    (local $temp i32)
    (local $i i32)
    
    (local.set $n (i32.const " ++ Py.dec value ++ str "))
    
    ;; Base cases
    (if (i32.le_s (local.get $n) (i32.const 1))
      (then (return (local.get $n)))
    )
    
    ;; Initialize
    (local.set $a (i32.const 0))
    (local.set $b (i32.const 1))
    (local.set $i (i32.const 2))
    
    ;; Loop
    (block $exit
      (loop $continue
        ;; temp = a + b
        (local.set $temp (i32.add (local.get $a) (local.get $b)))
        ;; a = b
        (local.set $a (local.get $b))
        ;; b = temp
        (local.set $b (local.get $temp))
        ;; i++
        (local.set $i (i32.add (local.get $i) (i32.const 1)))
        ;; Continue if i <= n
        (br_if $continue (i32.le_s (local.get $i) (local.get $n)))
      )
    )
    
    (local.get $b)
  )
)".

Definition factorial_wat (value : N) : text :=
  str "(module
  ;; Factorial calculator for n=" ++ Py.dec value ++ str "
  (func (export " ++ dq :: str "main" ++ dq :: str ") (param $dummy i32) (result i32)
    (local $n i32)
    (local $result i32)
    (local $i i32)
    
    (local.set $n (i32.const " ++ Py.dec value ++ str "))
    (local.set $result (i32.const 1))
    (local.set $i (i32.const 1))
    
    ;; Handle 0! = 1
    (if (i32.eq (local.get $n) (i32.const 0))
      (then (return (i32.const 1)))
    )
    
    ;; Loop from 1 to n
    (block $exit
      (loop $continue
        ;; result *= i
        (local.set $result (i32.mul (local.get $result) (local.get $i)))
        ;; i++
        (local.set $i (i32.add (local.get $i) (i32.const 1)))
        ;; Continue if i <= n
        (br_if $continue (i32.le_s (local.get $i) (local.get $n)))
      )
    )
    
    (local.get $result)
  )
)".

Definition gcd_wat (a : N) (b : N) : text :=
  str "(module
  ;; GCD calculator for " ++ Py.dec a ++ str " and " ++ Py.dec b ++ str " - Euclidean algorithm
  (func (export " ++ dq :: str "main" ++ dq :: str ") (param $dummy i32) (result i32)
    (local $a i32)
    (local $b i32)
    (local $temp i32)
    
    (local.set $a (i32.const " ++ Py.dec a ++ str "))
    (local.set $b (i32.const " ++ Py.dec b ++ str "))
    
    ;; Euclidean algorithm
    (block $exit
      (loop $continue
        ;; Exit if b = 0
        (br_if $exit (i32.eq (local.get $b) (i32.const 0)))
        
        ;; temp = a % b
        (local.set $temp (i32.rem_s (local.get $a) (local.get $b)))
        ;; a = b
        (local.set $a (local.get $b))
        ;; b = temp
        (local.set $b (local.get $temp))
        
        (br $continue)
      )
    )
    
    (local.get $a)
  )
)".

Definition default_wat : text :=
  str "(module
  ;; Default computation
  (func (export " ++ dq :: str "main" ++ dq :: str ") (param $dummy i32) (result i32)
    i32.const 42
  )
)".

(** Lines 187-461: the if-chain. *)
Definition generate_wat_from_c_analysis (code : text) : text :=
  if detect_prime code then prime_wat (prime_value code)
  else if detect_collatz code then collatz_wat (collatz_value code)
  else if detect_digital_root code
       then digital_root_wat (digital_root_value code)
  else if detect_fibonacci code then fibonacci_wat (fibonacci_value code)
  else if detect_factorial code then factorial_wat (factorial_value code)
  else if detect_gcd code then gcd_wat (gcd_a_value code) (gcd_b_value code)
  else default_wat.

(** The branch the if-chain takes, with the values it extracts: the
    algorithm fingerprint of the text. *)
Inductive fingerprint : Type :=
| PrimalityCheck (n : N)
| CollatzSteps (n : N)
| DigitalRoot (n : N)
| Fibonacci (n : N)
| Factorial (n : N)
| GCD (a b : N)
| Unrecognized.

Definition fingerprint_of (code : text) : fingerprint :=
  if detect_prime code then PrimalityCheck (prime_value code)
  else if detect_collatz code then CollatzSteps (collatz_value code)
  else if detect_digital_root code then DigitalRoot (digital_root_value code)
  else if detect_fibonacci code then Fibonacci (fibonacci_value code)
  else if detect_factorial code then Factorial (factorial_value code)
  else if detect_gcd code then GCD (gcd_a_value code) (gcd_b_value code)
  else Unrecognized.

Definition render (fp : fingerprint) : text :=
  match fp with
  | PrimalityCheck n => prime_wat n
  | CollatzSteps n => collatz_wat n
  | DigitalRoot n => digital_root_wat n
  | Fibonacci n => fibonacci_wat n
  | Factorial n => factorial_wat n
  | GCD a b => gcd_wat a b
  | Unrecognized => default_wat
  end.

(** ** The algorithms of the emitted modules

    Each template is a fixed WebAssembly text whose [main] works on 32-bit
    integers.  The functions below follow the instructions of each
    template; a loop takes a fuel bound.  Values are signed
    representatives in [-2^31, 2^31). *)

Module Wasm.

Open Scope Z_scope.

Definition wrap (z : Z) : Z := (z + 2 ^ 31) mod 2 ^ 32 - 2 ^ 31.

(** [i32.const n] for a literal below 2^32.  A larger literal is not a
    valid operand and the text that holds it is not a module; see
    [literals_fit]. *)
Definition i32_const (n : N) : Z := wrap (Z.of_N n).
Definition i32_add (a b : Z) : Z := wrap (a + b).
Definition i32_mul (a b : Z) : Z := wrap (a * b).
(** [i32.div_s] and [i32.rem_s] truncate towards zero; both trap on a zero
    divisor, which the callers below test for where it is not a constant. *)
Definition i32_div_s (a b : Z) : Z := wrap (Z.quot a b).
Definition i32_rem_s (a b : Z) : Z := Z.rem a b.

Inductive outcome : Type :=
| Returned (v : Z)
| Trapped
| OutOfFuel.

(** Lines 214-233: trial division by the odd candidates. *)
Fixpoint prime_loop (fuel : nat) (n i : Z) : outcome :=
  match fuel with
  | O => OutOfFuel
  | S fuel' =>
      if i32_mul i i >? n then Returned 1
      else if i =? 0 then Trapped
      else if i32_rem_s n i =? 0 then Returned 0
      else prime_loop fuel' n (i32_add i 2)
  end.

(** Lines 196-233. *)
Definition prime_main (fuel : nat) (value : N) : outcome :=
  let n := i32_const value in
  if n <? 2 then Returned 0
  else if n =? 2 then Returned 1
  else if i32_rem_s n 2 =? 0 then Returned 0
  else prime_loop fuel n 3.

(** Lines 259-275: one transition of the Collatz module. *)
Definition collatz_step (n : Z) : Z :=
  if i32_rem_s n 2 =? 0 then i32_div_s n 2
  else i32_add (i32_mul n 3) 1.

(** Lines 251-282: the loop leaves when [n = 1], then when
    [steps > 1000]; otherwise it makes one transition and counts it. *)
Fixpoint collatz_loop (fuel : nat) (n steps : Z) : outcome :=
  match fuel with
  | O => OutOfFuel
  | S fuel' =>
      if n =? 1 then Returned steps
      else if steps >? 1000 then Returned steps
      else collatz_loop fuel' (collatz_step n) (i32_add steps 1)
  end.

(** Lines 246-284. *)
Definition collatz_main (fuel : nat) (value : N) : outcome :=
  collatz_loop fuel (i32_const value) 0.

(** Lines 309-323: the inner loop sums the decimal digits. *)
Fixpoint digit_sum_loop (fuel : nat) (n sum : Z) : option Z :=
  match fuel with
  | O => None
  | S fuel' =>
      if n =? 0 then Some sum
      else digit_sum_loop fuel' (i32_div_s n 10)
                          (i32_add sum (i32_rem_s n 10))
  end.

(** Lines 302-332. *)
Fixpoint digital_root_loop (fuel : nat) (n : Z) : outcome :=
  match fuel with
  | O => OutOfFuel
  | S fuel' =>
      if n <? 10 then Returned n
      else match digit_sum_loop fuel n 0 with
           | Some sum => digital_root_loop fuel' sum
           | None => OutOfFuel
           end
  end.

Definition digital_root_main (fuel : nat) (value : N) : outcome :=
  digital_root_loop fuel (i32_const value).

(** Lines 361-374: the test is at the end of the loop body. *)
Fixpoint fibonacci_loop (fuel : nat) (n a b i : Z) : outcome :=
  match fuel with
  | O => OutOfFuel
  | S fuel' =>
      let temp := i32_add a b in
      let i' := i32_add i 1 in
      if i' <=? n then fibonacci_loop fuel' n b temp i'
      else Returned temp
  end.

(** Lines 348-376. *)
Definition fibonacci_main (fuel : nat) (value : N) : outcome :=
  let n := i32_const value in
  if n <=? 1 then Returned n
  else fibonacci_loop fuel n 0 1 2.

(** Lines 400-409. *)
Fixpoint factorial_loop (fuel : nat) (n result i : Z) : outcome :=
  match fuel with
  | O => OutOfFuel
  | S fuel' =>
      let result' := i32_mul result i in
      let i' := i32_add i 1 in
      if i' <=? n then factorial_loop fuel' n result' i'
      else Returned result'
  end.

(** Lines 390-411. *)
Definition factorial_main (fuel : nat) (value : N) : outcome :=
  let n := i32_const value in
  if n =? 0 then Returned 1
  else factorial_loop fuel n 1 1.

(** Lines 433-449. *)
Fixpoint gcd_loop (fuel : nat) (a b : Z) : outcome :=
  match fuel with
  | O => OutOfFuel
  | S fuel' =>
      if b =? 0 then Returned a
      else gcd_loop fuel' b (i32_rem_s a b)
  end.

Definition gcd_main (fuel : nat) (a b : N) : outcome :=
  gcd_loop fuel (i32_const a) (i32_const b).

(** Lines 456-461: the body is the single instruction [i32.const 42]. *)
Definition default_main : outcome := Returned (i32_const 42).

End Wasm.

(** What the entry point of the module rendered for a fingerprint
    computes. *)
Definition run_main (fuel : nat) (fp : fingerprint) : Wasm.outcome :=
  match fp with
  | PrimalityCheck n => Wasm.prime_main fuel n
  | CollatzSteps n => Wasm.collatz_main fuel n
  | DigitalRoot n => Wasm.digital_root_main fuel n
  | Fibonacci n => Wasm.fibonacci_main fuel n
  | Factorial n => Wasm.factorial_main fuel n
  | GCD a b => Wasm.gcd_main fuel a b
  | Unrecognized => Wasm.default_main
  end.

(** ** Artifact orchestrator: [compile_to_wasm] (lines 463-513) and
       [compile_transformed] (lines 931-953) *)

(** A raised [Exception], as the text [str(e)] that the handlers report. *)
Definition exn : Type := text.

(** What one invocation gets from its surroundings: the text of the UUID
    it draws, the home directory, and for each file-system step whether it
    raises. *)
Record Env : Type := {
  uuid4_str : text;          (* str(uuid.uuid4()) *)
  home : text;               (* what ~ expands to *)
  tmpdir_new : exn + text;   (* tempfile.TemporaryDirectory() *)
  tmp_write : option exn;    (* open(wat_file, 'w') and f.write *)
  makedirs : option exn;     (* os.makedirs(wasm_dir, exist_ok=True) *)
  final_write : option exn;  (* open(final_wat_path, 'w') and f.write *)
  tmp_cleanup : option exn   (* leaving the TemporaryDirectory block *)
}.

(** The files written so far under their paths, latest first; writing a
    path again replaces its content. *)
Definition files : Type := list (text * text).

Definition write_file (path content : text) (fs : files) : files :=
  (path, content) :: filter (fun e => negb (text_eqb (fst e) path)) fs.

Definition read_file (path : text) (fs : files) : option text :=
  option_map snd (find (fun e => text_eqb (fst e) path) fs).

(** Computations that read and write the files and may raise. *)
Definition M (A : Type) : Type := files -> (exn + A) * files.

Definition ret {A : Type} (a : A) : M A := fun fs => (inr a, fs).

Definition raise {A : Type} (e : exn) : M A := fun fs => (inl e, fs).

Definition bind {A B : Type} (m : M A) (k : A -> M B) : M B :=
  fun fs =>
    match m fs with
    | (inl e, fs') => (inl e, fs')
    | (inr a, fs') => k a fs'
    end.

Notation "x <- m ;; k" := (bind m (fun x => k))
  (at level 61, m at next level, right associativity).

(** [try: body except Exception as e: handler e] *)
Definition try_except {A : Type} (body : M A) (handler : exn -> M A) : M A :=
  fun fs =>
    match body fs with
    | (inl e, fs') => handler e fs'
    | (inr a, fs') => (inr a, fs')
    end.

(** [with open(path, 'w') as f: f.write(content)], as one step that
    either stores the content or raises and leaves the file as it was;
    [Exn.open_write] tells the opening, which empties the file, from the
    writing. *)
Definition open_write (o : option exn) (path content : text) : M unit :=
  match o with
  | Some e => raise e
  | None => fun fs => (inr tt, write_file path content fs)
  end.

(** [os.makedirs(dir, exist_ok=True)] *)
Definition os_makedirs (o : option exn) : M unit :=
  match o with
  | Some e => raise e
  | None => ret tt
  end.

(** [with tempfile.TemporaryDirectory() as tmpdir: body]: the directory is
    removed, with the files under it, however the body ends, and a failing
    removal raises in place of the body's result. *)
Definition with_tempdir {A : Type} (env : Env) (body : text -> M A) : M A :=
  match tmpdir_new env with
  | inl e => raise e
  | inr tmpdir =>
      fun fs =>
        let '(r, fs') := body tmpdir fs in
        match tmp_cleanup env with
        | Some e => (inl e, fs')
        | None =>
            (r, filter (fun e => negb (Py.starts_with tmpdir (fst e))) fs')
        end
  end.

(** [os.path.join(dir, name)] *)
Definition path_join (dir name : text) : text :=
  if Py.starts_with (str "/") name then name
  else match rev dir with
       | [] => name
       | c :: _ => if Ascii.eqb c "/" then dir ++ name
                   else dir ++ "/"%char :: name
       end.

(** The dictionary [compile_to_wasm] returns; an absent key is [None]. *)
Record result : Type := {
  res_success : bool;
  res_wat_content : option text;
  res_wasm_file : option text;
  res_wasm_size : option Z;
  res_error : option text
}.

Definition wasm_dir (env : Env) : text :=
  home env ++ str "/agentkit/zkengine/example_wasms".

(** Line 474. *)
Definition base_name_of (filename : text) : text :=
  Py.replace (str ".c") [] filename.

(** Line 475. *)
Definition unique_id_of (env : Env) : text := firstn 8 (uuid4_str env).

(** Lines 476 and 486. *)
Definition wat_name (base_name unique_id : text) : text :=
  base_name ++ str "_" ++ unique_id ++ str ".wat".

Definition compile_to_wasm (env : Env) (code filename : text) : M result :=
  try_except
    (let wat_content := generate_wat_from_c_analysis code in
     with_tempdir env (fun tmpdir =>
       let base_name := base_name_of filename in
       let unique_id := unique_id_of env in
       let wat_file := path_join tmpdir (wat_name base_name unique_id) in
       _ <- open_write (tmp_write env) wat_file wat_content ;;
       _ <- os_makedirs (makedirs env) ;;
       let final_wat_name := wat_name base_name unique_id in
       let final_wat_path := path_join (wasm_dir env) final_wat_name in
       _ <- open_write (final_write env) final_wat_path wat_content ;;
       let file_size := Py.utf8_len wat_content in
       ret {| res_success := true;
              res_wat_content := Some wat_content;
              res_wasm_file := Some final_wat_name;
              res_wasm_size := Some file_size;
              res_error := None |}))
    (fun e =>
       ret {| res_success := false;
              res_wat_content := None;
              res_wasm_file := None;
              res_wasm_size := None;
              res_error := Some e |}).

Record CompileRequest : Type := {
  code : text;
  filename : text
}.

Record CompileResponse : Type := {
  success : bool;
  wat_content : option text;
  wasm_file : option text;
  wasm_size : option Z;
  error : option text
}.

Definition compile_transformed (env : Env) (request : CompileRequest)
  : M CompileResponse :=
  try_except
    (r <- compile_to_wasm env (code request) (filename request) ;;
     if res_success r then
       ret {| success := true;
              wat_content := res_wat_content r;
              wasm_file := res_wasm_file r;
              wasm_size := res_wasm_size r;
              error := None |}
     else
       ret {| success := false;
              wat_content := None;
              wasm_file := None;
              wasm_size := None;
              error := Some (match res_error r with
                             | Some e => e
                             | None => str "Unknown compilation error"
                             end) |})
    (fun e =>
       ret {| success := false;
              wat_content := None;
              wasm_file := None;
              wasm_size := None;
              error := Some e |}).




(** ** Notions used to state the properties *)

(** Every match that [Re.sub re tpl] would replace in [s] already reads as
    its replacement. *)
Fixpoint fixed_from (re : regex) (tpl : list piece) (prev : option ascii)
         (s : text) (skip : nat) : bool :=
  match s with
  | [] =>
      match skip, match_here re prev [] with
      | O, Some r => text_eqb (expand tpl (group1 r [])) []
      | _, _ => true
      end
  | c :: s' =>
      match skip with
      | S k => fixed_from re tpl (Some c) s' k
      | O =>
          match match_here re prev s with
          | Some r =>
              match m_len r with
              | O => false
              | S k =>
                  text_eqb (expand tpl (group1 r s)) (firstn (S k) s) &&
                  fixed_from re tpl (Some c) s' k
              end
          | None => fixed_from re tpl (Some c) s' 0
          end
      end
  end.

Definition fixed_by (re : regex) (tpl : list piece) (s : text) : bool :=
  fixed_from re tpl None s 0.

(** A text on which no rule of the normalizer has anything left to
    rewrite: the include rule is not triggered, every match of the five
    substitution patterns already reads as its replacement, and [malloc]
    does not occur. *)
Definition settled (t : text) : bool :=
  negb (negb (Py.contains (str "int32_t") t) &&
        (Py.contains (str "int ") t || Py.contains (str "float ") t) &&
        negb (Py.contains (str "#include <stdint.h>") t)) &&
  fixed_by int_re [Keep (str "int32_t ")] t &&
  fixed_by float_re [Keep (str "int32_t ")] t &&
  fixed_by printf_re [Keep (str "/* printf removed */;")] t &&
  fixed_by scanf_re [Keep (str "/* scanf removed */;")] t &&
  fixed_by main_re [Keep (str "int32_t main()")] t &&
  negb (Py.contains (str "malloc") t).

(** The change log of a run on a settled text. *)
Definition settled_log (t : text) : list text :=
  [msg_types] ++
  (if Py.contains (str "printf") t then [msg_printf] else []) ++
  (if Py.contains (str "scanf") t then [msg_scanf] else []) ++
  (match Re.search main_re t with Some _ => [msg_main] | None => [] end).

(** The order of probes in the words of the specification: the assignment
    probe of every candidate name in priority order first, the call probe
    only after all of them have failed, the default last. *)
Fixpoint first_assignment (code : text) (var_names : list string)
  : option N :=
  match var_names with
  | [] => None
  | var :: rest =>
      match probe (assign_re var) code with
      | Some v => Some v
      | None => first_assignment code rest
      end
  end.

Definition extract_value_as_specified (code : text) (var_names : list string)
           (func_name : string) (default : N) : N :=
  match first_assignment code var_names with
  | Some v => v
  | None =>
      match probe (call_re func_name) code with
      | Some v => v
      | None => default
      end
  end.

(** The Collatz trajectory of the emitted module: [n] after [k]
    transitions. *)
Definition trajectory (n : Z) (k : nat) : Z :=
  Nat.iter k Wasm.collatz_step n.

(** [k] is the number of transitions after which the trajectory of [n]
    first reaches 1. *)
Definition reaches_one_at (n : Z) (k : nat) : Prop :=
  trajectory n k = 1%Z /\ forall j, (j < k)%nat -> trajectory n j <> 1%Z.

(** A detection predicate that cannot tell apart two texts differing only
    in letter case. *)
Definition case_insensitive (detect : text -> bool) : Prop :=
  forall t t', Py.lower t = Py.lower t' -> detect t = detect t'.

(** No family predicate of the if-chain holds. *)
Definition no_family_cue (code : text) : bool :=
  negb (detect_prime code) && negb (detect_collatz code) &&
  negb (detect_digital_root code) && negb (detect_fibonacci code) &&
  negb (detect_factorial code) && negb (detect_gcd code).

(** The exception that reaches the handler of [compile_to_wasm], if any:
    a failing creation of the temporary directory; otherwise a failing
    removal of it, which replaces whatever the block did; otherwise the
    first failing step inside the block. *)
Definition failure_of (env : Env) : option exn :=
  match tmpdir_new env with
  | inl e => Some e
  | inr _ =>
      match tmp_cleanup env with
      | Some e => Some e
      | None =>
          match tmp_write env with
          | Some e => Some e
          | None =>
              match makedirs env with
              | Some e => Some e
              | None => final_write env
              end
          end
      end
  end.

(** The two shapes of the dictionary. *)
Definition succeeded (env : Env) (code filename : text) : result :=
  {| res_success := true;
     res_wat_content := Some (generate_wat_from_c_analysis code);
     res_wasm_file :=
       Some (wat_name (base_name_of filename) (unique_id_of env));
     res_wasm_size := Some (Py.utf8_len (generate_wat_from_c_analysis code));
     res_error := None |}.

Definition failed (e : exn) : result :=
  {| res_success := false;
     res_wat_content := None;
     res_wasm_file := None;
     res_wasm_size := None;
     res_error := Some e |}.


(** An invocation in which no step raises and that draws the UUID [u]. *)
Definition quiet_env (u : string) : Env :=
  {| uuid4_str := str u;
     home := str "/home/agent";
     tmpdir_new := inr (str "/tmp/tmpq1w2e3r4");
     tmp_write := None;
     makedirs := None;
     final_write := None;
     tmp_cleanup := None |}.

(** An invocation whose output directory cannot be created. *)
Definition readonly_env (u : string) : Env :=
  {| uuid4_str := str u;
     home := str "/home/agent";
     tmpdir_new := inr (str "/tmp/tmpq1w2e3r4");
     tmp_write := None;
     makedirs := Some (str "[Errno 30] Read-only file system");
     final_write := None;
     tmp_cleanup := None |}.

(** Sample inputs. *)
Definition sample_program : text :=
  str "int main(int argc) { int x = 5; printf(x); return x; }".

Definition sample_with_malloc_header : text :=
  str "#include <malloc.h>
int main() { return 0; }".

Definition uuid_a : string := "3f2a9c1e-7b44-4d1a-9e0f-1234567890ab".

(** ** Proof requests: [analyze_proof_complexity] (lines 525-542) and
       [extract_proof_intent] (lines 544-637) *)

(** [str(z)] / the f-string rendering of an integer. *)
Definition dec_int (z : Z) : text :=
  if (z <? 0)%Z then "-"%char :: Py.dec (Z.to_N (- z)) else Py.dec (Z.to_N z).

(** [args[i] if len(args) > i else default] *)
Definition arg_or (args : list text) (i : nat) (default : string) : text :=
  nth i args (str default).

(** Lines 525-542.  [custom_step_size] is used when it is truthy, that is
    neither [None] nor 0. *)
Definition analyze_proof_complexity (function : text) (args : list text)
           (custom_step_size : option Z) : Z * text :=
  let by_function : Z * text :=
    if text_eqb function (str "prove_location") then
      (50%Z, str "Location proof for DePIN network.")
    else if text_eqb function (str "prove_kyc") then
      (50%Z,
       str "Circle KYC compliance proof with wallet_hash: " ++
       arg_or args 0 "12345" ++ str ", kyc_status: " ++
       arg_or args 1 "1" ++ str " (1=approved).")
    else if text_eqb function (str "prove_ai_content") then
      (50%Z,
       str "AI content authenticity proof with content_hash: " ++
       arg_or args 0 "42" ++ str ", auth_type: " ++
       arg_or args 1 "1" ++ str ".")
    else (50%Z, str "Simple operation: " ++ function ++ str ".") in
  match custom_step_size with
  | Some c =>
      if negb (c =? 0)%Z then
        if (c <? 10)%Z then
          (50%Z,
           str "Custom step size " ++ dec_int c ++
           str " too low, using minimum 50.")
        else if (10000 <? c)%Z then
          (1000%Z,
           str "Custom step size " ++ dec_int c ++
           str " too high, capping at 1000.")
        else (c, str "Using custom step size: " ++ dec_int c)
      else by_function
  | None => by_function
  end.

(** The dictionary [extract_proof_intent] returns; the keys
    [location_based] and [custom_step_size] are each present in one of its
    two shapes only. *)
Record proof_intent : Type := {
  pi_function : text;
  pi_arguments : list text;
  pi_step_size : Z;
  pi_location_based : option bool;
  pi_custom_step_size : option bool
}.

(** Line 550. *)
Definition cities : list string :=
  ["san francisco"; "sf"; "new york"; "nyc"; "london"]%string.

(** Lines 552-555: the first city of the list that occurs in the message. *)
Definition detect_city (message_lower : text) : option text :=
  find (fun city => Py.contains city message_lower) (map str cities).

(** [.*?(\d+)] at the start of [s]: the lazy run of characters other than
    the newline stops at the first digit, and the group takes the whole run
    of digits from there. *)
Fixpoint lazy_then_digits (s : text) : option text :=
  match s with
  | [] => None
  | c :: s' =>
      if is_digit c then Some (firstn (run_length is_digit s) s)
      else if Ascii.eqb c nl then None
      else lazy_then_digits s'
  end.

(** Group 1 of [re.search(r'device.*?(\d+)', s)]. *)
Fixpoint search_device (s : text) : option text :=
  match (if Py.starts_with (str "device") s
         then lazy_then_digits (skipn 6 s) else None) with
  | Some g => Some g
  | None =>
      match s with
      | [] => None
      | _ :: s' => search_device s'
      end
  end.

(** Group 1 of [re.search] for a pattern [(?:pre)?body]: at each position
    the optional prefix is tried first and then skipped. *)
Fixpoint search_optional (pre body : regex) (prev : option ascii) (s : text)
  : option text :=
  match (match match_here (pre ++ body) prev s with
         | Some r => Some r
         | None => match_here body prev s
         end) with
  | Some r => Some (group1 r s)
  | None =>
      match s with
      | [] => None
      | c :: s' => search_optional pre body (Some c) s'
      end
  end.

(** Lines 570-574: [(?:with\s+)?step\s+size\s+(\d+)],
    [(?:using\s+)?(\d+)\s+step\s+size] and [step\s+(\d+)], each as its
    optional prefix and its body. *)
Definition step_size_patterns : list (regex * regex) :=
  [ (lit "with" ++ [Rep 1 is_space],
     lit "step" ++ [Rep 1 is_space] ++ lit "size" ++
     [Rep 1 is_space; GOpen; Rep 1 is_digit; GClose]);
    (lit "using" ++ [Rep 1 is_space],
     [GOpen; Rep 1 is_digit; GClose; Rep 1 is_space] ++ lit "step" ++
     [Rep 1 is_space] ++ lit "size");
    ([], lit "step" ++ [Rep 1 is_space; GOpen; Rep 1 is_digit; GClose]) ].

(** Lines 576-580: the number of the first pattern that matches. *)
Fixpoint first_step_size (patterns : list (regex * regex)) (s : text)
  : option N :=
  match patterns with
  | [] => None
  | (pre, body) :: rest =>
      match search_optional pre body None s with
      | Some g => Some (Py.int g)
      | None => first_step_size rest s
      end
  end.

(** A pattern made of words separated by [\s+]. *)
Definition words_re (ws : list string) : regex :=
  match ws with
  | [] => []
  | w :: rest => lit w ++ flat_map (fun w' => Rep 1 is_space :: lit w') rest
  end.

(** Lines 583-611, in the order of the dictionary. *)
Definition kyc_patterns : list (list string) :=
  [ ["prove"; "kyc"; "compliance"]; ["kyc"; "compliance"];
    ["verify"; "kyc"; "status"]; ["prove"; "kyc"]; ["kyc"; "proof"];
    ["kyc"; "verification"]; ["circle"; "kyc"];
    ["regulatory"; "compliance"]; ["compliance"; "proof"];
    ["kyc"; "approved"]; ["prove"; "compliance"] ]%string.

Definition ai_content_patterns : list (list string) :=
  [ ["prove"; "ai"; "content"; "authenticity"];
    ["ai"; "content"; "authenticity"]; ["verify"; "ai"; "content"];
    ["prove"; "content"; "authenticity"]; ["ai"; "authenticity"];
    ["content"; "verification"]; ["verify"; "ai"; "generated"];
    ["prove"; "ai"; "generated"]; ["ai"; "content"; "proof"];
    ["authenticate"; "ai"; "content"]; ["ai"; "content"];
    ["content"; "authenticity"] ]%string.

Definition matches_any (patterns : list (list string)) (s : text) : bool :=
  existsb (fun p => match Re.search (words_re p) s with
                    | Some _ => true
                    | None => false
                    end) patterns.

(** Lines 544-637.  [randint] is the number that
    [random.randint(1000, 99999)] gives when it is called.  No pattern of
    the two families has a capturing group, so [match.groups()] is empty
    and the arguments are the defaults of the family. *)
Definition extract_proof_intent (randint : N) (message : text)
  : option proof_intent :=
  let message_lower := Py.lower message in
  let located :=
    if Py.contains (str "location") message_lower then
      match detect_city message_lower with
      | Some detected_city =>
          let device_id :=
            match search_device message_lower with
            | Some g => g
            | None => Py.dec randint
            end in
          Some {| pi_function := str "prove_location";
                  pi_arguments := [detected_city; device_id];
                  pi_step_size := 50%Z;
                  pi_location_based := Some true;
                  pi_custom_step_size := None |}
      | None => None
      end
    else None in
  match located with
  | Some intent => Some intent
  | None =>
      let custom_step_size :=
        first_step_size step_size_patterns message_lower in
      let found (func : string) (args : list text) : option proof_intent :=
        Some {| pi_function := str func;
                pi_arguments := args;
                pi_step_size :=
                  fst (analyze_proof_complexity
                         (str func) args
                         (option_map Z.of_N custom_step_size));
                pi_location_based := None;
                pi_custom_step_size :=
                  Some (match custom_step_size with
                        | Some _ => true
                        | None => false
                        end) |} in
      if matches_any kyc_patterns message_lower then
        found "prove_kyc"%string [str "12345"; str "1"]
      else if matches_any ai_content_patterns message_lower then
        found "prove_ai_content"%string [str "42"; str "1"]
      else None
  end.

(** ** Response cleaning (lines 714-718, again at 781-785 and 891-895) *)

(** [\*+], [#+], [`+] and [_+]. *)
Definition run_re (c : ascii) : regex := [Rep 1 (Ascii.eqb c)].

(** [\[([^\]]+)\]\([^\)]+\)] *)
Definition link_re : regex :=
  [Chr "["; GOpen; Rep 1 (is_not "]"); GClose; Chr "]"; Chr "(";
   Rep 1 (is_not ")"); Chr ")"]%char.

Definition strip_markdown (content : text) : text :=
  let content := Re.sub (run_re "*") [] content in
  let content := Re.sub (run_re "#") [] content in
  let content := Re.sub (run_re "`") [] content in
  let content := Re.sub (run_re "_") [] content in
  Re.sub link_re [Group1] content.

(** ** The endpoint [transform_code] (lines 906-929) *)

Record TransformRequest : Type := {
  tr_code : text;
  tr_auto_transform : bool
}.

Record TransformResponse : Type := {
  ts_success : bool;
  ts_transformed_code : text;
  ts_changes : list text;
  ts_error : option text
}.

(** The body of the [try]; the handler is not reached, as
    [transform_for_zkengine] raises nothing. *)
Definition transform_code (request : TransformRequest) : TransformResponse :=
  if tr_auto_transform request then
    let '(transformed_code, changes) :=
      transform_for_zkengine (tr_code request) in
    {| ts_success := true;
       ts_transformed_code := transformed_code;
       ts_changes := changes;
       ts_error := None |}
  else
    {| ts_success := true;
       ts_transformed_code := tr_code request;
       ts_changes := [str "No transformation applied (auto_transform=False)"];
       ts_error := None |}.

(** ** Further notions used to state the properties *)

(** [re] starts with the literal characters of [w]; [w] occurs in [re] as
    a run of literal characters. *)
Fixpoint lit_prefix (w : text) (re : regex) : bool :=
  match w with
  | [] => true
  | c :: w' =>
      match re with
      | Chr c' :: re' => Ascii.eqb c c' && lit_prefix w' re'
      | _ => false
      end
  end.

Fixpoint has_literal (w : text) (re : regex) : bool :=
  lit_prefix w re ||
  match re with
  | [] => false
  | _ :: re' => has_literal w re'
  end.

(** A text without any decimal digit. *)
Definition digit_free (s : text) : bool :=
  forallb (fun c => negb (is_digit c)) s.

(** The four characters the response cleaning removes. *)
Definition is_markup (c : ascii) : bool :=
  Ascii.eqb "*" c || Ascii.eqb "#" c || Ascii.eqb "`" c || Ascii.eqb "_" c.

(** The Fibonacci numbers. *)
Fixpoint fib (n : nat) : Z :=
  match n with
  | O => 0%Z
  | S m =>
      match m with
      | O => 1%Z
      | S k => (fib m + fib k)%Z
      end
  end.

(** The digital root of a non-negative number. *)
Definition digital_root_of (n : Z) : Z :=
  if (n =? 0)%Z then 0%Z else (1 + (n - 1) mod 9)%Z.

(** [n] has no divisor strictly between 1 and [i]. *)
Definition no_divisor_below (n i : Z) : Prop :=
  forall d, (1 < d < i)%Z -> ~ (d | n)%Z.

(** The six entries of the change log, in the order of the rules. *)
Definition log_of (stdint printf scanf main malloc : bool) : list text :=
  (if stdint then [msg_stdint] else []) ++ [msg_types] ++
  (if printf then [msg_printf] else []) ++
  (if scanf then [msg_scanf] else []) ++
  (if main then [msg_main] else []) ++
  (if malloc then [msg_malloc] else []).

(** A 7-bit character, which UTF-8 encodes in one byte. *)
Definition is_ascii7 (c : ascii) : bool := Nat.ltb (nat_of_ascii c) 128.

(** [s.endswith(p)] *)
Definition ends_with (p s : text) : bool := Py.starts_with (rev p) (rev s).

(** The line that declares the entry point of a module, and the
    instruction that sets a local to a constant. *)
Definition export_line : text :=
  str "(func (export " ++ dq :: str "main" ++ dq ::
  str ") (param $dummy i32) (result i32)".

Definition set_local (name : string) (v : N) : text :=
  (str "(local.set $" ++ str name ++ str " (i32.const ") ++
  Py.dec v ++ str "))".

(** The path under which an invocation stores its artifact. *)
Definition artifact_path (env : Env) (filename : text) : text :=
  path_join (wasm_dir env)
            (wat_name (base_name_of filename) (unique_id_of env)).

(** The numbers of a fingerprint fit the 32-bit constants of its module. *)
Definition literals_fit (fp : fingerprint) : bool :=
  match fp with
  | PrimalityCheck n | CollatzSteps n | DigitalRoot n | Fibonacci n
  | Factorial n => (n <? 2 ^ 32)%N
  | GCD a b => (a <? 2 ^ 32)%N && (b <? 2 ^ 32)%N
  | Unrecognized => true
  end.

(** ** The interpreter's exceptions made explicit

    The definitions above take [int] as a total function, a write as one
    step and every raised exception as an instance of [Exception], and
    they leave out the calls of [print].  The interpreter is stricter:
    [int] raises [ValueError] on a text of more than 4300 digits, [print]
    can raise, [open(path, 'w')] empties the file before [f.write] can
    fail, and [except Exception] lets through an exception that is not an
    instance of [Exception].  The module [Exn] gives the functions in
    which this matters once more, with all of it written out; they agree
    with the ones above wherever none of it happens. *)

Module Exn.

(** A raised exception: whether it is an instance of [Exception], which
    is what [except Exception] catches, and its text [str(e)]. *)
Record exc : Type := {
  is_exception : bool;
  text_of : text
}.

(** The default of [sys.get_int_max_str_digits()]. *)
Definition max_str_digits : nat := 4300.

(** The [ValueError] that [int] raises on a text of [digits] digits. *)
Definition value_error (digits : nat) : exc :=
  {| is_exception := true;
     text_of :=
       str "Exceeds the limit (4300 digits) for integer string conversion: value has " ++
       Py.dec (N.of_nat digits) ++
       str " digits; use sys.set_int_max_str_digits() to increase the limit" |}.

(** [int(ds)] for a text of decimal digits: every digit counts towards
    the limit, leading zeros too. *)
Definition int (ds : text) : exc + N :=
  if Nat.ltb max_str_digits (length ds)
  then inl (value_error (length ds))
  else inr (Py.int ds).

(** What one invocation gets from its surroundings: the text of the UUID
    it draws, the home directory, and for each step whether it raises.
    [print_at] is indexed by the source line of the call; a failing
    [f.write] comes with the number of characters that reached the file
    before it failed. *)
Record Env : Type := {
  uuid4_str : text;                  (* str(uuid.uuid4()) *)
  home : text;                       (* what ~ expands to *)
  print_at : nat -> option exc;      (* print and traceback.print_exc *)
  tmpdir_new : exc + text;           (* tempfile.TemporaryDirectory() *)
  tmp_open : option exc;             (* open(wat_file, 'w') *)
  tmp_write : option (exc * nat);    (* f.write and the closing of f *)
  makedirs : option exc;             (* os.makedirs(wasm_dir, exist_ok=True) *)
  final_open : option exc;           (* open(final_wat_path, 'w') *)
  final_write : option (exc * nat);  (* f.write and the closing of f *)
  tmp_cleanup : option exc           (* leaving the TemporaryDirectory block *)
}.

(** Computations that read and write the files and may raise. *)
Definition M (A : Type) : Type := files -> (exc + A) * files.

Definition ret {A : Type} (a : A) : M A := fun fs => (inr a, fs).

Definition raise {A : Type} (e : exc) : M A := fun fs => (inl e, fs).

Definition bind {A B : Type} (m : M A) (k : A -> M B) : M B :=
  fun fs =>
    match m fs with
    | (inl e, fs') => (inl e, fs')
    | (inr a, fs') => k a fs'
    end.

Definition lift {A : Type} (r : exc + A) : M A := fun fs => (r, fs).

Notation "x <~ m ;; k" := (bind m (fun x => k))
  (at level 61, m at next level, right associativity).

(** [try: body except Exception as e: handler e]: an exception that is
    not an instance of [Exception] passes through. *)
Definition try_except {A : Type} (body : M A) (handler : exc -> M A) : M A :=
  fun fs =>
    match body fs with
    | (inl e, fs') => if is_exception e then handler e fs' else (inl e, fs')
    | (inr a, fs') => (inr a, fs')
    end.

(** [print(...)] and [traceback.print_exc()] at the given source line. *)
Definition print (env : Env) (line : nat) : M unit :=
  match print_at env line with
  | Some e => raise e
  | None => ret tt
  end.

(** [with open(path, 'w') as f: f.write(content)]: a successful [open]
    leaves the file empty, and a failing write leaves in it the characters
    written so far. *)
Definition open_write (opening : option exc) (writing : option (exc * nat))
           (path content : text) : M unit :=
  match opening with
  | Some e => raise e
  | None =>
      match writing with
      | Some (e, k) => fun fs => (inl e, write_file path (firstn k content) fs)
      | None => fun fs => (inr tt, write_file path content fs)
      end
  end.

(** [os.makedirs(dir, exist_ok=True)] *)
Definition os_makedirs (o : option exc) : M unit :=
  match o with
  | Some e => raise e
  | None => ret tt
  end.

(** [with tempfile.TemporaryDirectory() as tmpdir: body]: the directory is
    removed, with the files under it, however the body ends, and a failing
    removal raises in place of the body's result or exception. *)
Definition with_tempdir {A : Type} (env : Env) (body : text -> M A) : M A :=
  match tmpdir_new env with
  | inl e => raise e
  | inr tmpdir =>
      fun fs =>
        let '(r, fs') := body tmpdir fs in
        match tmp_cleanup env with
        | Some e => (inl e, fs')
        | None =>
            (r, filter (fun e => negb (Py.starts_with tmpdir (fst e))) fs')
        end
  end.

(** Lines 174-185: the first probe that matches is converted with [int],
    which may raise. *)
Fixpoint extract_value (code : text) (var_names : list string)
         (func_name : option string) (default : N) : exc + N :=
  match var_names with
  | [] => inr default
  | var :: rest =>
      match Re.search (assign_re var) code with
      | Some (_, _, g) => int g
      | None =>
          match func_name with
          | Some f =>
              match Re.search (call_re f) code with
              | Some (_, _, g) => int g
              | None => extract_value code rest func_name default
              end
          | None => extract_value code rest func_name default
          end
      end
  end.

Definition then_render (value : exc + N) (template : N -> text) : exc + text :=
  match value with
  | inl e => inl e
  | inr v => inr (template v)
  end.

(** Lines 187-461: the if-chain.  Line 455 prints before the fallback text
    is returned. *)
Definition generate_wat_from_c_analysis (env : Env) (code : text)
  : exc + text :=
  if detect_prime code then
    then_render (extract_value code ["number_to_check"; "n"; "num"]%string
                               (Some "is_prime"%string) 17) prime_wat
  else if detect_collatz code then
    then_render (extract_value code ["starting_number"; "start"; "n"]%string
                               (Some "collatz"%string) 27) collatz_wat
  else if detect_digital_root code then
    then_render (extract_value code ["input_number"; "num"; "n"]%string
                               (Some "digital_root"%string) 12345)
                digital_root_wat
  else if detect_fibonacci code then
    then_render (extract_value code ["n"; "num"; "value"]%string
                               (Some "fibonacci"%string) 10) fibonacci_wat
  else if detect_factorial code then
    then_render (extract_value code ["n"; "num"; "value"]%string
                               (Some "factorial"%string) 5) factorial_wat
  else if detect_gcd code then
    let a_match := Re.search gcd_a_re code in
    let b_match := Re.search gcd_b_re code in
    match (match a_match with
           | Some (_, _, g) => int g
           | None => inr 48%N
           end) with
    | inl e => inl e
    | inr a =>
        match (match b_match with
               | Some (_, _, g) => int g
               | None => inr 18%N
               end) with
        | inl e => inl e
        | inr b => inr (gcd_wat a b)
        end
    end
  else
    match print_at env 455 with
    | Some e => inl e
    | None => inr default_wat
    end.

Definition wasm_dir (env : Env) : text :=
  home env ++ str "/agentkit/zkengine/example_wasms".

Definition unique_id_of (env : Env) : text := firstn 8 (uuid4_str env).

(** Lines 466-504: the body of the [try]. *)
Definition try_block (env : Env) (code filename : text) : M result :=
  _ <~ print env 466 ;;
  wat_content <~ lift (generate_wat_from_c_analysis env code) ;;
  with_tempdir env (fun tmpdir =>
    let base_name := base_name_of filename in
    let unique_id := unique_id_of env in
    let wat_file := path_join tmpdir (wat_name base_name unique_id) in
    _ <~ open_write (tmp_open env) (tmp_write env) wat_file wat_content ;;
    _ <~ os_makedirs (makedirs env) ;;
    let final_wat_name := wat_name base_name unique_id in
    let final_wat_path := path_join (wasm_dir env) final_wat_name in
    _ <~ open_write (final_open env) (final_write env)
                    final_wat_path wat_content ;;
    let file_size := Py.utf8_len wat_content in
    _ <~ print env 496 ;;
    _ <~ print env 497 ;;
    ret {| res_success := true;
           res_wat_content := Some wat_content;
           res_wasm_file := Some final_wat_name;
           res_wasm_size := Some file_size;
           res_error := None |}).

(** Lines 463-513.  The handler prints twice before it returns. *)
Definition compile_to_wasm (env : Env) (code filename : text) : M result :=
  try_except
    (try_block env code filename)
    (fun e =>
       _ <~ print env 507 ;;
       _ <~ print env 509 ;;
       ret {| res_success := false;
              res_wat_content := None;
              res_wasm_file := None;
              res_wasm_size := None;
              res_error := Some (text_of e) |}).

(** Lines 931-953. *)
Definition compile_transformed (env : Env) (request : CompileRequest)
  : M CompileResponse :=
  try_except
    (r <~ compile_to_wasm env (code request) (filename request) ;;
     if res_success r then
       ret {| success := true;
              wat_content := res_wat_content r;
              wasm_file := res_wasm_file r;
              wasm_size := res_wasm_size r;
              error := None |}
     else
       ret {| success := false;
              wat_content := None;
              wasm_file := None;
              wasm_size := None;
              error := Some (match res_error r with
                             | Some e => e
                             | None => str "Unknown compilation error"
                             end) |})
    (fun e =>
       ret {| success := false;
              wat_content := None;
              wasm_file := None;
              wasm_size := None;
              error := Some (text_of e) |}).

(** Lines 576-580: the number of the first pattern that matches, converted
    with [int], which may raise. *)
Fixpoint first_step_size (patterns : list (regex * regex)) (s : text)
  : exc + option N :=
  match patterns with
  | [] => inr None
  | (pre, body) :: rest =>
      match search_optional pre body None s with
      | Some g =>
          match int g with
          | inl e => inl e
          | inr n => inr (Some n)
          end
      | None => first_step_size rest s
      end
  end.

(** Lines 544-637: the location branch returns before the step size is
    looked for; the families are tried after it has been converted. *)
Definition extract_proof_intent (randint : N) (message : text)
  : exc + option proof_intent :=
  let message_lower := Py.lower message in
  let located :=
    if Py.contains (str "location") message_lower then
      match detect_city message_lower with
      | Some detected_city =>
          let device_id :=
            match search_device message_lower with
            | Some g => g
            | None => Py.dec randint
            end in
          Some {| pi_function := str "prove_location";
                  pi_arguments := [detected_city; device_id];
                  pi_step_size := 50%Z;
                  pi_location_based := Some true;
                  pi_custom_step_size := None |}
      | None => None
      end
    else None in
  match located with
  | Some intent => inr (Some intent)
  | None =>
      match first_step_size step_size_patterns message_lower with
      | inl e => inl e
      | inr custom_step_size =>
          let found (func : string) (args : list text) : option proof_intent :=
            Some {| pi_function := str func;
                    pi_arguments := args;
                    pi_step_size :=
                      fst (analyze_proof_complexity
                             (str func) args
                             (option_map Z.of_N custom_step_size));
                    pi_location_based := None;
                    pi_custom_step_size :=
                      Some (match custom_step_size with
                            | Some _ => true
                            | None => false
                            end) |} in
          inr (if matches_any kyc_patterns message_lower then
                 found "prove_kyc"%string [str "12345"; str "1"]
               else if matches_any ai_content_patterns message_lower then
                 found "prove_ai_content"%string [str "42"; str "1"]
               else None)
      end
  end.

(** *** Notions used to state the properties *)

(** The exception that leaves the [try] block of [compile_to_wasm], if
    any: the first failing step before the temporary directory exists;
    otherwise a failing removal of the directory, which replaces whatever
    the block did; otherwise the first failing step inside the block. *)
Definition raised_in_try (env : Env) (code : text) : option exc :=
  match print_at env 466 with
  | Some e => Some e
  | None =>
  match generate_wat_from_c_analysis env code with
  | inl e => Some e
  | inr _ =>
  match tmpdir_new env with
  | inl e => Some e
  | inr _ =>
  match tmp_cleanup env with
  | Some e => Some e
  | None =>
  match tmp_open env with
  | Some e => Some e
  | None =>
  match tmp_write env with
  | Some (e, _) => Some e
  | None =>
  match makedirs env with
  | Some e => Some e
  | None =>
  match final_open env with
  | Some e => Some e
  | None =>
  match final_write env with
  | Some (e, _) => Some e
  | None =>
  match print_at env 496 with
  | Some e => Some e
  | None => print_at env 497
  end end end end end end end end end end.

(** The exception that the handler of [compile_to_wasm] raises itself. *)
Definition raised_in_handler (env : Env) : option exc :=
  match print_at env 507 with
  | Some e => Some e
  | None => print_at env 509
  end.


(** The path under which an invocation stores its artifact. *)
Definition artifact_path (env : Env) (filename : text) : text :=
  path_join (wasm_dir env)
            (wat_name (base_name_of filename) (unique_id_of env)).

(** The two shapes of the response. *)
Definition succeeded (env : Env) (wat filename : text) : result :=
  {| res_success := true;
     res_wat_content := Some wat;
     res_wasm_file :=
       Some (wat_name (base_name_of filename) (unique_id_of env));
     res_wasm_size := Some (Py.utf8_len wat);
     res_error := None |}.

Definition failure (msg : text) : CompileResponse :=
  {| success := false;
     wat_content := None;
     wasm_file := None;
     wasm_size := None;
     error := Some msg |}.

(** Sample surroundings and inputs: an invocation in which no step
    raises; one whose standard output is closed, so that every [print]
    raises; one that is interrupted from the keyboard while it opens the
    artifact file; and a text whose number has 4301 digits. *)
Definition quiet_env : Env :=
  {| uuid4_str := str "3f2a9c1e-7b44-4d1a-9e0f-1234567890ab";
     home := str "/home/agent";
     print_at := fun _ => None;
     tmpdir_new := inr (str "/tmp/tmpq1w2e3r4");
     tmp_open := None;
     tmp_write := None;
     makedirs := None;
     final_open := None;
     final_write := None;
     tmp_cleanup := None |}.

Definition broken_pipe : exc :=
  {| is_exception := true; text_of := str "[Errno 32] Broken pipe" |}.

Definition closed_stdout_env : Env :=
  {| uuid4_str := uuid4_str quiet_env;
     home := home quiet_env;
     print_at := fun _ => Some broken_pipe;
     tmpdir_new := tmpdir_new quiet_env;
     tmp_open := None;
     tmp_write := None;
     makedirs := None;
     final_open := None;
     final_write := None;
     tmp_cleanup := None |}.

Definition keyboard_interrupt : exc :=
  {| is_exception := false; text_of := [] |}.

Definition interrupted_env : Env :=
  {| uuid4_str := uuid4_str quiet_env;
     home := home quiet_env;
     print_at := fun _ => None;
     tmpdir_new := tmpdir_new quiet_env;
     tmp_open := None;
     tmp_write := None;
     makedirs := None;
     final_open := Some keyboard_interrupt;
     final_write := None;
     tmp_cleanup := None |}.



Definition long_number : text := repeat "9"%char 4301.

Definition long_number_program : text :=
  str "int main() { return is_prime(" ++ long_number ++ str "); }".

End Exn.

(** The surroundings of the first model that correspond to those of
    [Exn]: each step keeps the text of what it raises, and a write fails
    when its opening or its writing does. *)
Definition plain_env (env : Exn.Env) : Env :=
  {| uuid4_str := Exn.uuid4_str env;
     home := Exn.home env;
     tmpdir_new :=
       match Exn.tmpdir_new env with
       | inl e => inl (Exn.text_of e)
       | inr d => inr d
       end;
     tmp_write :=
       match Exn.tmp_open env with
       | Some e => Some (Exn.text_of e)
       | None => option_map (fun p => Exn.text_of (fst p)) (Exn.tmp_write env)
       end;
     makedirs := option_map Exn.text_of (Exn.makedirs env);
     final_write :=
       match Exn.final_open env with
       | Some e => Some (Exn.text_of e)
       | None =>
           option_map (fun p => Exn.text_of (fst p)) (Exn.final_write env)
       end;
     tmp_cleanup := option_map Exn.text_of (Exn.tmp_cleanup env) |}.

(** What the first model leaves out does not happen: no [print] raises,
    no write fails after its file was opened, and generation returns. *)
Definition plain_run (env : Exn.Env) (code : text) : bool :=
  forallb (fun line => match Exn.print_at env line with
                       | None => true
                       | Some _ => false
                       end) [455; 466; 496; 497; 507; 509] &&
  match Exn.tmp_write env, Exn.final_write env,
        Exn.generate_wat_from_c_analysis env code with
  | None, None, inr _ => true
  | _, _, _ => false
  end.

(** Every exception of the surroundings is an instance of [Exception]. *)
Definition only_exceptions (env : Exn.Env) : bool :=
  forallb (fun o => match o with
                    | Some e => Exn.is_exception e
                    | None => true
                    end)
          [ match Exn.tmpdir_new env with inl e => Some e | inr _ => None end;
            Exn.tmp_open env; option_map fst (Exn.tmp_write env);
            Exn.makedirs env; Exn.final_open env;
            option_map fst (Exn.final_write env); Exn.tmp_cleanup env ].

(** A conversion inside [code] either gives the number of the first model
    or raises the [ValueError] of a digit run of [code] that is too
    long. *)
Definition returns_or_value_error {A : Type} (r : Exn.exc + A) (a : A)
           (code : text) : Prop :=
  r = inr a \/
  exists digits,
    Exn.max_str_digits < digits <= length code /\
    r = inl (Exn.value_error digits).

(** * Properties *)

(** ** Texts and matching *)

Lemma text_eqb_eq (a b : text) : text_eqb a b = true -> a = b.
Proof.
  unfold text_eqb.
  destruct (list_eq_dec ascii_dec a b); [trivial | discriminate].
Qed.

Lemma starts_with_app (p s : text) : Py.starts_with p (p ++ s) = true.
Proof.
  induction p as [| c p IH]; [reflexivity |].
  cbn [app Py.starts_with]. now rewrite Ascii.eqb_refl, IH.
Qed.

Lemma contains_here (sub s : text) :
  Py.starts_with sub s = true -> Py.contains sub s = true.
Proof. intro H. destruct s; cbn [Py.contains]; now rewrite H. Qed.

Lemma contains_middle (sub pre post : text) :
  Py.contains sub (pre ++ sub ++ post) = true.
Proof.
  induction pre as [| c pre IH].
  - cbn [app]. apply contains_here. apply starts_with_app.
  - cbn [app Py.contains]. rewrite IH. apply orb_true_r.
Qed.

Lemma contains_cons_false (sub : text) (c : ascii) (s : text) :
  Py.contains sub (c :: s) = false ->
  Py.starts_with sub (c :: s) = false /\ Py.contains sub s = false.
Proof. cbn [Py.contains]. intro H. now apply orb_false_elim in H. Qed.

Lemma lower_app (a b : text) : Py.lower (a ++ b) = Py.lower a ++ Py.lower b.
Proof. apply map_app. Qed.


(** A substitution leaves alone a text whose matches already read as
    their replacements. *)
Lemma sub_from_fixed (re : regex) (tpl : list piece) (s : text) :
  forall prev skip,
    fixed_from re tpl prev s skip = true ->
    sub_from re tpl prev s skip = skipn skip s.
Proof.
  induction s as [| c s IH]; intros prev skip H; simpl in *.
  - destruct skip; [| reflexivity].
    destruct (match_here re prev []); [| reflexivity].
    now apply text_eqb_eq in H.
  - destruct skip as [| k]; [| now apply IH].
    destruct (match_here re prev (c :: s)) as [r |].
    + destruct (m_len r) as [| k]; [discriminate |].
      apply andb_prop in H as [Heq Hrest].
      apply text_eqb_eq in Heq. rewrite Heq, (IH _ _ Hrest).
      simpl. f_equal. apply firstn_skipn.
    + simpl. f_equal. now apply IH.
Qed.

Lemma sub_fixed (re : regex) (tpl : list piece) (s : text) :
  fixed_by re tpl s = true -> Re.sub re tpl s = s.
Proof. unfold fixed_by, Re.sub. intro H. now rewrite sub_from_fixed. Qed.

(** A text without any match is fixed, whatever the replacement. *)
Lemma search_none_fixed (re : regex) (tpl : list piece) (s : text) :
  forall prev,
    search_from re prev s = None -> fixed_from re tpl prev s 0 = true.
Proof.
  induction s as [| c s IH]; intros prev H; simpl in *.
  - destruct (match_here re prev []); [discriminate | reflexivity].
  - destruct (match_here re prev (c :: s)); [discriminate |].
    apply IH.
    destruct (search_from re (Some c) s) as [[[i n] g] |];
      [discriminate | reflexivity].
Qed.

(** ** The normalizer *)

Section ChangeLog.

Variable st : norm_state.

Lemma log_add_stdint : exists l, snd (add_stdint_include st) = snd st ++ l.
Proof.
  destruct st as [code changes]. unfold add_stdint_include.
  destruct (_ && _); [| exists []; now rewrite app_nil_r].
  destruct (negb _); [| exists []; now rewrite app_nil_r].
  now exists [msg_stdint].
Qed.

Lemma log_narrow_types : snd (narrow_types st) = snd st ++ [msg_types].
Proof. now destruct st. Qed.

Lemma log_remove_printf : exists l, snd (remove_printf st) = snd st ++ l.
Proof.
  destruct st as [code changes]. unfold remove_printf.
  destruct (Py.contains _ _);
    [now exists [msg_printf] | exists []; now rewrite app_nil_r].
Qed.

Lemma log_remove_scanf : exists l, snd (remove_scanf st) = snd st ++ l.
Proof.
  destruct st as [code changes]. unfold remove_scanf.
  destruct (Py.contains _ _);
    [now exists [msg_scanf] | exists []; now rewrite app_nil_r].
Qed.

Lemma log_fix_main : exists l, snd (fix_main st) = snd st ++ l.
Proof.
  destruct st as [code changes]. unfold fix_main.
  destruct (Re.search _ _);
    [now exists [msg_main] | exists []; now rewrite app_nil_r].
Qed.

Lemma log_convert_malloc : exists l, snd (convert_malloc st) = snd st ++ l.
Proof.
  destruct st as [code changes]. unfold convert_malloc.
  destruct (Py.contains _ _);
    [now exists [msg_malloc] | exists []; now rewrite app_nil_r].
Qed.

End ChangeLog.

Lemma transform_logs_types (code : text) :
  In msg_types (snd (transform_for_zkengine code)).
Proof.
  unfold transform_for_zkengine.
  destruct (log_convert_malloc (fix_main (remove_scanf (remove_printf
             (narrow_types (add_stdint_include (code, []))))))) as [l4 ->].
  destruct (log_fix_main (remove_scanf (remove_printf
             (narrow_types (add_stdint_include (code, [])))))) as [l3 ->].
  destruct (log_remove_scanf (remove_printf
             (narrow_types (add_stdint_include (code, []))))) as [l2 ->].
  destruct (log_remove_printf
             (narrow_types (add_stdint_include (code, [])))) as [l1 ->].
  rewrite log_narrow_types, !in_app_iff. simpl. tauto.
Qed.

Section Settled.

Variables (t : text) (l : list text).

Lemma add_stdint_settled :
  negb (negb (Py.contains (str "int32_t") t) &&
        (Py.contains (str "int ") t || Py.contains (str "float ") t) &&
        negb (Py.contains (str "#include <stdint.h>") t)) = true ->
  add_stdint_include (t, l) = (t, l).
Proof.
  intro H. unfold add_stdint_include.
  destruct (negb (Py.contains (str "int32_t") t) &&
            (Py.contains (str "int ") t || Py.contains (str "float ") t));
    [| reflexivity].
  destruct (Py.contains (str "#include <stdint.h>") t); simpl in *;
    [reflexivity | discriminate].
Qed.

Lemma narrow_types_settled :
  fixed_by int_re [Keep (str "int32_t ")] t = true ->
  fixed_by float_re [Keep (str "int32_t ")] t = true ->
  narrow_types (t, l) = (t, l ++ [msg_types]).
Proof.
  intros Hi Hf. unfold narrow_types.
  now rewrite (sub_fixed int_re), (sub_fixed float_re).
Qed.

Lemma remove_printf_settled :
  fixed_by printf_re [Keep (str "/* printf removed */;")] t = true ->
  remove_printf (t, l) =
  (t, l ++ (if Py.contains (str "printf") t then [msg_printf] else [])).
Proof.
  intro H. unfold remove_printf.
  destruct (Py.contains (str "printf") t);
    [now rewrite sub_fixed | now rewrite app_nil_r].
Qed.

Lemma remove_scanf_settled :
  fixed_by scanf_re [Keep (str "/* scanf removed */;")] t = true ->
  remove_scanf (t, l) =
  (t, l ++ (if Py.contains (str "scanf") t then [msg_scanf] else [])).
Proof.
  intro H. unfold remove_scanf.
  destruct (Py.contains (str "scanf") t);
    [now rewrite sub_fixed | now rewrite app_nil_r].
Qed.

Lemma fix_main_settled :
  fixed_by main_re [Keep (str "int32_t main()")] t = true ->
  fix_main (t, l) =
  (t, l ++ (match Re.search main_re t with
            | Some _ => [msg_main]
            | None => []
            end)).
Proof.
  intro H. unfold fix_main.
  destruct (Re.search main_re t);
    [now rewrite sub_fixed | now rewrite app_nil_r].
Qed.

Lemma convert_malloc_settled :
  negb (Py.contains (str "malloc") t) = true ->
  convert_malloc (t, l) = (t, l).
Proof.
  intro H. unfold convert_malloc.
  destruct (Py.contains (str "malloc") t); [discriminate | reflexivity].
Qed.

End Settled.

Lemma transform_settled (t : text) :
  settled t = true -> transform_for_zkengine t = (t, settled_log t).
Proof.
  unfold settled. intro H.
  apply andb_prop in H as [H Hmalloc].
  apply andb_prop in H as [H Hmain].
  apply andb_prop in H as [H Hscanf].
  apply andb_prop in H as [H Hprintf].
  apply andb_prop in H as [H Hfloat].
  apply andb_prop in H as [H Hint].
  unfold transform_for_zkengine.
  rewrite add_stdint_settled, narrow_types_settled, remove_printf_settled,
    remove_scanf_settled, fix_main_settled, convert_malloc_settled
    by assumption.
  unfold settled_log. now rewrite <- !app_assoc.
Qed.

(** C9. For every input text the change log returned by the normalizer
    contains the entry "Converted int/float to int32_t": it is appended
    without any test, so the log is never empty. *)
Theorem types_entry_always_logged (code : text) :
  In msg_types (snd (transform_for_zkengine code)) /\
  snd (transform_for_zkengine code) <> [].
Proof.
  pose proof (transform_logs_types code) as H. split; [exact H |].
  intro E. now rewrite E in H.
Qed.

(** C1, the claim as stated fails: on the normalized form of the sample
    program a second run returns the text unchanged but logs three
    entries again, each of them already logged by the first run. *)
Lemma renormalize_counterexample :
  let first := transform_for_zkengine sample_program in
  let second := transform_for_zkengine (fst first) in
  fst second = fst first /\
  snd second = [msg_types; msg_printf; msg_main] /\
  incl (snd second) (snd first) /\
  second <> (fst first, []).
Proof.
  vm_compute. repeat split; [| discriminate].
  intros x [<- | [<- | [<- | []]]]; simpl; tauto.
Qed.

(** C1 (amended). For every source text [s], with [t] the text that
    normalization returns for it: a second run on [t] logs the entry
    "Converted int/float to int32_t" again, so its change log is never
    empty; and when [t] is settled (no include to add, every match of a
    substitution pattern already reading as its replacement, no [malloc])
    the second run returns [t] unchanged, with the log made of that entry
    and of one entry for each of [printf], [scanf] and the [main]
    signature that [t] still mentions. *)
Theorem second_normalization (s : text) :
  let t := fst (transform_for_zkengine s) in
  In msg_types (snd (transform_for_zkengine t)) /\
  (settled t = true -> transform_for_zkengine t = (t, settled_log t)).
Proof.
  cbv zeta. split; [apply transform_logs_types | apply transform_settled].
Qed.

Lemma second_normalization_witness :
  let t := fst (transform_for_zkengine sample_program) in
  settled t = true /\ transform_for_zkengine t = (t, settled_log t).
Proof.
  cbv zeta. split.
  - vm_compute. reflexivity.
  - apply (proj2 (second_normalization sample_program)).
    vm_compute. reflexivity.
Defined.

(** A text that keeps mentioning [malloc] is not settled: each further
    run inserts one more buffer declaration after the opening brace of
    [main]. *)
Example renormalize_malloc_header :
  let t1 := fst (transform_for_zkengine sample_with_malloc_header) in
  let t2 := fst (transform_for_zkengine t1) in
  settled t1 = false /\ length t2 = length t1 + length stack_decl.
Proof. vm_compute. split; reflexivity. Qed.

(** ** The matcher *)

Lemma generate_renders_fingerprint (code : text) :
  generate_wat_from_c_analysis code = render (fingerprint_of code).
Proof.
  unfold generate_wat_from_c_analysis, fingerprint_of.
  destruct (detect_prime code); [reflexivity |].
  destruct (detect_collatz code); [reflexivity |].
  destruct (detect_digital_root code); [reflexivity |].
  destruct (detect_fibonacci code); [reflexivity |].
  destruct (detect_factorial code); [reflexivity |].
  destruct (detect_gcd code); reflexivity.
Qed.

Lemma detect_collatz_any_case (pre cue post : text) :
  Py.lower cue = str "collatz" -> detect_collatz (pre ++ cue ++ post) = true.
Proof.
  intro H. unfold detect_collatz.
  rewrite !lower_app, H. apply contains_middle.
Qed.

(** C2, the claim as stated fails for the digit-sum family: its two cues
    are looked up in the text as it is, so a change of letter case of the
    cue changes the detection (and with it the classification). *)
Lemma digit_sum_detection_counterexample :
  Py.lower (str "int DIGIT_SUM(int n)") = Py.lower (str "int digit_sum(int n)") /\
  detect_digital_root (str "int digit_sum(int n)") = true /\
  detect_digital_root (str "int DIGIT_SUM(int n)") = false /\
  detect_digital_root (str "int Digital_Root(int n)") = false /\
  fingerprint_of (str "int DIGIT_SUM(int n)") = Unrecognized /\
  ~ case_insensitive detect_digital_root.
Proof.
  repeat split; try (vm_compute; reflexivity).
  intro H.
  specialize (H (str "DIGIT_SUM") (str "digit_sum") eq_refl).
  vm_compute in H. discriminate.
Qed.

(** C2 (amended). Only the Collatz predicate is case-insensitive: it
    gives the same answer on two texts that differ in letter case only,
    and it holds of every text containing the cue in any mix of cases.
    The predicates of the five other families (primality, digit sum /
    digital root, Fibonacci, factorial, GCD) are case-sensitive. *)
Theorem detection_case_asymmetry :
  case_insensitive detect_collatz /\
  (forall pre cue post,
      Py.lower cue = str "collatz" ->
      detect_collatz (pre ++ cue ++ post) = true) /\
  ~ case_insensitive detect_prime /\
  ~ case_insensitive detect_digital_root /\
  ~ case_insensitive detect_fibonacci /\
  ~ case_insensitive detect_factorial /\
  ~ case_insensitive detect_gcd.
Proof.
  split; [| split; [exact detect_collatz_any_case |]].
  - intros t t' H. unfold detect_collatz. now rewrite H.
  - repeat split; intro H.
    + specialize (H (str "IS_PRIME") (str "is_prime") eq_refl).
      vm_compute in H. discriminate.
    + specialize (H (str "DIGITAL_ROOT") (str "digital_root") eq_refl).
      vm_compute in H. discriminate.
    + specialize (H (str "Fibonacci") (str "fibonacci") eq_refl).
      vm_compute in H. discriminate.
    + specialize (H (str "FACTORIAL") (str "factorial") eq_refl).
      vm_compute in H. discriminate.
    + specialize (H (str "GCD") (str "gcd") eq_refl).
      vm_compute in H. discriminate.
Qed.

Lemma detection_case_asymmetry_witness :
  Py.lower (str "CoLLaTz") = str "collatz" /\
  detect_collatz (str "int " ++ str "CoLLaTz" ++ str "(int n);") = true.
Proof.
  split.
  - vm_compute. reflexivity.
  - apply (proj1 (proj2 detection_case_asymmetry)).
    vm_compute. reflexivity.
Defined.

(** Once the call probe has failed, the remaining candidates are probed
    for an assignment only. *)
Lemma extract_value_after_call (code : text) (f : string) (d : N)
      (rest : list string) :
  probe (call_re f) code = None ->
  extract_value code rest (Some f) d =
  match first_assignment code rest with
  | Some v => v
  | None => d
  end.
Proof.
  intro Hcall. induction rest as [| var rest IH]; [reflexivity |].
  cbn [extract_value first_assignment].
  destruct (probe (assign_re var) code); [reflexivity |].
  now rewrite Hcall.
Qed.

(** C3, the claim as stated fails: the call probe is made right after the
    assignment probe of the first candidate name.  On the text below the
    assignment to the second candidate [n] is never looked at; the order
    of the specification would extract 5, the code extracts 99. *)
Lemma probe_order_counterexample :
  let code := str "int n = 5; return is_prime(99);" in
  detect_prime code = true /\
  probe (assign_re "n") code = Some 5%N /\
  extract_value_as_specified code ["number_to_check"; "n"; "num"]%string
                             "is_prime" 17 = 5%N /\
  prime_value code = 99%N /\
  fingerprint_of code = PrimalityCheck 99.
Proof. vm_compute. repeat split; reflexivity. Qed.

(** C3 (amended). Extraction tries the assignment probe of the first
    candidate name, then the call probe, then the assignment probes of
    the remaining candidate names in priority order; the first successful
    probe wins and the default is used only when every probe fails.  In
    particular a text whose probe for [number_to_check] finds 23 extracts
    23 whatever its calls are, as the text with [number_to_check = 23] and
    [is_prime(99)] does. *)
Theorem extract_value_probe_order (code : text) (var : string)
        (rest : list string) (f : string) (d : N) :
  extract_value code (var :: rest) (Some f) d =
  match probe (assign_re var) code with
  | Some v => v
  | None =>
      match probe (call_re f) code with
      | Some v => v
      | None =>
          match first_assignment code rest with
          | Some v => v
          | None => d
          end
      end
  end /\
  (probe (assign_re "number_to_check") code = Some 23%N ->
   prime_value code = 23%N) /\
  fingerprint_of (str "int number_to_check = 23; return is_prime(99);") =
  PrimalityCheck 23.
Proof.
  split; [| split].
  - cbn [extract_value].
    destruct (probe (assign_re var) code); [reflexivity |].
    destruct (probe (call_re f) code) eqn:Hcall; [reflexivity |].
    now apply extract_value_after_call.
  - intro H. unfold prime_value. cbn [extract_value]. now rewrite H.
  - vm_compute. reflexivity.
Qed.

Lemma extract_value_probe_order_witness :
  let code := str "number_to_check=23; n = 4; is_prime ( 99 )" in
  probe (assign_re "number_to_check") code = Some 23%N /\
  prime_value code = 23%N.
Proof.
  cbv zeta. split.
  - vm_compute. reflexivity.
  - apply (proj1 (proj2 (extract_value_probe_order
                           (str "number_to_check=23; n = 4; is_prime ( 99 )")
                           "number_to_check" [] "is_prime" 17%N))).
    vm_compute. reflexivity.
Defined.

(** C8. The families are tried in the order primality, Collatz, digital
    root, Fibonacci, factorial, GCD, and the first whose predicate holds
    is the classification; without any, the text is unrecognized.  In
    particular a text with a primality cue is classified as a primality
    check even when it has a Collatz cue as well.  The emitted module is
    the rendering of that classification. *)
Theorem matcher_priority_order (code : text) :
  generate_wat_from_c_analysis code = render (fingerprint_of code) /\
  (detect_prime code = true ->
   fingerprint_of code = PrimalityCheck (prime_value code)) /\
  (detect_prime code = false -> detect_collatz code = true ->
   fingerprint_of code = CollatzSteps (collatz_value code)) /\
  (detect_prime code = false -> detect_collatz code = false ->
   detect_digital_root code = true ->
   fingerprint_of code = DigitalRoot (digital_root_value code)) /\
  (detect_prime code = false -> detect_collatz code = false ->
   detect_digital_root code = false -> detect_fibonacci code = true ->
   fingerprint_of code = Fibonacci (fibonacci_value code)) /\
  (detect_prime code = false -> detect_collatz code = false ->
   detect_digital_root code = false -> detect_fibonacci code = false ->
   detect_factorial code = true ->
   fingerprint_of code = Factorial (factorial_value code)) /\
  (detect_prime code = false -> detect_collatz code = false ->
   detect_digital_root code = false -> detect_fibonacci code = false ->
   detect_factorial code = false -> detect_gcd code = true ->
   fingerprint_of code = GCD (gcd_a_value code) (gcd_b_value code)) /\
  (no_family_cue code = true -> fingerprint_of code = Unrecognized) /\
  (detect_prime code = true -> detect_collatz code = true ->
   exists n, fingerprint_of code = PrimalityCheck n).
Proof.
  split; [apply generate_renders_fingerprint |].
  unfold fingerprint_of, no_family_cue.
  repeat split; intros;
    repeat match goal with
           | H : _ = true |- _ => rewrite H in *
           | H : _ = false |- _ => rewrite H in *
           end;
    try reflexivity; try discriminate.
  - destruct (detect_prime code); [discriminate |].
    destruct (detect_collatz code); [discriminate |].
    destruct (detect_digital_root code); [discriminate |].
    destruct (detect_fibonacci code); [discriminate |].
    destruct (detect_factorial code); [discriminate |].
    destruct (detect_gcd code); [discriminate | reflexivity].
  - eexists. reflexivity.
Qed.

Lemma matcher_priority_order_witness :
  let code := str "int collatz(int n); int is_prime(int n); is_prime(7);" in
  detect_prime code = true /\ detect_collatz code = true /\
  exists n, fingerprint_of code = PrimalityCheck n.
Proof.
  cbv zeta. split; [vm_compute; reflexivity |].
  split; [vm_compute; reflexivity |].
  apply (proj2 (proj2 (proj2 (proj2 (proj2 (proj2 (proj2 (proj2
           (matcher_priority_order
              (str "int collatz(int n); int is_prime(int n); is_prime(7);")
        ))))))))); vm_compute; reflexivity.
Defined.

(** ** The Collatz module *)

Section Collatz.

Import Wasm.
Open Scope Z_scope.

Lemma i32_add_counter (s : Z) : 0 <= s <= 1000 -> i32_add s 1 = s + 1.
Proof.
  intro H. unfold i32_add, wrap. rewrite Z.mod_small; lia.
Qed.

(** On values whose successor fits 32 bits, a transition is the
    arithmetic one. *)
Lemma collatz_step_arith (m : Z) :
  0 <= m -> 3 * m + 1 < 2 ^ 31 ->
  collatz_step m = if Z.even m then m / 2 else 3 * m + 1.
Proof.
  intros H0 Hfit.
  unfold collatz_step, i32_rem_s, i32_div_s, i32_add, i32_mul, wrap.
  rewrite Z.rem_mod_nonneg, Z.quot_div_nonneg by lia.
  pose proof (Z.mod_pos_bound m 2) as Hb.
  pose proof (Z.div_mod m 2) as Hd.
  destruct (Z.even m) eqn:E.
  - apply Z.even_spec in E as [k Hk].
    replace (m mod 2) with 0 by lia. cbn [Z.eqb].
    rewrite Z.mod_small; lia.
  - rewrite <- Z.negb_odd in E. apply negb_false_iff in E.
    apply Z.odd_spec in E as [k Hk].
    replace (m mod 2) with 1 by lia. cbn [Z.eqb].
    rewrite (Z.mod_small (m * 3 + 2 ^ 31)) by lia.
    rewrite Z.mod_small; lia.
Qed.

Lemma trajectory_succ (n : Z) (k : nat) :
  trajectory n (S k) = trajectory (collatz_step n) k.
Proof. unfold trajectory. apply Nat.iter_succ_r. Qed.

Lemma reaches_one_at_start (n : Z) (k : nat) :
  n = 1 -> reaches_one_at n k -> k = 0%nat.
Proof.
  intros Hn [_ Hmin]. destruct k as [| k]; [reflexivity |].
  exfalso. apply (Hmin 0%nat); [lia | exact Hn].
Qed.

Lemma reaches_one_at_later (n : Z) (k : nat) :
  n <> 1 -> reaches_one_at n k ->
  exists k', k = S k' /\ reaches_one_at (collatz_step n) k'.
Proof.
  intros Hn [Hk Hmin]. destruct k as [| k]; [contradiction |].
  exists k. split; [reflexivity |]. split.
  - now rewrite <- trajectory_succ.
  - intros j Hj. rewrite <- trajectory_succ. apply Hmin. lia.
Qed.

(** The loop entered with [steps] transitions counted so far. *)
Lemma collatz_loop_spec (fuel : nat) :
  forall n steps,
    0 <= steps <= 1001 ->
    (Z.to_nat (1001 - steps) < fuel)%nat ->
    exists r,
      collatz_loop fuel n steps = Returned r /\
      steps <= r <= 1001 /\
      (forall k, Z.of_nat k <= 1001 - steps ->
                 reaches_one_at n k -> r = steps + Z.of_nat k) /\
      ((forall k, Z.of_nat k <= 1001 - steps -> trajectory n k <> 1) ->
       r = 1001).
Proof.
  induction fuel as [| fuel IH]; intros n steps Hs Hfuel; [lia |].
  cbn [collatz_loop]. destruct (n =? 1) eqn:En.
  - apply Z.eqb_eq in En. exists steps. repeat split; try lia.
    + intros k _ Hk. rewrite (reaches_one_at_start n k En Hk). lia.
    + intro Hnever. exfalso. apply (Hnever 0%nat); [lia | exact En].
  - apply Z.eqb_neq in En. destruct (steps >? 1000) eqn:Ec.
    + assert (steps = 1001) by lia. subst steps.
      exists 1001. repeat split; try lia.
    + assert (Hle : steps <= 1000) by lia.
      rewrite i32_add_counter by lia.
      destruct (IH (collatz_step n) (steps + 1))
        as [r [Hr [Hb [Hhit Hmiss]]]]; [lia | lia |].
      exists r. repeat split; try lia; [exact Hr | |].
      * intros k Hk Hreach.
        destruct (reaches_one_at_later n k En Hreach) as [k' [-> Hk']].
        rewrite (Hhit k'); [lia | lia | exact Hk'].
      * intro Hnever. apply Hmiss. intros k Hk.
        rewrite <- trajectory_succ. apply Hnever. lia.
Qed.

(** C4, the claim as stated fails: the test [steps > 1000] is made before
    each transition, so the transition number 1001 is still made and
    counted.  From 0, which never reaches 1, the module returns 1001. *)
Lemma collatz_cutoff_counterexample :
  collatz_main 1002 0 = Returned 1001 /\
  run_main 1002 (fingerprint_of (str "collatz(0)")) = Returned 1001 /\
  ~ (1001 <= 1000).
Proof.
  split; [vm_compute; reflexivity |].
  split; [vm_compute; reflexivity | lia].
Qed.

(** C4 (amended). For every starting value, 0 and the negative ones
    included, the loop of the Collatz module ends within 1002 iterations
    and returns a step count between 0 and 1001.  The count is the number
    of transitions after which the value first reaches 1 when that number
    is at most 1001, and 1001 otherwise; on values whose successor fits 32
    bits a transition is n/2 for an even n and 3n+1 for an odd n. *)
Theorem collatz_terminates_and_counts (n : Z) (fuel : nat) :
  (1002 <= fuel)%nat ->
  exists r,
    collatz_loop fuel n 0 = Returned r /\
    0 <= r <= 1001 /\
    (forall k, (k <= 1001)%nat -> reaches_one_at n k -> r = Z.of_nat k) /\
    ((forall k, (k <= 1001)%nat -> trajectory n k <> 1) -> r = 1001) /\
    (forall m, 0 <= m -> 3 * m + 1 < 2 ^ 31 ->
               collatz_step m = if Z.even m then m / 2 else 3 * m + 1).
Proof.
  intro Hfuel.
  destruct (collatz_loop_spec fuel n 0) as [r [Hr [Hb [Hhit Hmiss]]]];
    [lia | lia |].
  exists r. split; [exact Hr |]. split; [exact Hb |].
  split; [| split].
  - intros k Hk Hreach. rewrite (Hhit k); [lia | lia | exact Hreach].
  - intro Hnever. apply Hmiss. intros k Hk. apply Hnever. lia.
  - exact collatz_step_arith.
Qed.

Lemma collatz_terminates_and_counts_witness :
  (1002 <= 1500)%nat /\
  exists r,
    collatz_loop 1500 6 0 = Returned r /\
    0 <= r <= 1001 /\
    (forall k, (k <= 1001)%nat -> reaches_one_at 6 k -> r = Z.of_nat k) /\
    ((forall k, (k <= 1001)%nat -> trajectory 6 k <> 1) -> r = 1001) /\
    (forall m, 0 <= m -> 3 * m + 1 < 2 ^ 31 ->
               collatz_step m = if Z.even m then m / 2 else 3 * m + 1).
Proof.
  split; [lia |]. apply (collatz_terminates_and_counts 6 1500). lia.
Defined.

(** The scenarios of the specification: 17 is prime, 6 takes 8 steps,
    27 takes 111, and the GCD of 48 and the default 18 is 6. *)
Example scenario_prime_17 :
  run_main 100 (fingerprint_of (str "return is_prime(17);")) = Returned 1.
Proof. vm_compute. reflexivity. Qed.

Example scenario_collatz_6 :
  run_main 100 (fingerprint_of (str "COLLATZ; starting_number = 6")) =
  Returned 8.
Proof. vm_compute. reflexivity. Qed.

Example scenario_collatz_default :
  run_main 200 (fingerprint_of (str "collatz")) = Returned 111.
Proof. vm_compute. reflexivity. Qed.

Example scenario_gcd_default_b :
  run_main 100 (fingerprint_of (str "gcd; a = 48")) = Returned 6.
Proof. vm_compute. reflexivity. Qed.

End Collatz.

(** ** The orchestrator *)

Lemma compile_to_wasm_returns (env : Env) (code filename : text)
      (fs : files) :
  fst (compile_to_wasm env code filename fs) =
  inr (match failure_of env with
       | Some e => failed e
       | None => succeeded env code filename
       end).
Proof.
  unfold compile_to_wasm, failure_of, try_except, with_tempdir, bind,
    open_write, os_makedirs, raise, ret, succeeded, failed.
  destruct env as [u h td tw mk fw tc];
    cbn [tmpdir_new tmp_write makedirs final_write tmp_cleanup].
  destruct td as [e | d]; [reflexivity |].
  destruct tw as [e |]; [destruct tc; reflexivity |].
  destruct mk as [e |]; [destruct tc; reflexivity |].
  destruct fw as [e |]; destruct tc; reflexivity.
Qed.








(** ** The exceptions of the interpreter *)

Lemma int_cases (ds : text) :
  (length ds <= Exn.max_str_digits /\ Exn.int ds = inr (Py.int ds)) \/
  (Exn.max_str_digits < length ds /\
   Exn.int ds = inl (Exn.value_error (length ds))).
Proof.
  unfold Exn.int.
  destruct (Nat.ltb Exn.max_str_digits (length ds)) eqn:E.
  - right. apply Nat.ltb_lt in E. now split.
  - left. apply Nat.ltb_ge in E. now split.
Qed.

Lemma group1_length (r : found) (s : text) : length (group1 r s) <= length s.
Proof.
  unfold group1. destruct (g_start r) as [a |]; [| cbn; lia].
  destruct (g_end r) as [b |]; [| cbn; lia].
  rewrite length_firstn, length_skipn. lia.
Qed.

Lemma search_from_group_length (re : regex) (s : text) :
  forall prev i n g,
    search_from re prev s = Some (i, n, g) -> length g <= length s.
Proof.
  induction s as [| c s IH]; intros prev i n g; cbn [search_from].
  - destruct (match_here re prev []) as [r |]; [| discriminate].
    intro H. injection H as _ _ <-. apply group1_length.
  - destruct (match_here re prev (c :: s)) as [r |].
    + intro H. injection H as _ _ <-. apply group1_length.
    + destruct (search_from re (Some c) s) as [[[i' n'] g'] |] eqn:E;
        [| discriminate].
      intro H. injection H as _ _ <-.
      specialize (IH _ _ _ _ E). cbn [length]. lia.
Qed.

Lemma search_group_length (re : regex) (s : text) (i n : nat) (g : text) :
  Re.search re s = Some (i, n, g) -> length g <= length s.
Proof. apply search_from_group_length. Qed.

Lemma search_optional_group_length (pre body : regex) (s : text) :
  forall prev g,
    search_optional pre body prev s = Some g -> length g <= length s.
Proof.
  induction s as [| c s IH]; intros prev g; cbn [search_optional].
  - destruct (match match_here (pre ++ body) prev [] with
              | Some r => Some r
              | None => match_here body prev []
              end) as [r |]; [| discriminate].
    intro H. injection H as <-. apply group1_length.
  - destruct (match match_here (pre ++ body) prev (c :: s) with
              | Some r => Some r
              | None => match_here body prev (c :: s)
              end) as [r |].
    + intro H. injection H as <-. apply group1_length.
    + intro H. specialize (IH _ _ H). cbn [length]. lia.
Qed.

Lemma int_of_group (re : regex) (code : text) (i n : nat) (g : text) :
  Re.search re code = Some (i, n, g) ->
  returns_or_value_error (Exn.int g) (Py.int g) code.
Proof.
  intro H. apply search_group_length in H.
  destruct (int_cases g) as [[_ E] | [Hlong E]].
  - now left.
  - right. exists (length g). split; [lia | exact E].
Qed.

Lemma extract_value_cases (code : text) (var_names : list string)
      (func_name : option string) (default : N) :
  returns_or_value_error
    (Exn.extract_value code var_names func_name default)
    (extract_value code var_names func_name default) code.
Proof.
  induction var_names as [| var rest IH];
    cbn [Exn.extract_value extract_value]; [now left |].
  unfold probe.
  destruct (Re.search (assign_re var) code) as [[[i n] g] |] eqn:Ea.
  - exact (int_of_group _ _ _ _ _ Ea).
  - destruct func_name as [f |]; [| exact IH].
    destruct (Re.search (call_re f) code) as [[[i n] g] |] eqn:Ec.
    + exact (int_of_group _ _ _ _ _ Ec).
    + exact IH.
Qed.

Lemma then_render_cases (r : Exn.exc + N) (v : N) (template : N -> text)
      (code : text) :
  returns_or_value_error r v code ->
  returns_or_value_error (Exn.then_render r template) (template v) code.
Proof.
  intros [-> | [digits [Hd ->]]]; [now left |].
  right. now exists digits.
Qed.

Lemma generate_cases (env : Exn.Env) (code : text) :
  returns_or_value_error (Exn.generate_wat_from_c_analysis env code)
                         (generate_wat_from_c_analysis code) code \/
  (no_family_cue code = true /\
   exists e, Exn.print_at env 455 = Some e /\
             Exn.generate_wat_from_c_analysis env code = inl e).
Proof.
  unfold Exn.generate_wat_from_c_analysis, generate_wat_from_c_analysis,
    no_family_cue, prime_value, collatz_value, digital_root_value,
    fibonacci_value, factorial_value, gcd_a_value, gcd_b_value.
  destruct (detect_prime code);
    [left; apply then_render_cases, extract_value_cases |].
  destruct (detect_collatz code);
    [left; apply then_render_cases, extract_value_cases |].
  destruct (detect_digital_root code);
    [left; apply then_render_cases, extract_value_cases |].
  destruct (detect_fibonacci code);
    [left; apply then_render_cases, extract_value_cases |].
  destruct (detect_factorial code);
    [left; apply then_render_cases, extract_value_cases |].
  destruct (detect_gcd code).
  - left. cbv zeta. unfold probe.
    assert (Ha : returns_or_value_error
                   (match Re.search gcd_a_re code with
                    | Some (_, _, g) => Exn.int g
                    | None => inr 48%N
                    end)
                   (match match Re.search gcd_a_re code with
                          | Some (_, _, g) => Some (Py.int g)
                          | None => None
                          end with
                    | Some a => a
                    | None => 48%N
                    end) code).
    { destruct (Re.search gcd_a_re code) as [[[i n] g] |] eqn:E;
        [exact (int_of_group _ _ _ _ _ E) | now left]. }
    assert (Hb : returns_or_value_error
                   (match Re.search gcd_b_re code with
                    | Some (_, _, g) => Exn.int g
                    | None => inr 18%N
                    end)
                   (match match Re.search gcd_b_re code with
                          | Some (_, _, g) => Some (Py.int g)
                          | None => None
                          end with
                    | Some b => b
                    | None => 18%N
                    end) code).
    { destruct (Re.search gcd_b_re code) as [[[i n] g] |] eqn:E;
        [exact (int_of_group _ _ _ _ _ E) | now left]. }
    destruct Ha as [-> | [digits [Hd ->]]]; [| right; now exists digits].
    destruct Hb as [-> | [digits [Hd ->]]]; [now left |].
    right. now exists digits.
  - destruct (Exn.print_at env 455) as [e |].
    + right. split; [reflexivity |]. now exists e.
    + left. now left.
Qed.

Lemma value_error_is_exception (digits : nat) :
  Exn.is_exception (Exn.value_error digits) = true.
Proof. reflexivity. Qed.

(** Whenever generation returns, it returns the text of the first model;
    and it returns on every text of at most 4300 characters when line 455
    prints. *)
Lemma generate_agrees (env : Exn.Env) (code wat : text) :
  Exn.generate_wat_from_c_analysis env code = inr wat ->
  wat = generate_wat_from_c_analysis code.
Proof.
  intro H.
  destruct (generate_cases env code)
    as [[E | [digits [_ E]]] | [_ [e [_ E]]]]; rewrite E in H;
    [now injection H as <- | discriminate | discriminate].
Qed.

Lemma generate_short (env : Exn.Env) (code : text) :
  length code <= Exn.max_str_digits ->
  Exn.print_at env 455 = None ->
  Exn.generate_wat_from_c_analysis env code =
  inr (generate_wat_from_c_analysis code).
Proof.
  intros Hlen Hprint.
  destruct (generate_cases env code)
    as [[E | [digits [Hd _]]] | [_ [e [Hp _]]]];
    [exact E | lia | rewrite Hprint in Hp; discriminate].
Qed.

Lemma try_block_returns (env : Exn.Env) (code filename : text) (fs : files) :
  fst (Exn.try_block env code filename fs) =
  match Exn.raised_in_try env code,
        Exn.generate_wat_from_c_analysis env code with
  | Some e, _ => inl e
  | None, inr wat => inr (Exn.succeeded env wat filename)
  | None, inl e => inl e
  end.
Proof.
  unfold Exn.try_block, Exn.raised_in_try, Exn.with_tempdir, Exn.bind,
    Exn.print, Exn.lift, Exn.open_write, Exn.os_makedirs, Exn.raise,
    Exn.ret, Exn.succeeded.
  destruct (Exn.print_at env 466) as [e |]; [reflexivity |].
  destruct (Exn.generate_wat_from_c_analysis env code) as [e | wat];
    [reflexivity |].
  destruct (Exn.tmpdir_new env) as [e | d]; [reflexivity |].
  destruct (Exn.tmp_open env) as [e |];
    [destruct (Exn.tmp_cleanup env); reflexivity |].
  destruct (Exn.tmp_write env) as [[e k] |];
    [destruct (Exn.tmp_cleanup env); reflexivity |].
  destruct (Exn.makedirs env) as [e |];
    [destruct (Exn.tmp_cleanup env); reflexivity |].
  destruct (Exn.final_open env) as [e |];
    [destruct (Exn.tmp_cleanup env); reflexivity |].
  destruct (Exn.final_write env) as [[e k] |];
    [destruct (Exn.tmp_cleanup env); reflexivity |].
  destruct (Exn.print_at env 496) as [e |];
    [destruct (Exn.tmp_cleanup env); reflexivity |].
  destruct (Exn.print_at env 497) as [e |];
    destruct (Exn.tmp_cleanup env); reflexivity.
Qed.

Lemma try_block_raises (env : Exn.Env) (code filename : text) (fs : files)
      (e : Exn.exc) :
  Exn.raised_in_try env code = Some e ->
  fst (Exn.try_block env code filename fs) = inl e.
Proof. intro H. now rewrite try_block_returns, H. Qed.

Lemma try_block_succeeds (env : Exn.Env) (code filename : text) (fs : files) :
  Exn.raised_in_try env code = None ->
  fst (Exn.try_block env code filename fs) =
  inr (Exn.succeeded env (generate_wat_from_c_analysis code) filename).
Proof.
  intro H. rewrite try_block_returns, H.
  destruct (Exn.generate_wat_from_c_analysis env code) as [e | wat] eqn:E.
  - unfold Exn.raised_in_try in H. rewrite E in H.
    destruct (Exn.print_at env 466); discriminate.
  - now rewrite (generate_agrees _ _ _ E).
Qed.

(** The result of [compile_to_wasm], by what leaves its [try] block and
    what its handler raises. *)
Lemma compile_to_wasm_cases (env : Exn.Env) (code filename : text)
      (fs : files) :
  fst (Exn.compile_to_wasm env code filename fs) =
  match Exn.raised_in_try env code with
  | None =>
      inr (Exn.succeeded env (generate_wat_from_c_analysis code) filename)
  | Some e =>
      if Exn.is_exception e then
        match Exn.raised_in_handler env with
        | Some e' => inl e'
        | None => inr (failed (Exn.text_of e))
        end
      else inl e
  end.
Proof.
  destruct (Exn.raised_in_try env code) as [e |] eqn:Er.
  - pose proof (try_block_raises env code filename fs e Er) as H.
    unfold Exn.compile_to_wasm, Exn.try_except.
    destruct (Exn.try_block env code filename fs) as [r fs'].
    cbn [fst] in H. subst r.
    destruct (Exn.is_exception e); [| reflexivity].
    unfold Exn.raised_in_handler, Exn.bind, Exn.print, Exn.raise, Exn.ret.
    destruct (Exn.print_at env 507); [reflexivity |].
    destruct (Exn.print_at env 509); reflexivity.
  - pose proof (try_block_succeeds env code filename fs Er) as H.
    unfold Exn.compile_to_wasm, Exn.try_except.
    destruct (Exn.try_block env code filename fs) as [r fs'].
    cbn [fst] in H. now subst r.
Qed.

(** The result of the endpoint. *)
Lemma compile_transformed_cases (env : Exn.Env) (request : CompileRequest)
      (fs : files) :
  fst (Exn.compile_transformed env request fs) =
  match Exn.raised_in_try env (code request) with
  | None =>
      inr {| success := true;
             wat_content :=
               Some (generate_wat_from_c_analysis (code request));
             wasm_file :=
               Some (wat_name (base_name_of (filename request))
                              (Exn.unique_id_of env));
             wasm_size :=
               Some (Py.utf8_len
                       (generate_wat_from_c_analysis (code request)));
             error := None |}
  | Some e =>
      if Exn.is_exception e then
        match Exn.raised_in_handler env with
        | Some e' =>
            if Exn.is_exception e' then inr (Exn.failure (Exn.text_of e'))
            else inl e'
        | None => inr (Exn.failure (Exn.text_of e))
        end
      else inl e
  end.
Proof.
  pose proof (compile_to_wasm_cases env (code request) (filename request) fs)
    as H.
  unfold Exn.compile_transformed, Exn.try_except, Exn.bind.
  destruct (Exn.compile_to_wasm env (code request) (filename request) fs)
    as [r fs'].
  cbn [fst] in H. subst r.
  destruct (Exn.raised_in_try env (code request)) as [e |]; [| reflexivity].
  destruct (Exn.is_exception e) eqn:Ee; cbv beta iota;
    [| now rewrite Ee].
  destruct (Exn.raised_in_handler env) as [e' |]; [| reflexivity].
  cbv beta iota. destruct (Exn.is_exception e'); reflexivity.
Qed.

(** C6, the claim as stated fails at both levels.  With the standard
    output closed, the first [print] of the [try] block raises, and then
    so does the [print] of the handler: [compile_to_wasm] passes that
    exception to its caller.  And an exception that is not an instance of
    [Exception], here a keyboard interrupt while the artifact file is
    opened, passes both handlers and leaves the endpoint. *)
Lemma compile_propagates_counterexample :
  let request := {| code := str "int main() { return is_prime(17); }";
                    filename := str "prog.c" |} in
  fst (Exn.compile_to_wasm Exn.closed_stdout_env (code request)
                           (filename request) []) =
  inl Exn.broken_pipe /\
  fst (Exn.compile_transformed Exn.interrupted_env request []) =
  inl Exn.keyboard_interrupt /\
  ~ (exists resp,
        fst (Exn.compile_transformed Exn.interrupted_env request []) =
        inr resp).
Proof.
  cbv zeta. split; [vm_compute; reflexivity |].
  assert (H : fst (Exn.compile_transformed Exn.interrupted_env
                     {| code := str "int main() { return is_prime(17); }";
                        filename := str "prog.c" |} []) =
              inl Exn.keyboard_interrupt) by (vm_compute; reflexivity).
  split; [exact H |].
  intros [resp Hr]. rewrite H in Hr. discriminate.
Qed.

(** C6 (amended). The endpoint never passes on an instance of
    [Exception].  Whatever leaves the [try] block of [compile_to_wasm] as
    such an instance, be it the [ValueError] of a number of more than 4300
    digits during generation, a failing [print] or a failing file-system
    step, is answered with the success flag false, an error text and no
    artifact field; the error text is the text of that exception when the
    handler prints, and otherwise the text of what its printing raised,
    which [compile_to_wasm] itself passes on and the endpoint converts.
    An exception that is not an instance of [Exception] is passed on by
    both.  When nothing is raised the response is the success response
    with the module text of the first model. *)
Theorem compile_converts_exceptions (env : Exn.Env)
        (request : CompileRequest) (fs : files) :
  let to_wasm :=
    fst (Exn.compile_to_wasm env (code request) (filename request) fs) in
  let response := fst (Exn.compile_transformed env request fs) in
  (forall e, response = inl e -> Exn.is_exception e = false) /\
  (forall resp, response = inr resp ->
     (success resp = true /\ error resp = None /\
      Exn.raised_in_try env (code request) = None /\
      wat_content resp = Some (generate_wat_from_c_analysis (code request)))
     \/
     (success resp = false /\ (exists msg, error resp = Some msg) /\
      wat_content resp = None /\ wasm_file resp = None /\
      wasm_size resp = None)) /\
  (forall e,
     Exn.raised_in_try env (code request) = Some e ->
     Exn.is_exception e = true ->
     match Exn.raised_in_handler env with
     | None =>
         to_wasm = inr (failed (Exn.text_of e)) /\
         response = inr (Exn.failure (Exn.text_of e))
     | Some e' =>
         to_wasm = inl e' /\
         (Exn.is_exception e' = true ->
          response = inr (Exn.failure (Exn.text_of e')))
     end) /\
  (forall e,
     Exn.raised_in_try env (code request) = Some e ->
     Exn.is_exception e = false ->
     to_wasm = inl e /\ response = inl e) /\
  (forall e,
     Exn.print_at env 466 = None ->
     Exn.generate_wat_from_c_analysis env (code request) = inl e ->
     Exn.raised_in_try env (code request) = Some e) /\
  (forall digits,
     Exn.generate_wat_from_c_analysis env (code request) =
     inl (Exn.value_error digits) ->
     Exn.print_at env 466 = None ->
     Exn.raised_in_handler env = None ->
     response = inr (Exn.failure (Exn.text_of (Exn.value_error digits)))).
Proof.
  cbv zeta.
  rewrite compile_transformed_cases, compile_to_wasm_cases.
  split; [| split; [| split; [| split; [| split]]]].
  - intros e0 H.
    destruct (Exn.raised_in_try env (code request)) as [e |];
      [| discriminate].
    destruct (Exn.is_exception e) eqn:Ee; [| now injection H as <-].
    destruct (Exn.raised_in_handler env) as [e' |]; [| discriminate].
    destruct (Exn.is_exception e') eqn:Ee'; [discriminate |].
    now injection H as <-.
  - intros resp H.
    destruct (Exn.raised_in_try env (code request)) as [e |].
    + right.
      destruct (Exn.is_exception e); [| discriminate].
      destruct (Exn.raised_in_handler env) as [e' |].
      * destruct (Exn.is_exception e'); [| discriminate].
        injection H as <-. cbn. repeat split. now eexists.
      * injection H as <-. cbn. repeat split. now eexists.
    + left. injection H as <-. cbn. now repeat split.
  - intros e He Hexc. rewrite He, Hexc.
    destruct (Exn.raised_in_handler env) as [e' |]; [| now split].
    split; [reflexivity |]. now intros ->.
  - intros e He Hexc. now rewrite He, Hexc.
  - intros e Hp Hg. unfold Exn.raised_in_try. now rewrite Hp, Hg.
  - intros digits Hg Hp Hh.
    assert (Hr : Exn.raised_in_try env (code request) =
                 Some (Exn.value_error digits)).
    { unfold Exn.raised_in_try. now rewrite Hp, Hg. }
    now rewrite Hr, value_error_is_exception, Hh.
Qed.

Lemma compile_converts_exceptions_witness :
  let request := {| code := Exn.long_number_program;
                    filename := str "prog.c" |} in
  Exn.raised_in_try Exn.quiet_env (code request) =
  Some (Exn.value_error 4301) /\
  fst (Exn.compile_to_wasm Exn.quiet_env (code request) (filename request)
                           []) =
  inr (failed (Exn.text_of (Exn.value_error 4301))) /\
  fst (Exn.compile_transformed Exn.quiet_env request []) =
  inr (Exn.failure (Exn.text_of (Exn.value_error 4301))).
Proof.
  cbv zeta.
  assert (H : Exn.raised_in_try Exn.quiet_env Exn.long_number_program =
              Some (Exn.value_error 4301)) by (vm_compute; reflexivity).
  split; [exact H |].
  exact (proj1 (proj2 (proj2
           (compile_converts_exceptions
              Exn.quiet_env
              {| code := Exn.long_number_program; filename := str "prog.c" |}
              [])))
           (Exn.value_error 4301) H eq_refl).
Defined.

(** A number of 4301 digits, as an instance: the first model bakes it in
    and the interpreter refuses it. *)
Example compile_reports_long_number :
  fst (Exn.compile_transformed Exn.quiet_env
         {| code := Exn.long_number_program; filename := str "prog.c" |} []) =
  inr (Exn.failure
         (str "Exceeds the limit (4300 digits) for integer string conversion: value has 4301 digits; use sys.set_int_max_str_digits() to increase the limit")).
Proof. vm_compute. reflexivity. Qed.

(** A quiet invocation leaves exactly the artifact, under the output
    directory, with the module text as its content. *)
Example compile_persists_artifact :
  let fs := snd (compile_to_wasm (quiet_env uuid_a) (str "factorial")
                                 (str "fact.c") []) in
  read_file
    (str "/home/agent/agentkit/zkengine/example_wasms/fact_3f2a9c1e.wat")
    fs = Some (factorial_wat 5) /\
  length fs = 1.
Proof. vm_compute. split; reflexivity. Qed.

(** A failing creation of the output directory, as an instance. *)
Example compile_reports_makedirs_failure :
  fst (compile_transformed (readonly_env uuid_a)
         {| code := str "fibonacci"; filename := str "fib.c" |} []) =
  inr {| success := false; wat_content := None; wasm_file := None;
         wasm_size := None;
         error := Some (str "[Errno 30] Read-only file system") |}.
Proof. vm_compute. reflexivity. Qed.





(** * Further properties *)

From Stdlib Require Import DecimalPos.

(** ** More on texts and matching *)


Lemma starts_with_elim (p s : text) :
  Py.starts_with p s = true -> exists rest, s = p ++ rest.
Proof.
  revert s. induction p as [| c p IH]; intros s H.
  - now exists s.
  - destruct s as [| d s]; [discriminate |].
    cbn [Py.starts_with] in H. apply andb_prop in H as [Hc Hp].
    apply Ascii.eqb_eq in Hc. subst d.
    destruct (IH s Hp) as [rest ->]. now exists rest.
Qed.

Lemma contains_cons (sub : text) (c : ascii) (s : text) :
  Py.contains sub s = true -> Py.contains sub (c :: s) = true.
Proof. intro H. cbn [Py.contains]. rewrite H. apply orb_true_r. Qed.

Lemma contains_skipn (sub : text) (k : nat) (s : text) :
  Py.contains sub (skipn k s) = true -> Py.contains sub s = true.
Proof.
  revert s. induction k as [| k IH]; intros s H; [exact H |].
  destruct s as [| c s]; [exact H |].
  apply contains_cons, IH, H.
Qed.

Lemma contains_app_r (sub a b : text) :
  Py.contains sub b = true -> Py.contains sub (a ++ b) = true.
Proof.
  intro H. induction a as [| c a IH]; [exact H |].
  cbn [app]. now apply contains_cons.
Qed.

Lemma contains_elim (sub s : text) :
  Py.contains sub s = true -> exists pre post, s = pre ++ sub ++ post.
Proof.
  induction s as [| c s IH]; cbn [Py.contains]; intro H.
  - rewrite orb_false_r in H. destruct (starts_with_elim _ _ H) as [rest ->].
    now exists [], rest.
  - apply orb_prop in H as [H | H].
    + destruct (starts_with_elim _ _ H) as [rest ->]. now exists [], rest.
    + destruct (IH H) as [pre [post ->]]. now exists (c :: pre), post.
Qed.

(** A text that contains [a ++ b ++ c] contains [b]. *)
Lemma contains_infix (a b c s : text) :
  Py.contains (a ++ b ++ c) s = true -> Py.contains b s = true.
Proof.
  intro H. destruct (contains_elim _ _ H) as [pre [post ->]].
  replace (pre ++ (a ++ b ++ c) ++ post) with ((pre ++ a) ++ b ++ (c ++ post))
    by (now rewrite <- !app_assoc).
  apply contains_middle.
Qed.

Lemma match_lit_prefix (w : text) :
  forall re prev s r,
    lit_prefix w re = true -> match_here re prev s = Some r ->
    Py.starts_with w s = true.
Proof.
  induction w as [| c w IH]; intros re prev s r Hl Hm; [reflexivity |].
  cbn [lit_prefix] in Hl.
  destruct re as [| [c' | | | | |] re']; try discriminate.
  apply andb_prop in Hl as [Hc Hl].
  cbn [match_here] in Hm.
  destruct s as [| d s]; [discriminate |].
  destruct (Ascii.eqb c' d) eqn:Ed; [| discriminate].
  apply Ascii.eqb_eq in Hc, Ed. subst c' d.
  destruct (match_here re' (Some c) s) as [r' |] eqn:Hr; [| discriminate].
  cbn [Py.starts_with]. rewrite Ascii.eqb_refl. cbn [andb].
  exact (IH _ _ _ _ Hl Hr).
Qed.

(** A match of a pattern holding the literal [w] lies in a text that
    contains [w]. *)
Lemma match_has_literal (w : text) (re : regex) :
  forall prev s r,
    has_literal w re = true -> match_here re prev s = Some r ->
    Py.contains w s = true.
Proof.
  induction re as [| a re IH]; intros prev s r Hl Hm.
  - cbn [has_literal] in Hl. rewrite orb_false_r in Hl.
    apply contains_here. exact (match_lit_prefix _ _ _ _ _ Hl Hm).
  - cbn [has_literal] in Hl. apply orb_prop in Hl as [Hl | Hl].
    + apply contains_here. exact (match_lit_prefix _ _ _ _ _ Hl Hm).
    + destruct a as [c | min cls | alts | | |]; cbn [match_here] in Hm.
      * destruct s as [| d s]; [discriminate |].
        destruct (Ascii.eqb c d); [| discriminate].
        destruct (match_here re (Some d) s) as [r' |] eqn:Hr; [| discriminate].
        apply contains_cons. exact (IH _ _ _ Hl Hr).
      * revert Hm. generalize (run_length cls s) as k.
        induction k as [| k IHk]; intro Hm.
        -- destruct (0 <? min); [discriminate |].
           destruct (match_here re (prev_after prev 0 s) (skipn 0 s))
             as [r' |] eqn:Hr; [| discriminate].
           exact (IH _ _ _ Hl Hr).
        -- destruct (S k <? min); [discriminate |].
           destruct (match_here re (prev_after prev (S k) s) (skipn (S k) s))
             as [r' |] eqn:Hr; [| exact (IHk Hm)].
           apply (contains_skipn _ (S k)). exact (IH _ _ _ Hl Hr).
      * revert Hm. induction alts as [| alt alts IHa]; intro Hm;
          [discriminate |].
        destruct (Py.starts_with alt s); [| exact (IHa Hm)].
        destruct (match_here re (prev_after prev (length alt) s)
                             (skipn (length alt) s)) as [r' |] eqn:Hr;
          [| exact (IHa Hm)].
        apply (contains_skipn _ (length alt)). exact (IH _ _ _ Hl Hr).
      * destruct (xorb _ _); [| discriminate]. exact (IH _ _ _ Hl Hm).
      * destruct (match_here re prev s) as [r' |] eqn:Hr; [| discriminate].
        exact (IH _ _ _ Hl Hr).
      * destruct (match_here re prev s) as [r' |] eqn:Hr; [| discriminate].
        exact (IH _ _ _ Hl Hr).
Qed.

Lemma search_without_literal (w : text) (re : regex) (s : text) :
  has_literal w re = true -> Py.contains w s = false ->
  forall prev, search_from re prev s = None.
Proof.
  intros Hl. induction s as [| c s IH]; intros Hc prev; cbn [search_from].
  - destruct (match_here re prev []) as [r |] eqn:Hm; [| reflexivity].
    now rewrite (match_has_literal _ _ _ _ _ Hl Hm) in Hc.
  - destruct (match_here re prev (c :: s)) as [r |] eqn:Hm.
    + now rewrite (match_has_literal _ _ _ _ _ Hl Hm) in Hc.
    + apply contains_cons_false in Hc as [_ Hc]. now rewrite IH.
Qed.

Lemma has_literal_app_r (w : text) (a b : regex) :
  has_literal w b = true -> has_literal w (a ++ b) = true.
Proof.
  intro H. induction a as [| x a IH]; [exact H |].
  cbn [app has_literal]. rewrite IH. apply orb_true_r.
Qed.

Lemma search_optional_without_literal (w : text) (pre body : regex)
      (s : text) :
  has_literal w body = true -> Py.contains w s = false ->
  forall prev, search_optional pre body prev s = None.
Proof.
  intros Hl. induction s as [| c s IH]; intros Hc prev;
    cbn [search_optional].
  - destruct (match_here (pre ++ body) prev []) as [r |] eqn:Hm.
    + now rewrite (match_has_literal _ _ _ _ _
                     (has_literal_app_r _ pre _ Hl) Hm) in Hc.
    + destruct (match_here body prev []) as [r |] eqn:Hb; [| reflexivity].
      now rewrite (match_has_literal _ _ _ _ _ Hl Hb) in Hc.
  - destruct (match_here (pre ++ body) prev (c :: s)) as [r |] eqn:Hm.
    + now rewrite (match_has_literal _ _ _ _ _
                     (has_literal_app_r _ pre _ Hl) Hm) in Hc.
    + destruct (match_here body prev (c :: s)) as [r |] eqn:Hb.
      * now rewrite (match_has_literal _ _ _ _ _ Hl Hb) in Hc.
      * apply contains_cons_false in Hc as [_ Hc]. now rewrite IH.
Qed.

(** A pattern that needs a digit finds nothing in a digit-free text. *)
Lemma digit_free_skipn (k : nat) (s : text) :
  digit_free s = true -> digit_free (skipn k s) = true.
Proof.
  revert s. induction k as [| k IH]; intros s H; [exact H |].
  destruct s as [| c s]; [exact H |].
  cbn [skipn]. apply IH. unfold digit_free in *. cbn [forallb] in H.
  now apply andb_prop in H as [_ H].
Qed.

Lemma match_needs_digit (r1 r2 : regex) :
  forall prev s,
    digit_free s = true ->
    match_here (r1 ++ Rep 1 is_digit :: r2) prev s = None.
Proof.
  induction r1 as [| a r1 IH]; intros prev s Hs.
  - cbn [app match_here].
    assert (Hrun : run_length is_digit s = 0).
    { destruct s as [| c s]; [reflexivity |].
      unfold digit_free in Hs. cbn [forallb] in Hs.
      apply andb_prop in Hs as [Hc _]. cbn [run_length].
      now destruct (is_digit c). }
    rewrite Hrun. reflexivity.
  - cbn [app]. destruct a as [c | min cls | alts | | |]; cbn [match_here].
    + destruct s as [| d s]; [reflexivity |].
      destruct (Ascii.eqb c d); [| reflexivity].
      rewrite IH; [reflexivity |]. exact (digit_free_skipn 1 _ Hs).
    + generalize (run_length cls s) as k.
      induction k as [| k IHk].
      * destruct (0 <? min); [reflexivity |].
        now rewrite IH by exact (digit_free_skipn 0 _ Hs).
      * destruct (S k <? min); [reflexivity |].
        now rewrite IH by exact (digit_free_skipn (S k) _ Hs).
    + induction alts as [| alt alts IHa]; [reflexivity |].
      destruct (Py.starts_with alt s); [| exact IHa].
      now rewrite IH by exact (digit_free_skipn _ _ Hs).
    + destruct (xorb _ _); [| reflexivity]. now apply IH.
    + now rewrite IH.
    + now rewrite IH.
Qed.

Lemma search_needs_digit (r1 r2 : regex) (s : text) :
  digit_free s = true ->
  forall prev, search_from (r1 ++ Rep 1 is_digit :: r2) prev s = None.
Proof.
  induction s as [| c s IH]; intros Hs prev; cbn [search_from];
    rewrite match_needs_digit by exact Hs; [reflexivity |].
  now rewrite IH by exact (digit_free_skipn 1 _ Hs).
Qed.

Lemma Forall_slices (P : ascii -> Prop) (n : nat) (s : text) :
  Forall P s -> Forall P (firstn n s) /\ Forall P (skipn n s).
Proof.
  intro H. rewrite <- (firstn_skipn n s) in H. now apply Forall_app in H.
Qed.

(** Substitutions only move characters of the text and of the template. *)
Lemma sub_from_chars (P : ascii -> Prop) (re : regex) (tpl : list piece) :
  (forall t, In (Keep t) tpl -> Forall P t) ->
  forall s prev skip, Forall P s -> Forall P (sub_from re tpl prev s skip).
Proof.
  intros Htpl.
  assert (Hex : forall g, Forall P g -> Forall P (expand tpl g)).
  { intros g Hg. unfold expand. apply Forall_flat_map.
    apply Forall_forall. intros [t |] Hin; [now apply Htpl | exact Hg]. }
  assert (Hgr : forall r s, Forall P s -> Forall P (group1 r s)).
  { intros r s Hs. unfold group1.
    destruct (g_start r), (g_end r); try constructor.
    apply Forall_slices, Forall_slices, Hs. }
  induction s as [| c s IH]; intros prev skip Hs; cbn [sub_from].
  - destruct skip; [| constructor].
    destruct (match_here re prev []); [| constructor].
    apply Hex, Hgr, Hs.
  - inversion Hs as [| ? ? Hc Hs']; subst.
    destruct skip as [| k]; [| now apply IH].
    destruct (match_here re prev (c :: s)) as [r |].
    + apply Forall_app. split; [apply Hex, Hgr, Hs |].
      destruct (m_len r); [constructor; [exact Hc |] |]; now apply IH.
    + constructor; [exact Hc | now apply IH].
Qed.

(** Removing the runs of one class is filtering its characters out. *)
Lemma sub_run_from (cls : ascii -> bool) (s : text) :
  forall prev skip,
    skip <= run_length cls s ->
    sub_from [Rep 1 cls] [] prev s skip = filter (fun x => negb (cls x)) s.
Proof.
  induction s as [| c s IH]; intros prev skip Hskip.
  - cbn [run_length] in Hskip. assert (skip = 0) as -> by lia. reflexivity.
  - cbn [run_length] in Hskip. cbn [sub_from filter].
    destruct skip as [| k].
    + cbn [match_here run_length]. destruct (cls c) eqn:Ec; cbn [negb].
      * cbn [Nat.ltb Nat.leb prev_after skipn match_here shift m_len
               Nat.add expand flat_map app].
        change (S (run_length cls s) <? 1) with false. cbn iota.
        cbn [shift m_len g_start g_end option_map group1 expand flat_map app].
        apply IH. lia.
      * cbn. f_equal. apply IH. lia.
    + destruct (cls c) eqn:Ec; [| lia]. cbn [negb]. apply IH. lia.
Qed.

Lemma sub_run (c : ascii) (s : text) :
  Re.sub (run_re c) [] s = filter (fun x => negb (Ascii.eqb c x)) s.
Proof. unfold Re.sub, run_re. apply sub_run_from. lia. Qed.

(** ** More on the normalizer *)

Section LogShape.

Variable st : norm_state.

Lemma shape_add_stdint :
  exists b : bool, snd (add_stdint_include st) =
            snd st ++ (if b then [msg_stdint] else []).
Proof.
  destruct st as [code changes]. unfold add_stdint_include.
  destruct (_ && _); [| exists false; now rewrite app_nil_r].
  destruct (negb _); [now exists true | exists false; now rewrite app_nil_r].
Qed.

Lemma shape_remove_printf :
  exists b : bool, snd (remove_printf st) =
            snd st ++ (if b then [msg_printf] else []).
Proof.
  destruct st as [code changes]. unfold remove_printf.
  destruct (Py.contains _ _);
    [now exists true | exists false; now rewrite app_nil_r].
Qed.

Lemma shape_remove_scanf :
  exists b : bool, snd (remove_scanf st) =
            snd st ++ (if b then [msg_scanf] else []).
Proof.
  destruct st as [code changes]. unfold remove_scanf.
  destruct (Py.contains _ _);
    [now exists true | exists false; now rewrite app_nil_r].
Qed.

Lemma shape_fix_main :
  exists b : bool, snd (fix_main st) = snd st ++ (if b then [msg_main] else []).
Proof.
  destruct st as [code changes]. unfold fix_main.
  destruct (Re.search _ _);
    [now exists true | exists false; now rewrite app_nil_r].
Qed.

Lemma shape_convert_malloc :
  exists b : bool, snd (convert_malloc st) =
            snd st ++ (if b then [msg_malloc] else []).
Proof.
  destruct st as [code changes]. unfold convert_malloc.
  destruct (Py.contains _ _);
    [now exists true | exists false; now rewrite app_nil_r].
Qed.

End LogShape.

Lemma log_of_nodup (b1 b2 b3 b4 b5 : bool) : NoDup (log_of b1 b2 b3 b4 b5).
Proof.
  destruct b1, b2, b3, b4, b5; cbn [log_of app];
    repeat (apply NoDup_cons;
            [cbn [In]; intro H;
             repeat (destruct H as [H | H]; [vm_compute in H; discriminate |]);
             exact H |]);
    apply NoDup_nil.
Qed.

Lemma log_of_length (b1 b2 b3 b4 b5 : bool) :
  1 <= length (log_of b1 b2 b3 b4 b5) <= 6.
Proof. destruct b1, b2, b3, b4, b5; cbn; lia. Qed.

(** X1. The change log of one run is made of the six entries in the order of
    the rules, each at most once, the entry of the type narrowing always:
    it has between one and six entries and no duplicate. *)
Theorem change_log_shape (code : text) :
  exists stdint printf scanf main malloc : bool,
    snd (transform_for_zkengine code) =
    log_of stdint printf scanf main malloc /\
    NoDup (snd (transform_for_zkengine code)) /\
    1 <= length (snd (transform_for_zkengine code)) <= 6.
Proof.
  unfold transform_for_zkengine.
  destruct (shape_convert_malloc (fix_main (remove_scanf (remove_printf
             (narrow_types (add_stdint_include (code, []))))))) as [b5 E5].
  destruct (shape_fix_main (remove_scanf (remove_printf
             (narrow_types (add_stdint_include (code, [])))))) as [b4 E4].
  destruct (shape_remove_scanf (remove_printf
             (narrow_types (add_stdint_include (code, []))))) as [b3 E3].
  destruct (shape_remove_printf
             (narrow_types (add_stdint_include (code, [])))) as [b2 E2].
  destruct (shape_add_stdint (code, [])) as [b1 E1].
  exists b1, b2, b3, b4, b5.
  assert (E : snd (convert_malloc (fix_main (remove_scanf (remove_printf
                (narrow_types (add_stdint_include (code, []))))))) =
              log_of b1 b2 b3 b4 b5).
  { rewrite E5, E4, E3, E2, log_narrow_types, E1. cbn [snd app].
    unfold log_of. now rewrite <- !app_assoc. }
  rewrite E. split; [reflexivity |].
  split; [apply log_of_nodup | apply log_of_length].
Qed.

Lemma fixed_without_literal (w : text) (re : regex) (tpl : list piece)
      (s : text) :
  has_literal w re = true -> Py.contains w s = false ->
  fixed_by re tpl s = true.
Proof.
  intros Hl Hc. apply search_none_fixed.
  now apply (search_without_literal w).
Qed.

Lemma not_contains_infix (a b c s : text) :
  Py.contains b s = false -> Py.contains (a ++ b ++ c) s = false.
Proof.
  intro H. destruct (Py.contains (a ++ b ++ c) s) eqn:E; [| reflexivity].
  now rewrite (contains_infix _ _ _ _ E) in H.
Qed.

(** X2. A text that mentions none of [int], [float], [scanf] and [malloc]
    comes back from the normalizer as it was, with the single entry of the
    type narrowing in the log. *)
Theorem normalize_passthrough (code : text) :
  Py.contains (str "int") code = false ->
  Py.contains (str "float") code = false ->
  Py.contains (str "scanf") code = false ->
  Py.contains (str "malloc") code = false ->
  transform_for_zkengine code = (code, [msg_types]).
Proof.
  intros Hint Hfloat Hscanf Hmalloc.
  assert (Hint_sp : Py.contains (str "int ") code = false)
    by exact (not_contains_infix [] (str "int") (str " ") code Hint).
  assert (Hfloat_sp : Py.contains (str "float ") code = false)
    by exact (not_contains_infix [] (str "float") (str " ") code Hfloat).
  assert (Hprintf : Py.contains (str "printf") code = false)
    by exact (not_contains_infix (str "pr") (str "int") (str "f") code Hint).
  assert (Hmain : Re.search main_re code = None)
    by (apply (search_without_literal (str "int")); [reflexivity | exact Hint]).
  assert (Hsettled : settled code = true).
  { unfold settled. rewrite Hint_sp, Hfloat_sp, Hmalloc.
    rewrite (fixed_without_literal (str "int") int_re),
      (fixed_without_literal (str "float") float_re),
      (fixed_without_literal (str "int") printf_re),
      (fixed_without_literal (str "scanf") scanf_re),
      (fixed_without_literal (str "int") main_re) by (reflexivity || assumption).
    now rewrite andb_false_r. }
  rewrite (transform_settled code Hsettled).
  unfold settled_log. now rewrite Hprintf, Hscanf, Hmain.
Qed.

Lemma normalize_passthrough_witness :
  let code := str "#define N 4
char buf[N]; long total(void) { return N; }" in
  Py.contains (str "int") code = false /\
  transform_for_zkengine code = (code, [msg_types]).
Proof.
  cbv zeta. split; [vm_compute; reflexivity |].
  apply normalize_passthrough; vm_compute; reflexivity.
Defined.

(** X3. The endpoint always answers with success, without an error and with a
    non-empty list of changes; with [auto_transform] off the code comes
    back untouched, and with it on the answer is that of the normalizer. *)
Theorem transform_code_response (request : TransformRequest) :
  ts_success (transform_code request) = true /\
  ts_error (transform_code request) = None /\
  ts_changes (transform_code request) <> [] /\
  (tr_auto_transform request = false ->
   ts_transformed_code (transform_code request) = tr_code request) /\
  (tr_auto_transform request = true ->
   (ts_transformed_code (transform_code request),
    ts_changes (transform_code request)) =
   transform_for_zkengine (tr_code request)).
Proof.
  unfold transform_code.
  pose proof (transform_logs_types (tr_code request)) as Hin.
  destruct (tr_auto_transform request).
  - destruct (transform_for_zkengine (tr_code request)) as [t l].
    cbn in *. repeat split; try discriminate.
    intro E. now rewrite E in Hin.
  - cbn. repeat split; discriminate.
Qed.

Lemma transform_code_response_witness :
  tr_auto_transform {| tr_code := sample_program;
                       tr_auto_transform := false |} = false /\
  ts_transformed_code
    (transform_code {| tr_code := sample_program;
                       tr_auto_transform := false |}) = sample_program.
Proof.
  split; [reflexivity |].
  apply (proj1 (proj2 (proj2 (proj2
           (transform_code_response
              {| tr_code := sample_program;
                 tr_auto_transform := false |}))))).
  reflexivity.
Defined.

(** ** More on the generator *)

Lemma assign_re_needs_digit (var : string) (s : text) :
  digit_free s = true -> probe (assign_re var) s = None.
Proof.
  intro H. unfold probe, Re.search, assign_re.
  replace (lit var ++
           [Rep 0 is_space; Chr "="; Rep 0 is_space; GOpen; Rep 1 is_digit;
            GClose]%char)
    with ((lit var ++ [Rep 0 is_space; Chr "="; Rep 0 is_space; GOpen]%char)
          ++ Rep 1 is_digit :: [GClose])
    by (now rewrite <- app_assoc).
  now rewrite search_needs_digit.
Qed.

Lemma call_re_needs_digit (f : string) (s : text) :
  digit_free s = true -> probe (call_re f) s = None.
Proof.
  intro H. unfold probe, Re.search, call_re.
  replace (lit f ++
           [Rep 0 is_space; Chr "("; Rep 0 is_space; GOpen; Rep 1 is_digit;
            GClose; Rep 0 is_space; Chr ")"]%char)
    with ((lit f ++ [Rep 0 is_space; Chr "("; Rep 0 is_space; GOpen]%char)
          ++ Rep 1 is_digit :: [GClose; Rep 0 is_space; Chr ")"]%char)
    by (now rewrite <- app_assoc).
  now rewrite search_needs_digit.
Qed.

Lemma operand_re_needs_digit (names : list string) (s : text) :
  digit_free s = true -> probe (operand_re names) s = None.
Proof.
  intro H. unfold probe, Re.search, operand_re.
  change ([Alt (map str names); Rep 0 is_space; Chr "="; Rep 0 is_space;
           GOpen; Rep 1 is_digit; GClose]%char)
    with ([Alt (map str names); Rep 0 is_space; Chr "="%char;
           Rep 0 is_space; GOpen] ++ Rep 1 is_digit :: [GClose]).
  now rewrite search_needs_digit.
Qed.

Lemma extract_value_digit_free (s : text) (vars : list string) (f : string)
      (d : N) :
  digit_free s = true -> extract_value s vars (Some f) d = d.
Proof.
  intro H. induction vars as [| var vars IH]; [reflexivity |].
  cbn [extract_value].
  now rewrite assign_re_needs_digit, call_re_needs_digit.
Qed.

(** X4. A text without any decimal digit gives every family its default:
    17, 27, 12345, 10, 5, and 48 with 18. *)
Theorem defaults_without_digits (code : text) :
  digit_free code = true ->
  prime_value code = 17%N /\ collatz_value code = 27%N /\
  digital_root_value code = 12345%N /\ fibonacci_value code = 10%N /\
  factorial_value code = 5%N /\
  gcd_a_value code = 48%N /\ gcd_b_value code = 18%N.
Proof.
  intro H.
  unfold prime_value, collatz_value, digital_root_value, fibonacci_value,
    factorial_value, gcd_a_value, gcd_b_value, gcd_a_re, gcd_b_re.
  rewrite !extract_value_digit_free, !operand_re_needs_digit by exact H.
  repeat split.
Qed.

Lemma defaults_without_digits_witness :
  let code := str "int gcd(int a, int b) { return b ? gcd(b, a % b) : a; }" in
  digit_free code = true /\
  fingerprint_of code = GCD 48 18.
Proof.
  cbv zeta. split; [vm_compute; reflexivity |].
  pose proof (defaults_without_digits
                (str "int gcd(int a, int b) { return b ? gcd(b, a % b) : a; }")
                eq_refl) as [_ [_ [_ [_ [_ [Ha Hb]]]]]].
  unfold fingerprint_of.
  change (detect_prime _) with false. change (detect_collatz _) with false.
  change (detect_digital_root _) with false.
  change (detect_fibonacci _) with false.
  change (detect_factorial _) with false. change (detect_gcd _) with true.
  cbv iota. now rewrite Ha, Hb.
Defined.

(** The decimal rendering of a number is made of digits. *)
Lemma uint_digits (u : Decimal.uint) :
  forallb is_digit (str (NilEmpty.string_of_uint u)) = true.
Proof. induction u; cbn [NilEmpty.string_of_uint str list_ascii_of_string forallb]; try reflexivity; exact IHu. Qed.

Lemma dec_digits (n : N) : forallb is_digit (Py.dec n) = true.
Proof. unfold Py.dec. apply uint_digits. Qed.

Lemma digit_is_ascii7 (c : ascii) : is_digit c = true -> is_ascii7 c = true.
Proof.
  unfold is_digit, is_ascii7. intro H. apply andb_prop in H as [_ H].
  apply Nat.leb_le in H. apply Nat.ltb_lt. lia.
Qed.

Lemma dec_ascii7 (n : N) : forallb is_ascii7 (Py.dec n) = true.
Proof.
  pose proof (dec_digits n) as H. rewrite forallb_forall in *.
  intros c Hc. apply digit_is_ascii7, H, Hc.
Qed.

Lemma utf8_len_ascii7 (s : text) :
  forallb is_ascii7 s = true -> Py.utf8_len s = Z.of_nat (length s).
Proof.
  unfold Py.utf8_len. induction s as [| c s IH]; intro H; [reflexivity |].
  cbn [forallb] in H. apply andb_prop in H as [Hc Hs].
  cbn [fold_right length]. rewrite (IH Hs).
  unfold is_ascii7 in Hc. rewrite Hc. lia.
Qed.

Ltac ascii7_template :=
  repeat (rewrite forallb_app || cbn [forallb]);
  rewrite ?dec_ascii7; vm_compute; reflexivity.

Lemma render_ascii7 (fp : fingerprint) : forallb is_ascii7 (render fp) = true.
Proof.
  destruct fp; cbn [render].
  - unfold prime_wat. ascii7_template.
  - unfold collatz_wat. ascii7_template.
  - unfold digital_root_wat. ascii7_template.
  - unfold fibonacci_wat. ascii7_template.
  - unfold factorial_wat. ascii7_template.
  - unfold gcd_wat. ascii7_template.
  - vm_compute. reflexivity.
Qed.

(** X5. Every emitted module is 7-bit text, whatever the source text holds, so
    the size a successful compile reports is the number of characters of
    the module text it returns. *)
Theorem wasm_size_is_text_length (env : Env) (code filename : text)
        (fs : files) (d : result) :
  fst (compile_to_wasm env code filename fs) = inr d ->
  res_success d = true ->
  forallb is_ascii7 (generate_wat_from_c_analysis code) = true /\
  res_wat_content d = Some (generate_wat_from_c_analysis code) /\
  res_wasm_size d =
  Some (Z.of_nat (length (generate_wat_from_c_analysis code))).
Proof.
  intros Hd Hok.
  assert (Ha : forallb is_ascii7 (generate_wat_from_c_analysis code) = true)
    by (rewrite generate_renders_fingerprint; apply render_ascii7).
  rewrite compile_to_wasm_returns in Hd. injection Hd as <-.
  destruct (failure_of env); [discriminate |].
  cbn [succeeded res_wat_content res_wasm_size].
  now rewrite utf8_len_ascii7.
Qed.

Lemma wasm_size_is_text_length_witness :
  exists d,
    fst (compile_to_wasm (quiet_env uuid_a) (str "caf" ++ ["233"%char])
                         (str "x.c") []) = inr d /\
    res_success d = true /\
    res_wasm_size d =
    Some (Z.of_nat (length (generate_wat_from_c_analysis
                              (str "caf" ++ ["233"%char])))).
Proof.
  eexists. split; [reflexivity |]. split; [reflexivity |].
  apply (wasm_size_is_text_length
           (quiet_env uuid_a) (str "caf" ++ ["233"%char]) (str "x.c") []);
    reflexivity.
Defined.

Lemma starts_with_app_l (p a b : text) :
  Py.starts_with p a = true -> Py.starts_with p (a ++ b) = true.
Proof.
  intro H. destruct (starts_with_elim _ _ H) as [rest ->].
  rewrite <- app_assoc. apply starts_with_app.
Qed.

Lemma contains_firstn (sub : text) (k : nat) (s : text) :
  Py.contains sub (firstn k s) = true -> Py.contains sub s = true.
Proof.
  intro H. destruct (contains_elim _ _ H) as [pre [post E]].
  rewrite <- (firstn_skipn k s), E, <- !app_assoc.
  apply contains_middle.
Qed.

Lemma ends_with_elim (p s : text) :
  ends_with p s = true -> exists front, s = front ++ p.
Proof.
  unfold ends_with. intro H.
  destruct (starts_with_elim _ _ H) as [rest E].
  exists (rev rest).
  rewrite <- (rev_involutive s), E, rev_app_distr, rev_involutive.
  reflexivity.
Qed.

(** [p ++ d ++ q] occurs where a text ending in [p] is followed by [d] and
    by a text starting with [q]. *)
Lemma contains_bridge (p d q a b : text) :
  ends_with p a = true -> Py.starts_with q b = true ->
  Py.contains (p ++ d ++ q) (a ++ d ++ b) = true.
Proof.
  intros Ha Hb.
  destruct (ends_with_elim _ _ Ha) as [front ->].
  destruct (starts_with_elim _ _ Hb) as [rest ->].
  replace ((front ++ p) ++ d ++ q ++ rest)
    with (front ++ (p ++ d ++ q) ++ rest) by (now rewrite <- !app_assoc).
  apply contains_middle.
Qed.

Ltac find_closed k :=
  first [ apply (contains_firstn _ k); vm_compute; reflexivity
        | apply contains_app_r; find_closed k
        | apply contains_cons; find_closed k ].

Ltac find_bridge :=
  first [ apply contains_bridge; vm_compute; reflexivity
        | apply contains_app_r; find_bridge
        | apply contains_cons; find_bridge ].

(** X6. Every emitted module opens with [(module], declares the exported
    entry point [main] with one 32-bit parameter and a 32-bit result, and
    sets its working locals to the extracted constants. *)
Theorem module_text_shape (code : text) :
  let wat := generate_wat_from_c_analysis code in
  Py.starts_with (str "(module") wat = true /\
  Py.contains export_line wat = true /\
  match fingerprint_of code with
  | PrimalityCheck n | CollatzSteps n | DigitalRoot n | Fibonacci n
  | Factorial n => Py.contains (set_local "n" n) wat = true
  | GCD a b =>
      Py.contains (set_local "a" a) wat = true /\
      Py.contains (set_local "b" b) wat = true
  | Unrecognized => wat = default_wat
  end.
Proof.
  cbv zeta. rewrite generate_renders_fingerprint.
  destruct (fingerprint_of code) as [n | n | n | n | n | a b |];
    cbn [render]; unfold set_local.
  - unfold prime_wat. split; [apply starts_with_app_l; reflexivity |].
    split; [find_closed 120 | find_bridge].
  - unfold collatz_wat. split; [apply starts_with_app_l; reflexivity |].
    split; [find_closed 120 | find_bridge].
  - unfold digital_root_wat. split; [apply starts_with_app_l; reflexivity |].
    split; [find_closed 120 | find_bridge].
  - unfold fibonacci_wat. split; [apply starts_with_app_l; reflexivity |].
    split; [find_closed 120 | find_bridge].
  - unfold factorial_wat. split; [apply starts_with_app_l; reflexivity |].
    split; [find_closed 120 | find_bridge].
  - unfold gcd_wat. split; [apply starts_with_app_l; reflexivity |].
    split; [find_closed 120 |]. split; find_bridge.
  - split; [reflexivity |]. split; [vm_compute |]; reflexivity.
Qed.

(** ** More on the orchestrator *)








(** X15. A filename whose base name starts with a slash is taken as an
    absolute path: the artifact path is the artifact name itself, whatever
    the output directory is. *)
Theorem absolute_filename_leaves_output_dir (env : Env) (filename : text) :
  Py.starts_with (str "/") (base_name_of filename) = true ->
  artifact_path env filename =
  wat_name (base_name_of filename) (unique_id_of env) /\
  forall tmp, path_join tmp (wat_name (base_name_of filename)
                                      (unique_id_of env)) =
              wat_name (base_name_of filename) (unique_id_of env).
Proof.
  intro H.
  assert (Hn : Py.starts_with (str "/")
                 (wat_name (base_name_of filename) (unique_id_of env)) = true)
    by (unfold wat_name; now apply starts_with_app_l).
  unfold artifact_path, path_join. rewrite Hn. split; [reflexivity |].
  intro tmp. reflexivity.
Qed.

Lemma absolute_filename_leaves_output_dir_witness :
  Py.starts_with (str "/") (base_name_of (str "/etc/cron.d/job.c")) = true /\
  artifact_path (quiet_env uuid_a) (str "/etc/cron.d/job.c") =
  str "/etc/cron.d/job_3f2a9c1e.wat".
Proof.
  split; [reflexivity |].
  rewrite (proj1 (absolute_filename_leaves_output_dir
                    (quiet_env uuid_a) (str "/etc/cron.d/job.c") eq_refl)).
  reflexivity.
Defined.

(** ** Proof requests *)

Lemma step_size_cases (function : text) (args : list text)
      (custom : option Z) :
  let s := fst (analyze_proof_complexity function args custom) in
  match custom with
  | Some c =>
      if (c =? 0)%Z then s = 50%Z
      else if (c <? 10)%Z then s = 50%Z
      else if (10000 <? c)%Z then s = 1000%Z
      else s = c
  | None => s = 50%Z
  end.
Proof.
  cbv zeta. unfold analyze_proof_complexity.
  destruct custom as [c |].
  - destruct (c =? 0)%Z; cbn [negb].
    + repeat match goal with
             | |- context [text_eqb ?a ?b] => destruct (text_eqb a b)
             end; reflexivity.
    + destruct (c <? 10)%Z; [reflexivity |].
      destruct (10000 <? c)%Z; reflexivity.
  - repeat match goal with
           | |- context [text_eqb ?a ?b] => destruct (text_eqb a b)
           end; reflexivity.
Qed.

Lemma step_size_bounds (function : text) (args : list text)
      (custom : option Z) :
  (10 <= fst (analyze_proof_complexity function args custom) <= 10000)%Z.
Proof.
  pose proof (step_size_cases function args custom) as H. cbv zeta in H.
  destruct custom as [c |]; [| lia].
  destruct (c =? 0)%Z; [lia |].
  destruct (c <? 10)%Z eqn:E1; [lia |].
  destruct (10000 <? c)%Z eqn:E2; lia.
Qed.

(** X16. The step size is always between 10 and 10000 and does not depend on
    the function or its arguments: it is the custom step size when that
    lies between 10 and 10000, 1000 when it is above 10000, and 50 when it
    is below 10, zero or absent. *)
Theorem step_size_range (function : text) (args : list text)
        (custom : option Z) :
  let s := fst (analyze_proof_complexity function args custom) in
  (10 <= s <= 10000)%Z /\
  (forall function' args',
      fst (analyze_proof_complexity function' args' custom) = s) /\
  match custom with
  | Some c =>
      if (c <? 10)%Z then s = 50%Z
      else if (10000 <? c)%Z then s = 1000%Z
      else s = c
  | None => s = 50%Z
  end.
Proof.
  cbv zeta. split; [apply step_size_bounds |].
  pose proof (step_size_cases function args custom) as H. cbv zeta in H.
  split.
  - intros function' args'.
    pose proof (step_size_cases function' args' custom) as H'.
    cbv zeta in H'.
    destruct custom as [c |]; [| lia].
    destruct (c =? 0)%Z; [lia |].
    destruct (c <? 10)%Z; [lia |].
    destruct (10000 <? c)%Z; lia.
  - destruct custom as [c |]; [| exact H].
    destruct (c =? 0)%Z eqn:E0; [| exact H].
    apply Z.eqb_eq in E0. subst c. exact H.
Qed.

(** X17. Analysing again with the step size of a first analysis as the custom
    step size, as the chat endpoint does (lines 727-731), gives the same
    step size. *)
Theorem step_size_stable (function function' : text) (args args' : list text)
        (custom : option Z) :
  fst (analyze_proof_complexity
         function' args'
         (Some (fst (analyze_proof_complexity function args custom)))) =
  fst (analyze_proof_complexity function args custom).
Proof.
  pose proof (step_size_bounds function args custom) as Hr.
  set (s := fst (analyze_proof_complexity function args custom)) in *.
  pose proof (step_size_cases function' args' (Some s)) as H.
  cbv beta iota zeta in H.
  destruct (s =? 0)%Z eqn:E0; [apply Z.eqb_eq in E0; lia |].
  destruct (s <? 10)%Z eqn:E1; [lia |].
  destruct (10000 <? s)%Z eqn:E2; [lia | exact H].
Qed.

Lemma lit_search_none (w : string) (p : list string) (s : text) :
  has_literal (str w) (words_re p) = true ->
  Py.contains (str w) s = false ->
  Re.search (words_re p) s = None.
Proof. intros Hl Hc. now apply (search_without_literal (str w)). Qed.

Ltac no_match_by word H :=
  rewrite (lit_search_none word) by (reflexivity || exact H).

Lemma first_step_size_without_step (s : text) :
  Py.contains (str "step") s = false ->
  first_step_size step_size_patterns s = None.
Proof.
  intro H. unfold step_size_patterns. cbn [first_step_size].
  rewrite !(search_optional_without_literal (str "step"))
    by (reflexivity || exact H).
  reflexivity.
Qed.

Lemma lazy_then_digits_digits (s : text) (g : text) :
  lazy_then_digits s = Some g -> forallb is_digit g = true /\ g <> [].
Proof.
  induction s as [| c s IH]; cbn [lazy_then_digits]; intro H;
    [discriminate |].
  destruct (is_digit c) eqn:Ec.
  - injection H as <-. cbn [run_length]. rewrite Ec. cbn [firstn forallb].
    rewrite Ec. split; [| discriminate]. cbn [andb].
    clear IH. induction s as [| d s IHs]; [reflexivity |].
    cbn [run_length]. destruct (is_digit d) eqn:Ed; [| reflexivity].
    cbn [firstn forallb]. now rewrite Ed.
  - destruct (Ascii.eqb c nl); [discriminate | now apply IH].
Qed.

Lemma search_device_digits (s : text) (g : text) :
  search_device s = Some g -> forallb is_digit g = true /\ g <> [].
Proof.
  induction s as [| c s IH]; cbn [search_device]; intro H.
  - destruct (Py.starts_with (str "device") []); [| discriminate].
    destruct (lazy_then_digits (skipn 6 [])) eqn:E; [| discriminate].
    injection H as <-. exact (lazy_then_digits_digits _ _ E).
  - destruct (Py.starts_with (str "device") (c :: s)).
    + destruct (lazy_then_digits (skipn 6 (c :: s))) eqn:E.
      * injection H as <-. exact (lazy_then_digits_digits _ _ E).
      * now apply IH.
    + now apply IH.
Qed.

Lemma dec_nonempty (n : N) : Py.dec n <> [].
Proof.
  unfold Py.dec. destruct n as [| p]; [discriminate |].
  unfold N.to_uint. pose proof (DecimalPos.Unsigned.to_uint_nonnil p) as H.
  destruct (Pos.to_uint p); try discriminate. contradiction.
Qed.

(** X19. Every proof intent is of one of three shapes: a location proof with
    step size 50, whose arguments are a city of the list and a device
    identifier that is a non-empty run of decimal digits; a KYC proof with
    the arguments 12345 and 1; an AI content proof with the arguments 42
    and 1.  Numbers of the message never become arguments of the last two,
    and the step size is always between 10 and 10000. *)
Theorem proof_intent_shape (randint : N) (message : text)
        (intent : proof_intent) :
  extract_proof_intent randint message = Some intent ->
  (10 <= pi_step_size intent <= 10000)%Z /\
  ((pi_function intent = str "prove_location" /\
    pi_step_size intent = 50%Z /\
    pi_location_based intent = Some true /\
    exists city device,
      pi_arguments intent = [city; device] /\
      In city (map str cities) /\
      Py.contains city (Py.lower message) = true /\
      forallb is_digit device = true /\ device <> []) \/
   (pi_function intent = str "prove_kyc" /\
    pi_arguments intent = [str "12345"; str "1"]) \/
   (pi_function intent = str "prove_ai_content" /\
    pi_arguments intent = [str "42"; str "1"])).
Proof.
  unfold extract_proof_intent. cbv zeta. intro H.
  destruct (Py.contains (str "location") (Py.lower message) &&
            match detect_city (Py.lower message) with
            | Some _ => true | None => false end) eqn:Eloc.
  - apply andb_prop in Eloc as [El Ec]. rewrite El in H.
    destruct (detect_city (Py.lower message)) as [city |] eqn:Ecity;
      [| discriminate].
    injection H as <-. cbn.
    split; [lia |]. left. repeat split.
    unfold detect_city in Ecity. apply find_some in Ecity as [Hin Hc].
    eexists city, _. split; [reflexivity |].
    split; [exact Hin |]. split; [exact Hc |].
    destruct (search_device (Py.lower message)) as [g |] eqn:Ed.
    + exact (search_device_digits _ _ Ed).
    + split; [apply dec_digits | apply dec_nonempty].
  - assert (Hnone :
              (if Py.contains (str "location") (Py.lower message)
               then match detect_city (Py.lower message) with
                    | Some detected_city =>
                        Some {| pi_function := str "prove_location";
                                pi_arguments :=
                                  [detected_city;
                                   match search_device (Py.lower message) with
                                   | Some g => g
                                   | None => Py.dec randint
                                   end];
                                pi_step_size := 50%Z;
                                pi_location_based := Some true;
                                pi_custom_step_size := None |}
                    | None => None
                    end
               else None) = None).
    { destruct (Py.contains (str "location") (Py.lower message));
        [| reflexivity].
      destruct (detect_city (Py.lower message)); [discriminate | reflexivity]. }
    rewrite Hnone in H. clear Hnone.
    destruct (matches_any kyc_patterns (Py.lower message)).
    + injection H as <-. cbn [pi_step_size pi_function pi_arguments].
      split; [apply step_size_bounds |]. right. left. now split.
    + destruct (matches_any ai_content_patterns (Py.lower message));
        [| discriminate].
      injection H as <-. cbn [pi_step_size pi_function pi_arguments].
      split; [apply step_size_bounds |]. right. right. now split.
Qed.

Lemma proof_intent_shape_witness :
  exists intent,
    extract_proof_intent 4242
      (str "Prove KYC compliance for wallet 999 with step size 20000") =
    Some intent /\
    pi_arguments intent = [str "12345"; str "1"] /\
    pi_step_size intent = 1000%Z /\
    (10 <= pi_step_size intent <= 10000)%Z.
Proof.
  eexists. split; [vm_compute; reflexivity |].
  split; [reflexivity |]. split; [reflexivity |].
  apply (proof_intent_shape 4242
           (str "Prove KYC compliance for wallet 999 with step size 20000")).
  vm_compute. reflexivity.
Defined.

(** X20. A message that does not contain the word step, in any letter case,
    never yields a custom step size: every intent has the step size 50. *)
Theorem no_step_word_default_step (randint : N) (message : text)
        (intent : proof_intent) :
  Py.contains (str "step") (Py.lower message) = false ->
  extract_proof_intent randint message = Some intent ->
  pi_step_size intent = 50%Z /\ pi_custom_step_size intent <> Some true.
Proof.
  intros Hstep. unfold extract_proof_intent. cbv zeta.
  rewrite (first_step_size_without_step _ Hstep). cbn [option_map].
  intro H.
  destruct (Py.contains (str "location") (Py.lower message)).
  - destruct (detect_city (Py.lower message)).
    + injection H as <-. cbn. split; [reflexivity | discriminate].
    + destruct (matches_any kyc_patterns (Py.lower message)).
      * injection H as <-. cbn. split; [reflexivity | discriminate].
      * destruct (matches_any ai_content_patterns (Py.lower message));
          [| discriminate].
        injection H as <-. cbn. split; [reflexivity | discriminate].
  - destruct (matches_any kyc_patterns (Py.lower message)).
    + injection H as <-. cbn. split; [reflexivity | discriminate].
    + destruct (matches_any ai_content_patterns (Py.lower message));
        [| discriminate].
      injection H as <-. cbn. split; [reflexivity | discriminate].
Qed.

Lemma no_step_word_default_step_witness :
  exists intent,
    Py.contains (str "step") (Py.lower (str "KYC proof, size 500 please"))
    = false /\
    extract_proof_intent 4242 (str "KYC proof, size 500 please") =
    Some intent /\
    pi_step_size intent = 50%Z.
Proof.
  eexists. split; [vm_compute; reflexivity |].
  split; [vm_compute; reflexivity |].
  apply (no_step_word_default_step 4242 (str "KYC proof, size 500 please"));
    vm_compute; reflexivity.
Defined.

(** ** Proof requests and the limit on digits *)

Lemma lower_length (s : text) : length (Py.lower s) = length s.
Proof. unfold Py.lower. apply length_map. Qed.

Lemma first_step_size_cases (patterns : list (regex * regex)) (s : text) :
  returns_or_value_error (Exn.first_step_size patterns s)
                         (first_step_size patterns s) s.
Proof.
  induction patterns as [| [pre body] rest IH];
    cbn [Exn.first_step_size first_step_size]; [now left |].
  destruct (search_optional pre body None s) as [g |] eqn:E; [| exact IH].
  apply search_optional_group_length in E.
  destruct (int_cases g) as [[_ ->] | [Hlong ->]]; [now left |].
  right. exists (length g). split; [lia | reflexivity].
Qed.

Lemma step_size_without_step_returns (s : text) :
  Py.contains (str "step") s = false ->
  Exn.first_step_size step_size_patterns s = inr None.
Proof.
  intro H. unfold step_size_patterns. cbn [Exn.first_step_size].
  rewrite !(search_optional_without_literal (str "step"))
    by (reflexivity || exact H).
  reflexivity.
Qed.

(** The step size of a message is converted, unless it has more than 4300
    digits; it is converted in every message of at most 4300 characters
    and in every message without the word step. *)
Lemma step_size_of_message (message : text) :
  (exists custom,
      Exn.first_step_size step_size_patterns (Py.lower message) =
      inr custom /\
      custom = first_step_size step_size_patterns (Py.lower message)) \/
  (exists digits,
      Exn.max_str_digits < digits <= length message /\
      Py.contains (str "step") (Py.lower message) = true /\
      Exn.first_step_size step_size_patterns (Py.lower message) =
      inl (Exn.value_error digits)).
Proof.
  destruct (first_step_size_cases step_size_patterns (Py.lower message))
    as [E | [digits [Hd E]]].
  - left. eexists. split; [exact E | reflexivity].
  - right. exists digits. rewrite lower_length in Hd.
    split; [exact Hd |]. split; [| exact E].
    destruct (Py.contains (str "step") (Py.lower message)) eqn:Hs;
      [reflexivity |].
    rewrite (step_size_without_step_returns _ Hs) in E. discriminate.
Qed.

Lemma no_kyc_wording (s : text) :
  Py.contains (str "kyc") s = false ->
  Py.contains (str "compliance") s = false ->
  matches_any kyc_patterns s = false.
Proof.
  intros Hkyc Hcomp. unfold matches_any, kyc_patterns. cbn [existsb].
  repeat first [ no_match_by "kyc"%string Hkyc
               | no_match_by "compliance"%string Hcomp ].
  reflexivity.
Qed.

Lemma no_ai_wording (s : text) :
  Py.contains (str "content") s = false ->
  Py.contains (str "authenticity") s = false ->
  Py.contains (str "generated") s = false ->
  matches_any ai_content_patterns s = false.
Proof.
  intros Hcont Hauth Hgen. unfold matches_any, ai_content_patterns.
  cbn [existsb].
  repeat first [ no_match_by "content"%string Hcont
               | no_match_by "authenticity"%string Hauth
               | no_match_by "generated"%string Hgen ].
  reflexivity.
Qed.

(** Whenever [extract_proof_intent] returns, it returns what the first
    model gives. *)
Lemma extract_proof_intent_agrees (randint : N) (message : text)
      (r : option proof_intent) :
  Exn.extract_proof_intent randint message = inr r ->
  r = extract_proof_intent randint message.
Proof.
  unfold Exn.extract_proof_intent, extract_proof_intent. cbv zeta.
  destruct (if Py.contains (str "location") (Py.lower message)
            then match detect_city (Py.lower message) with
                 | Some detected_city =>
                     Some {| pi_function := str "prove_location";
                             pi_arguments :=
                               [detected_city;
                                match search_device (Py.lower message) with
                                | Some g => g
                                | None => Py.dec randint
                                end];
                             pi_step_size := 50%Z;
                             pi_location_based := Some true;
                             pi_custom_step_size := None |}
                 | None => None
                 end
            else None) as [intent |].
  - intro H. now injection H as <-.
  - destruct (step_size_of_message message)
      as [[custom [E ->]] | [digits [_ [_ E]]]]; rewrite E;
      [| discriminate].
    intro H. now injection H as <-.
Qed.

(** X18. A message without any of the words location, kyc, compliance,
    content, authenticity and generated, in any letter case, carries no
    proof intent: the answer is [None], unless the message states a step
    size of more than 4300 digits, on which the conversion of line 579
    raises before the families are tried.  That needs the word step and
    more than 4300 characters. *)
Theorem no_keyword_no_intent (randint : N) (message : text) :
  Py.contains (str "location") (Py.lower message) = false ->
  Py.contains (str "kyc") (Py.lower message) = false ->
  Py.contains (str "compliance") (Py.lower message) = false ->
  Py.contains (str "content") (Py.lower message) = false ->
  Py.contains (str "authenticity") (Py.lower message) = false ->
  Py.contains (str "generated") (Py.lower message) = false ->
  (Exn.extract_proof_intent randint message = inr None \/
   exists digits,
     Exn.max_str_digits < digits <= length message /\
     Py.contains (str "step") (Py.lower message) = true /\
     Exn.extract_proof_intent randint message =
     inl (Exn.value_error digits)) /\
  (length message <= Exn.max_str_digits \/
   Py.contains (str "step") (Py.lower message) = false ->
   Exn.extract_proof_intent randint message = inr None).
Proof.
  intros Hloc Hkyc Hcomp Hcont Hauth Hgen.
  assert (H : Exn.extract_proof_intent randint message = inr None \/
              exists digits,
                Exn.max_str_digits < digits <= length message /\
                Py.contains (str "step") (Py.lower message) = true /\
                Exn.extract_proof_intent randint message =
                inl (Exn.value_error digits)).
  { unfold Exn.extract_proof_intent. cbv zeta. rewrite Hloc.
    destruct (step_size_of_message message)
      as [[custom [E _]] | [digits [Hd [Hs E]]]]; rewrite E.
    - left. now rewrite (no_kyc_wording _ Hkyc Hcomp),
                        (no_ai_wording _ Hcont Hauth Hgen).
    - right. now exists digits. }
  split; [exact H |].
  intros Hshort. destruct H as [H | [digits [Hd [Hs _]]]]; [exact H |].
  destruct Hshort as [Hlen | Hnostep]; [lia |].
  rewrite Hs in Hnostep. discriminate.
Qed.

Lemma no_keyword_no_intent_witness :
  Py.contains (str "location") (Py.lower (str "What is a zkVM? Explain AI."))
  = false /\
  Exn.extract_proof_intent 4242 (str "What is a zkVM? Explain AI.") =
  inr None.
Proof.
  split; [vm_compute; reflexivity |].
  apply (proj2 (no_keyword_no_intent
                  4242 (str "What is a zkVM? Explain AI.")
                  eq_refl eq_refl eq_refl eq_refl eq_refl eq_refl)).
  right. vm_compute. reflexivity.
Defined.

Lemma step_then_digits_raises (prefix : string) :
  let message := str prefix ++ str "step " ++ Exn.long_number in
  Py.contains (str "location") (Py.lower message) = false ->
  Py.contains (str "size") (Py.lower message) = false ->
  search_optional [] (lit "step" ++ [Rep 1 is_space; GOpen; Rep 1 is_digit;
                                     GClose]) None (Py.lower message) =
  Some Exn.long_number ->
  Exn.extract_proof_intent 4242 message = inl (Exn.value_error 4301).
Proof.
  cbv zeta. intros Hloc Hsize Hstep.
  unfold Exn.extract_proof_intent. cbv zeta. rewrite Hloc.
  unfold step_size_patterns. cbn [Exn.first_step_size].
  rewrite !(search_optional_without_literal (str "size"))
    by (reflexivity || exact Hsize).
  rewrite Hstep. reflexivity.
Qed.

(** A step size of 4301 digits, as instances: the message made of the
    word step and the number, and the same after KYC wording. *)
Example step_size_too_long :
  Exn.extract_proof_intent 4242 (str "step " ++ Exn.long_number) =
  inl (Exn.value_error 4301) /\
  Exn.extract_proof_intent 4242 (str "kyc proof step " ++ Exn.long_number) =
  inl (Exn.value_error 4301).
Proof.
  split.
  - apply (step_then_digits_raises EmptyString); vm_compute; reflexivity.
  - apply (step_then_digits_raises "kyc proof "); vm_compute; reflexivity.
Qed.

(** X21. The families are tried in the order location, KYC, AI content: a
    message that names a city and the word location always gives a
    location proof with step size 50, whatever KYC or AI wording and
    whatever step size it has, since that branch returns before the step
    size is converted.  Otherwise KYC wording wins over AI wording,
    unless the message states a step size of more than 4300 digits, on
    which the conversion of line 579 raises. *)
Theorem proof_intent_priority (randint : N) (message : text) :
  (Py.contains (str "location") (Py.lower message) = true ->
   (exists city, In city (map str cities) /\
                 Py.contains city (Py.lower message) = true) ->
   exists intent,
     Exn.extract_proof_intent randint message = inr (Some intent) /\
     pi_function intent = str "prove_location" /\
     pi_step_size intent = 50%Z) /\
  (Py.contains (str "location") (Py.lower message) = false ->
   matches_any kyc_patterns (Py.lower message) = true ->
   ((exists intent,
       Exn.extract_proof_intent randint message = inr (Some intent) /\
       pi_function intent = str "prove_kyc") \/
    (exists digits,
       Exn.max_str_digits < digits <= length message /\
       Py.contains (str "step") (Py.lower message) = true /\
       Exn.extract_proof_intent randint message =
       inl (Exn.value_error digits))) /\
   (length message <= Exn.max_str_digits \/
    Py.contains (str "step") (Py.lower message) = false ->
    exists intent,
      Exn.extract_proof_intent randint message = inr (Some intent) /\
      pi_function intent = str "prove_kyc")).
Proof.
  split.
  - unfold Exn.extract_proof_intent. cbv zeta.
    intros Hloc [city [Hin Hc]]. rewrite Hloc.
    destruct (detect_city (Py.lower message)) as [found |] eqn:E.
    + eexists. split; [reflexivity |]. now split.
    + unfold detect_city in E.
      pose proof (find_none _ _ E city Hin) as H. cbv beta in H.
      now rewrite Hc in H.
  - intros Hloc Hk.
    assert (H : (exists intent,
                    Exn.extract_proof_intent randint message =
                    inr (Some intent) /\
                    pi_function intent = str "prove_kyc") \/
                (exists digits,
                    Exn.max_str_digits < digits <= length message /\
                    Py.contains (str "step") (Py.lower message) = true /\
                    Exn.extract_proof_intent randint message =
                    inl (Exn.value_error digits))).
    { unfold Exn.extract_proof_intent. cbv zeta. rewrite Hloc.
      destruct (step_size_of_message message)
        as [[custom [E _]] | [digits [Hd [Hs E]]]]; rewrite E.
      - left. rewrite Hk. eexists. split; reflexivity.
      - right. now exists digits. }
    split; [exact H |].
    intros Hshort. destruct H as [H | [digits [Hd [Hs _]]]]; [exact H |].
    destruct Hshort as [Hlen | Hnostep]; [lia |].
    rewrite Hs in Hnostep. discriminate.
Qed.

Lemma proof_intent_priority_witness :
  let message :=
    str "Prove KYC compliance at my LOCATION in London, step size 300" in
  Py.contains (str "location") (Py.lower message) = true /\
  exists intent,
    Exn.extract_proof_intent 4242 message = inr (Some intent) /\
    pi_function intent = str "prove_location" /\
    pi_step_size intent = 50%Z.
Proof.
  cbv zeta. split; [vm_compute; reflexivity |].
  apply (proj1 (proof_intent_priority 4242
           (str "Prove KYC compliance at my LOCATION in London, step size 300"))).
  - vm_compute. reflexivity.
  - exists (str "london"). split; [| vm_compute; reflexivity].
    cbn. tauto.
Defined.

(** ** Response cleaning *)

Lemma filter_keeps (f : ascii -> bool) (P : ascii -> Prop) (s : text) :
  Forall P s -> Forall P (filter f s).
Proof.
  intro H. rewrite Forall_forall in *. intros x Hx.
  apply filter_In in Hx as [Hx _]. now apply H.
Qed.

Lemma filter_drops (c : ascii) (s : text) :
  Forall (fun x => Ascii.eqb c x = false)
         (filter (fun x => negb (Ascii.eqb c x)) s).
Proof.
  rewrite Forall_forall. intros x Hx.
  apply filter_In in Hx as [_ Hx]. now apply negb_true_iff in Hx.
Qed.

(** X22. A cleaned response holds none of the characters star, hash, backtick
    and underscore. *)
Theorem strip_markdown_no_markup (content : text) :
  Forall (fun c => is_markup c = false) (strip_markdown content).
Proof.
  unfold strip_markdown. cbv zeta. rewrite !sub_run.
  apply sub_from_chars.
  - intros t [H | []]. discriminate.
  - set (f1 := filter (fun x => negb (Ascii.eqb "*" x)) content).
    set (f2 := filter (fun x => negb (Ascii.eqb "#" x)) f1).
    set (f3 := filter (fun x => negb (Ascii.eqb "`" x)) f2).
    assert (H1 : Forall (fun x => Ascii.eqb "*" x = false) f1)
      by apply filter_drops.
    assert (H2 : Forall (fun x => Ascii.eqb "#" x = false) f2)
      by apply filter_drops.
    assert (H3 : Forall (fun x => Ascii.eqb "`" x = false) f3)
      by apply filter_drops.
    pose proof (filter_drops "_" f3) as H4.
    apply (filter_keeps (fun x => negb (Ascii.eqb "#" x))) in H1.
    apply (filter_keeps (fun x => negb (Ascii.eqb "`" x))) in H1, H2.
    apply (filter_keeps (fun x => negb (Ascii.eqb "_" x))) in H1, H2, H3.
    fold f2 in H1. fold f3 in H1, H2.
    rewrite Forall_forall in *. intros x Hx. unfold is_markup.
    now rewrite (H1 x Hx), (H2 x Hx), (H3 x Hx), (H4 x Hx).
Qed.

Lemma filter_all (f : ascii -> bool) (s : text) :
  forallb f s = true -> filter f s = s.
Proof.
  induction s as [| c s IH]; [reflexivity |].
  cbn [forallb filter]. intro H. apply andb_prop in H as [Hc Hs].
  now rewrite Hc, IH.
Qed.

(** X23. A response without those four characters and without an opening
    square bracket is left as it is. *)
Theorem strip_markdown_plain (content : text) :
  forallb (fun c => negb (is_markup c)) content = true ->
  Py.contains (str "[") content = false ->
  strip_markdown content = content.
Proof.
  intros Hplain Hbr. unfold strip_markdown. cbv zeta. rewrite !sub_run.
  assert (Hc : forall c, is_markup c = false ->
                         (Ascii.eqb "*" c = false /\ Ascii.eqb "#" c = false) /\
                         (Ascii.eqb "`" c = false /\ Ascii.eqb "_" c = false)).
  { intros c H. unfold is_markup in H.
    apply orb_false_elim in H as [H H4]. apply orb_false_elim in H as [H H3].
    apply orb_false_elim in H as [H1 H2]. tauto. }
  assert (Hf : forall x, filter (fun c => negb (Ascii.eqb x c)) content = content
                         \/ is_markup x = false).
  { intro x. destruct (is_markup x) eqn:E; [left | now right].
    apply filter_all. rewrite forallb_forall in *. intros c Hin.
    specialize (Hplain c Hin). apply negb_true_iff in Hplain.
    destruct (Ascii.eqb x c) eqn:Ex; [| reflexivity].
    apply Ascii.eqb_eq in Ex. subst c. now rewrite E in Hplain. }
  destruct (Hf "*"%char) as [-> | H]; [| discriminate].
  destruct (Hf "#"%char) as [-> | H]; [| discriminate].
  destruct (Hf "`"%char) as [-> | H]; [| discriminate].
  destruct (Hf "_"%char) as [-> | H]; [| discriminate].
  apply sub_fixed. apply (fixed_without_literal (str "[")); [reflexivity |].
  exact Hbr.
Qed.

Lemma strip_markdown_plain_witness :
  forallb (fun c => negb (is_markup c))
          (str "KYC proofs show compliance (status 1).") = true /\
  strip_markdown (str "KYC proofs show compliance (status 1).") =
  str "KYC proofs show compliance (status 1).".
Proof.
  split; [vm_compute; reflexivity |].
  apply strip_markdown_plain; vm_compute; reflexivity.
Defined.

(** ** The include rule and failed compiles *)

Lemma stdint_line_found (pre post : text) :
  Py.contains (str "#include <stdint.h>") (pre ++ stdint_line ++ post) = true.
Proof.
  unfold stdint_line. rewrite <- app_assoc. apply contains_middle.
Qed.

Lemma include_rule_cases (code : text) (changes : list text) :
  add_stdint_include (code, changes) = (code, changes) \/
  exists pre inserted post,
    code = pre ++ post /\
    add_stdint_include (code, changes) =
    (pre ++ inserted ++ post, changes ++ [msg_stdint]) /\
    inserted <> [] /\
    Py.contains (str "#include <stdint.h>") (pre ++ inserted ++ post) = true.
Proof.
  unfold add_stdint_include.
  destruct (negb (Py.contains (str "int32_t") code) &&
            (Py.contains (str "int ") code || Py.contains (str "float ") code));
    [| now left].
  destruct (Py.contains (str "#include <stdint.h>") code); cbn [negb];
    [now left |].
  right.
  destruct (0 <=? Py.rfind (str "#include") code)%Z.
  - destruct (0 <=? Py.find [nl] code (Py.rfind (str "#include") code))%Z.
    + set (k := (Py.find [nl] code (Py.rfind (str "#include") code) + 1)%Z).
      exists (Py.upto k code), stdint_line, (Py.from k code).
      split; [unfold Py.upto, Py.from; now rewrite firstn_skipn |].
      split; [reflexivity |]. split; [discriminate |].
      apply stdint_line_found.
    + exists code, (nl :: stdint_line), []. rewrite !app_nil_r.
      split; [reflexivity |]. split; [reflexivity |].
      split; [discriminate |].
      replace (code ++ nl :: stdint_line)
        with ((code ++ [nl]) ++ stdint_line ++ [])
        by (now rewrite app_nil_r, <- app_assoc).
      apply stdint_line_found.
  - exists [], (stdint_line ++ [nl]), code. cbn [app].
    split; [reflexivity |]. split; [now rewrite <- app_assoc |].
    split; [discriminate |].
    rewrite <- app_assoc. apply (stdint_line_found [] (nl :: code)).
Qed.

(** X24. The include rule only inserts: either it leaves the text and the
    log as they are, or its output is the input with one non-empty piece
    of text put in, the entry is logged and the output contains the stdint
    include.  Hence the rule applied to its own output changes nothing:
    the include is never added twice. *)
Theorem include_rule_inserts_once (code : text) (changes : list text) :
  (add_stdint_include (code, changes) = (code, changes) \/
   exists pre inserted post,
     code = pre ++ post /\
     add_stdint_include (code, changes) =
     (pre ++ inserted ++ post, changes ++ [msg_stdint]) /\
     inserted <> [] /\
     Py.contains (str "#include <stdint.h>") (pre ++ inserted ++ post) = true)
  /\
  add_stdint_include (add_stdint_include (code, changes)) =
  add_stdint_include (code, changes).
Proof.
  pose proof (include_rule_cases code changes) as H.
  split; [exact H |].
  destruct H as [E | [pre [inserted [post [_ [E [_ Hc]]]]]]].
  - now rewrite !E.
  - rewrite E. unfold add_stdint_include. rewrite Hc. cbn [negb].
    now destruct (_ && _).
Qed.


(** ** Failed compiles and the stored artifact *)




(** ** The two models *)

(** When nothing happens that the first model leaves out, the two models
    return the same dictionary and leave the same files. *)
Lemma compile_models_agree (env : Exn.Env) (code filename : text)
      (fs : files) :
  plain_run env code = true ->
  only_exceptions env = true ->
  exists d,
    fst (Exn.compile_to_wasm env code filename fs) = inr d /\
    fst (compile_to_wasm (plain_env env) code filename fs) = inr d /\
    snd (Exn.compile_to_wasm env code filename fs) =
    snd (compile_to_wasm (plain_env env) code filename fs).
Proof.
  unfold plain_run, only_exceptions. cbn [forallb].
  intros Hplain Hexc.
  unfold Exn.compile_to_wasm, Exn.try_block, Exn.try_except,
    Exn.with_tempdir, Exn.bind, Exn.print, Exn.lift, Exn.open_write,
    Exn.os_makedirs, Exn.raise, Exn.ret,
    compile_to_wasm, try_except, with_tempdir, bind, open_write,
    os_makedirs, raise, ret, plain_env, Exn.wasm_dir, wasm_dir,
    Exn.unique_id_of, unique_id_of.
  cbn [uuid4_str home tmpdir_new tmp_write makedirs final_write tmp_cleanup].
  destruct (Exn.print_at env 455); [discriminate |].
  destruct (Exn.print_at env 466); [discriminate |].
  destruct (Exn.print_at env 496); [discriminate |].
  destruct (Exn.print_at env 497); [discriminate |].
  destruct (Exn.print_at env 507); [discriminate |].
  destruct (Exn.print_at env 509); [discriminate |].
  destruct (Exn.tmp_write env); [discriminate |].
  destruct (Exn.final_write env); [discriminate |].
  destruct (Exn.generate_wat_from_c_analysis env code) as [e | wat] eqn:Eg;
    [discriminate |].
  apply generate_agrees in Eg. subst wat. clear Hplain.
  cbn [option_map fst] in Hexc |- *.
  destruct (Exn.tmpdir_new env) as [e | tmp].
  { cbn [andb] in Hexc. destruct (Exn.is_exception e); [| discriminate].
    eexists. repeat split. }
  destruct (Exn.tmp_cleanup env) as [ec |] eqn:Ec;
    destruct (Exn.tmp_open env) as [e1 |];
    destruct (Exn.makedirs env) as [e2 |];
    destruct (Exn.final_open env) as [e3 |];
    cbn [andb option_map] in Hexc |- *;
    repeat match type of Hexc with
           | context [Exn.is_exception ?e] =>
               destruct (Exn.is_exception e) eqn:?;
               cbn [andb] in Hexc; [| discriminate]
           end;
    cbv beta iota;
    repeat match goal with
           | H : Exn.is_exception ?e = true |- _ => rewrite H
           end;
    eexists; repeat split.
Qed.

From Stdlib Require Import Znumtheory.

(** ** The algorithms of the other modules *)


Section EmittedAlgorithms.
Import Wasm.
Open Scope Z_scope.

Lemma wrap_small (z : Z) : - 2 ^ 31 <= z < 2 ^ 31 -> wrap z = z.
Proof. intro H. unfold wrap. rewrite Z.mod_small; lia. Qed.

Lemma wrap_range (z : Z) : - 2 ^ 31 <= wrap z < 2 ^ 31.
Proof.
  unfold wrap. pose proof (Z.mod_pos_bound (z + 2 ^ 31) (2 ^ 32)). lia.
Qed.

Lemma wrap_congr (x y k : Z) : x = y + k * 2 ^ 32 -> wrap x = wrap y.
Proof.
  intros ->. unfold wrap.
  replace (y + k * 2 ^ 32 + 2 ^ 31) with (y + 2 ^ 31 + k * 2 ^ 32) by lia.
  now rewrite Z.mod_add by lia.
Qed.

Lemma wrap_eq (z : Z) : exists k, wrap z = z + k * 2 ^ 32.
Proof.
  exists (- ((z + 2 ^ 31) / 2 ^ 32)). unfold wrap.
  pose proof (Z.div_mod (z + 2 ^ 31) (2 ^ 32)). lia.
Qed.

Lemma i32_add_wrap (x y : Z) : i32_add (wrap x) (wrap y) = wrap (x + y).
Proof.
  unfold i32_add.
  destruct (wrap_eq x) as [k ->], (wrap_eq y) as [j ->].
  apply (wrap_congr _ _ (k + j)). lia.
Qed.

Lemma i32_mul_wrap (x y : Z) : i32_mul (wrap x) y = wrap (x * y).
Proof.
  unfold i32_mul. destruct (wrap_eq x) as [k ->].
  apply (wrap_congr _ _ (k * y)). lia.
Qed.

Lemma i32_const_small (v : N) :
  (v < 2 ^ 31)%N -> i32_const v = Z.of_N v.
Proof. intro H. unfold i32_const. apply wrap_small. lia. Qed.

Lemma i32_const_negative (v : N) :
  (2 ^ 31 <= v < 2 ^ 32)%N -> i32_const v = Z.of_N v - 2 ^ 32.
Proof.
  intro H. unfold i32_const. 
  rewrite (wrap_congr (Z.of_N v) (Z.of_N v - 2 ^ 32) 1) by lia.
  apply wrap_small. lia.
Qed.


Lemma gcd_loop_correct (fuel : nat) :
  forall a b, 0 <= a -> 0 <= b -> (Z.to_nat b < fuel)%nat ->
              gcd_loop fuel a b = Returned (Z.gcd a b).
Proof.
  induction fuel as [| fuel IH]; intros a b Ha Hb Hfuel; [lia |].
  cbn [gcd_loop]. destruct (b =? 0) eqn:E.
  - apply Z.eqb_eq in E. subst b. rewrite Z.gcd_0_r, Z.abs_eq by lia. reflexivity.
  - apply Z.eqb_neq in E. unfold i32_rem_s.
    rewrite Z.rem_mod_nonneg by lia.
    pose proof (Z.mod_pos_bound a b).
    rewrite IH by lia.
    f_equal. rewrite Z.gcd_comm, Z.gcd_mod by lia. apply Z.gcd_comm.
Qed.

(** X11. The GCD module returns the greatest common divisor of its two
    constants when both are below 2^31, within as many iterations as the
    second constant plus one. *)
Theorem gcd_module_correct (a b : N) (fuel : nat) :
  (a < 2 ^ 31)%N -> (b < 2 ^ 31)%N -> (N.to_nat b < fuel)%nat ->
  gcd_main fuel a b = Returned (Z.gcd (Z.of_N a) (Z.of_N b)).
Proof.
  intros Ha Hb Hfuel. unfold gcd_main.
  rewrite !i32_const_small by assumption.
  apply gcd_loop_correct; lia.
Qed.

Lemma gcd_module_correct_witness :
  (48 < 2 ^ 31)%N /\ (18 < 2 ^ 31)%N /\ (N.to_nat 18 < 19)%nat /\
  gcd_main 19 48 18 = Returned (Z.gcd 48 18).
Proof.
  split; [lia |]. split; [lia |]. split; [vm_compute; lia |].
  apply (gcd_module_correct 48 18 19); [lia | lia | vm_compute; lia].
Defined.


Lemma fib_step (k : nat) : fib (S (S k)) = fib (S k) + fib k.
Proof. reflexivity. Qed.

Lemma fibonacci_loop_correct (n : Z) (fuel : nat) :
  forall i : nat,
    n < 2 ^ 31 - 1 ->
    (2 <= i)%nat -> Z.of_nat i <= n ->
    (Z.to_nat (n - Z.of_nat i) < fuel)%nat ->
    fibonacci_loop fuel n (wrap (fib (i - 2))) (wrap (fib (i - 1)))
                   (Z.of_nat i) =
    Returned (wrap (fib (Z.to_nat n))).
Proof.
  induction fuel as [| fuel IH]; intros i Hn Hi Hin Hfuel; [lia |].
  cbn [fibonacci_loop].
  rewrite i32_add_wrap.
  replace (fib (i - 2) + fib (i - 1)) with (fib i).
  2:{ destruct i as [| [| k]]; try lia.
      rewrite fib_step. replace (S (S k) - 2)%nat with k by lia.
      replace (S (S k) - 1)%nat with (S k) by lia. lia. }
  assert (Hi1 : i32_add (Z.of_nat i) 1 = Z.of_nat i + 1)
    by (unfold i32_add; apply wrap_small; lia).
  rewrite !Hi1.
  destruct (Z.of_nat i + 1 <=? n) eqn:E.
  - apply Z.leb_le in E.
    replace (Z.of_nat i + 1) with (Z.of_nat (S i)) by lia.
    replace (wrap (fib i)) with (wrap (fib (S i - 1))) by (f_equal; f_equal; lia).
    replace (wrap (fib (i - 1))) with (wrap (fib (S i - 2))) by (f_equal; f_equal; lia).
    apply IH; lia.
  - apply Z.leb_gt in E. do 3 f_equal. lia.
Qed.

Lemma count_loops_forever_fib (fuel : nat) :
  forall a b i, fibonacci_loop fuel (2 ^ 31 - 1) a b i = OutOfFuel.
Proof.
  induction fuel as [| fuel IH]; intros a b i; [reflexivity |].
  cbn [fibonacci_loop].
  pose proof (wrap_range (i + 1)) as H.
  change (i32_add i 1) with (wrap (i + 1)).
  destruct (wrap (i + 1) <=? 2 ^ 31 - 1) eqn:E; [apply IH |].
  apply Z.leb_gt in E. lia.
Qed.

(** X9. The Fibonacci module returns the Fibonacci number of its constant,
    reduced to 32 bits, for every constant below 2^31 - 1, within as many
    iterations as the constant; for the constant 2^31 - 1 the test at the
    end of the loop body always holds and the module never returns. *)
Theorem fibonacci_module_correct (value : N) (fuel : nat) :
  ((value < 2 ^ 31 - 1)%N -> (N.to_nat value <= fuel)%nat ->
   fibonacci_main fuel value = Returned (wrap (fib (N.to_nat value)))) /\
  (value = (2 ^ 31 - 1)%N -> fibonacci_main fuel value = OutOfFuel).
Proof.
  split.
  - intros Hv Hfuel. unfold fibonacci_main.
    rewrite i32_const_small by lia.
    destruct (Z.of_N value <=? 1) eqn:E.
    + apply Z.leb_le in E. f_equal.
      assert (value = 0 \/ value = 1)%N as [-> | ->] by lia; reflexivity.
    + apply Z.leb_gt in E.
      pose proof (fibonacci_loop_correct (Z.of_N value) fuel 2) as H.
      cbn [Nat.sub fib] in H. change (wrap 0) with 0 in H.
      change (wrap 1) with 1 in H. change (Z.of_nat 2) with 2 in H.
      rewrite H by lia. do 3 f_equal. lia.
  - intros ->. unfold fibonacci_main. apply count_loops_forever_fib.
Qed.

Lemma fibonacci_module_correct_witness :
  (10 < 2 ^ 31 - 1)%N /\ (N.to_nat 10 <= 10)%nat /\
  fibonacci_main 10 10 = Returned (wrap (fib (N.to_nat 10))).
Proof.
  split; [lia |]. split; [vm_compute; lia |].
  apply (proj1 (fibonacci_module_correct 10 10)); [lia | vm_compute; lia].
Defined.




Lemma factorial_loop_correct (n : Z) (fuel : nat) :
  forall i : nat,
    n < 2 ^ 31 - 1 ->
    (1 <= i)%nat -> Z.of_nat i <= n ->
    (Z.to_nat (n - Z.of_nat i) < fuel)%nat ->
    factorial_loop fuel n (wrap (Z.of_nat (fact (i - 1)))) (Z.of_nat i) =
    Returned (wrap (Z.of_nat (fact (Z.to_nat n)))).
Proof.
  induction fuel as [| fuel IH]; intros i Hn Hi Hin Hfuel; [lia |].
  cbn [factorial_loop].
  rewrite i32_mul_wrap.
  replace (Z.of_nat (fact (i - 1)) * Z.of_nat i) with (Z.of_nat (fact i)).
  2:{ destruct i as [| k]; [lia |].
      replace (S k - 1)%nat with k by lia. cbn [fact]. lia. }
  assert (Hi1 : i32_add (Z.of_nat i) 1 = Z.of_nat i + 1)
    by (unfold i32_add; apply wrap_small; lia).
  rewrite !Hi1.
  destruct (Z.of_nat i + 1 <=? n) eqn:E.
  - apply Z.leb_le in E.
    replace (Z.of_nat i + 1) with (Z.of_nat (S i)) by lia.
    replace (fact i) with (fact (S i - 1)) by (f_equal; lia).
    apply IH; lia.
  - apply Z.leb_gt in E. do 4 f_equal. lia.
Qed.

Lemma count_loops_forever_fact (fuel : nat) :
  forall r i, factorial_loop fuel (2 ^ 31 - 1) r i = OutOfFuel.
Proof.
  induction fuel as [| fuel IH]; intros r i; [reflexivity |].
  cbn [factorial_loop].
  pose proof (wrap_range (i + 1)) as H.
  change (i32_add i 1) with (wrap (i + 1)).
  destruct (wrap (i + 1) <=? 2 ^ 31 - 1) eqn:E; [apply IH |].
  apply Z.leb_gt in E. lia.
Qed.

(** X10. The factorial module returns the factorial of its constant, reduced
    to 32 bits, for every constant below 2^31 - 1 (1 for the constant 0),
    within as many iterations as the constant; for the constant 2^31 - 1
    the module never returns. *)
Theorem factorial_module_correct (value : N) (fuel : nat) :
  ((value < 2 ^ 31 - 1)%N -> (N.to_nat value <= fuel)%nat ->
   factorial_main fuel value =
   Returned (wrap (Z.of_nat (fact (N.to_nat value))))) /\
  (value = (2 ^ 31 - 1)%N -> factorial_main fuel value = OutOfFuel).
Proof.
  split.
  - intros Hv Hfuel. unfold factorial_main.
    rewrite i32_const_small by lia.
    destruct (Z.of_N value =? 0) eqn:E.
    + apply Z.eqb_eq in E. assert (value = 0%N) as -> by lia. reflexivity.
    + apply Z.eqb_neq in E.
      pose proof (factorial_loop_correct (Z.of_N value) fuel 1) as H.
      cbn [Nat.sub fact] in H. change (wrap (Z.of_nat 1)) with 1 in H.
      change (Z.of_nat 1) with 1 in H.
      rewrite H by lia. do 4 f_equal. lia.
  - intros ->. unfold factorial_main. apply count_loops_forever_fact.
Qed.

Lemma factorial_module_correct_witness :
  (5 < 2 ^ 31 - 1)%N /\ (N.to_nat 5 <= 5)%nat /\
  factorial_main 5 5 = Returned (wrap (Z.of_nat (fact (N.to_nat 5)))).
Proof.
  split; [lia |]. split; [vm_compute; lia |].
  apply (proj1 (factorial_module_correct 5 5)); [lia | vm_compute; lia].
Defined.


Lemma digit_sum_loop_spec (fuel : nat) :
  forall n acc,
    0 <= n -> 0 <= acc -> acc + n < 2 ^ 31 ->
    (Z.to_nat n < fuel)%nat ->
    exists s,
      digit_sum_loop fuel n acc = Some (acc + s) /\
      0 <= s <= n /\
      (exists k, n - s = 9 * k) /\
      (1 <= n -> 1 <= s) /\
      (10 <= n -> s < n).
Proof.
  induction fuel as [| fuel IH]; intros n acc Hn Hacc Hfit Hfuel; [lia |].
  cbn [digit_sum_loop]. destruct (n =? 0) eqn:E.
  - apply Z.eqb_eq in E. subst n. exists 0.
    repeat split; try lia. + f_equal; lia. + exists 0; lia.
  - apply Z.eqb_neq in E.
    unfold i32_rem_s, i32_div_s.
    rewrite Z.rem_mod_nonneg, Z.quot_div_nonneg by lia.
    pose proof (Z.mod_pos_bound n 10) as Hm.
    pose proof (Z.div_mod n 10) as Hd.
    assert (Hq : 0 <= n / 10 < n) by (split; [apply Z.div_pos; lia | apply Z.div_lt; lia]).
    rewrite (wrap_small (n / 10)) by lia.
    unfold i32_add. rewrite wrap_small by lia.
    destruct (IH (n / 10) (acc + n mod 10)) as [s [Hs [Hb [[k Hk] [H1 H10]]]]];
      try lia.
    exists (n mod 10 + s). repeat split; try lia.
    + rewrite Hs. f_equal. lia.
    + exists (n / 10 + k). lia.
Qed.


Lemma digital_root_congr (n s : Z) :
  1 <= s -> 1 <= n -> (exists k, n - s = 9 * k) ->
  digital_root_of s = digital_root_of n.
Proof.
  intros Hs Hn [k Hk]. unfold digital_root_of.
  destruct (s =? 0) eqn:Es; [apply Z.eqb_eq in Es; lia |].
  destruct (n =? 0) eqn:En; [apply Z.eqb_eq in En; lia |].
  f_equal. replace (n - 1) with (s - 1 + k * 9) by lia.
  now rewrite Z.mod_add by lia.
Qed.

Lemma digital_root_loop_correct (fuel : nat) :
  forall n, 0 <= n < 2 ^ 31 -> (Z.to_nat n < fuel)%nat ->
            digital_root_loop fuel n = Returned (digital_root_of n).
Proof.
  induction fuel as [| fuel IH]; intros n Hn Hfuel; [lia |].
  cbn [digital_root_loop]. destruct (n <? 10) eqn:E.
  - apply Z.ltb_lt in E. f_equal. unfold digital_root_of.
    destruct (n =? 0) eqn:E0; [apply Z.eqb_eq in E0; lia |].
    apply Z.eqb_neq in E0. rewrite Z.mod_small; lia.
  - apply Z.ltb_ge in E.
    destruct (digit_sum_loop_spec (S fuel) n 0) as [s [Hs [Hb [Hk [H1 H10]]]]];
      try lia.
    rewrite Hs. cbn [Z.add].
    rewrite IH by lia.
    f_equal. apply digital_root_congr; try lia. exact Hk.
Qed.

(** X8. The digital root module returns the digital root of its constant, 0
    for 0 and 1 + (n - 1) mod 9 otherwise, for every constant below
    2^31. *)
Theorem digital_root_module_correct (value : N) (fuel : nat) :
  (value < 2 ^ 31)%N -> (N.to_nat value < fuel)%nat ->
  digital_root_main fuel value = Returned (digital_root_of (Z.of_N value)).
Proof.
  intros Hv Hfuel. unfold digital_root_main.
  rewrite i32_const_small by lia.
  apply digital_root_loop_correct; lia.
Qed.

Lemma digital_root_module_correct_witness :
  (493 < 2 ^ 31)%N /\ (N.to_nat 493 < 494)%nat /\
  digital_root_main 494 493 = Returned (digital_root_of 493).
Proof.
  split; [lia |]. split; [vm_compute; lia |].
  apply (digital_root_module_correct 493 494); [lia | vm_compute; lia].
Defined.


(** X12. A constant from 2^31 up to 2^32 - 1 is read as a negative 32-bit
    number: the primality module then returns 0, the digital root and the
    Fibonacci modules return that negative number, and the factorial
    module returns 1. *)
Theorem negative_constants (value : N) (fuel : nat) :
  (2 ^ 31 <= value < 2 ^ 32)%N ->
  prime_main fuel value = Returned 0 /\
  digital_root_main (S fuel) value = Returned (Z.of_N value - 2 ^ 32) /\
  fibonacci_main fuel value = Returned (Z.of_N value - 2 ^ 32) /\
  factorial_main (S fuel) value = Returned 1.
Proof.
  intro Hv.
  unfold prime_main, digital_root_main, fibonacci_main, factorial_main.
  rewrite (i32_const_negative value Hv).
  set (n := Z.of_N value - 2 ^ 32).
  assert (Hneg : - 2 ^ 31 <= n < 0) by (unfold n; lia).
  repeat split.
  - destruct (n <? 2) eqn:E; [reflexivity | apply Z.ltb_ge in E; lia].
  - cbn [digital_root_loop].
    destruct (n <? 10) eqn:E; [reflexivity | apply Z.ltb_ge in E; lia].
  - destruct (n <=? 1) eqn:E; [reflexivity | apply Z.leb_gt in E; lia].
  - destruct (n =? 0) eqn:E; [apply Z.eqb_eq in E; lia |].
    cbn [factorial_loop]. change (i32_mul 1 1) with 1.
    change (i32_add 1 1) with 2.
    destruct (2 <=? n) eqn:E2; [apply Z.leb_le in E2; lia | reflexivity].
Qed.

Lemma negative_constants_witness :
  (2 ^ 31 <= 4294967291 < 2 ^ 32)%N /\
  prime_main 5 4294967291 = Returned 0 /\
  digital_root_main 6 4294967291 = Returned (-5) /\
  fibonacci_main 5 4294967291 = Returned (-5) /\
  factorial_main 6 4294967291 = Returned 1.
Proof.
  split; [lia |]. apply (negative_constants 4294967291 5). lia.
Defined.




Lemma prime_of_no_small_divisor (n i : Z) :
  1 < n -> 0 < i -> n < i * i -> no_divisor_below n i -> Z.prime n.
Proof.
  intros Hn Hi Hsq Hnone. split; [exact Hn |].
  intros d Hd [e He].
  (* n = e * d *)
  assert (He1 : 1 < e < n) by nia.
  destruct (Z_lt_le_dec d i) as [Hlt | Hge].
  - apply (Hnone d); [lia | now exists e].
  - destruct (Z_lt_le_dec e i) as [Hlt' | Hge'].
    + apply (Hnone e); [lia | exists d; lia].
    + nia.
Qed.

Lemma odd_not_divided_by_even (n d : Z) :
  Z.rem n 2 <> 0 -> 0 <= n -> Z.rem d 2 = 0 -> 0 <= d -> ~ (d | n).
Proof.
  intros Hodd Hn Heven Hd [e He].
  rewrite Z.rem_mod_nonneg in Hodd, Heven by lia.
  apply Hodd. subst n.
  apply Z.mod_divide in Heven; [| lia]. destruct Heven as [k ->].
  replace (e * (k * 2)) with ((e * k) * 2) by lia.
  apply Z.mod_mul. lia.
Qed.

Lemma prime_loop_correct (fuel : nat) :
  forall n i,
    2 < n < 2147302921 ->
    Z.rem n 2 <> 0 ->
    3 <= i <= 46339 -> Z.rem i 2 = 1 ->
    no_divisor_below n i ->
    46341 - i < 2 * Z.of_nat fuel ->
    (Z.prime n -> prime_loop fuel n i = Returned 1) /\
    (~ Z.prime n -> prime_loop fuel n i = Returned 0).
Proof.
  induction fuel as [| fuel IH]; intros n i Hn Hodd Hi Hiodd Hnone Hfuel; [lia |].
  cbn [prime_loop].
  assert (Hsq : i32_mul i i = i * i) by (unfold i32_mul; apply wrap_small; nia).
  rewrite Hsq.
  destruct (i * i >? n) eqn:E.
  - assert (Hp : Z.prime n)
      by (apply (prime_of_no_small_divisor n i); try lia; exact Hnone).
    split; [reflexivity | intro Hnp; contradiction].
  - assert (Hle : i * i <= n) by lia.
    destruct (i =? 0) eqn:E0; [apply Z.eqb_eq in E0; lia |].
    unfold i32_rem_s. rewrite Z.rem_mod_nonneg by lia.
    destruct (n mod i =? 0) eqn:Er.
    + apply Z.eqb_eq in Er. apply Z.mod_divide in Er; [| lia].
      split; [| reflexivity].
      intros [_ Hp]. exfalso. apply (Hp i); [nia | exact Er].
    + apply Z.eqb_neq in Er.
      assert (Hi2 : i32_add i 2 = i + 2)
        by (unfold i32_add; apply wrap_small; lia).
      rewrite Hi2.
      assert (Hi46 : i <= 46337).
      { destruct (Z_le_gt_dec i 46337) as [H | H]; [exact H |].
        assert (i = 46338 \/ i = 46339) as [-> | ->] by lia;
          [discriminate Hiodd | lia]. }
      apply IH; try lia.
      * rewrite Z.rem_mod_nonneg in * by lia.
        replace (i + 2) with (i + 1 * 2) by lia.
        rewrite Z.mod_add by lia. exact Hiodd.
      * intros d Hd.
        destruct (Z_lt_le_dec d i) as [Hlt | Hge]; [apply Hnone; lia |].
        destruct (Z.eq_dec d i) as [-> | Hne].
        -- intro Hdiv. apply Er. apply Z.mod_divide; [lia | exact Hdiv].
        -- assert (d = i + 1) as -> by lia.
           apply odd_not_divided_by_even; try lia.
           rewrite Z.rem_mod_nonneg in * by lia.
           replace (i + 1) with (i - 1 + 1 * 2) by lia.
           rewrite Z.mod_add by lia.
           pose proof (Z.div_mod i 2). pose proof (Z.mod_pos_bound (i - 1) 2).
           pose proof (Z.div_mod (i - 1) 2). lia.
Qed.

(** X7. The primality module returns 1 on the primes and 0 on all other
    constants below 46339^2 = 2147302921, for which the square of a
    candidate divisor never overflows, within 23170 iterations. *)
Theorem prime_module_correct (value : N) (fuel : nat) :
  (value < 2147302921)%N -> 23170 <= Z.of_nat fuel ->
  (Z.prime (Z.of_N value) -> prime_main fuel value = Returned 1) /\
  (~ Z.prime (Z.of_N value) -> prime_main fuel value = Returned 0).
Proof.
  intros Hv Hfuel. unfold prime_main.
  rewrite i32_const_small by lia.
  set (n := Z.of_N value). assert (Hn : 0 <= n < 2147302921) by (unfold n; lia).
  destruct (n <? 2) eqn:E2.
  - apply Z.ltb_lt in E2. split; [| reflexivity].
    intros [H1 _]. lia.
  - apply Z.ltb_ge in E2. destruct (n =? 2) eqn:E.
    + apply Z.eqb_eq in E. split; [reflexivity |].
      intro Hnp. exfalso. apply Hnp. rewrite E. apply Z.prime_2.
    + apply Z.eqb_neq in E. unfold i32_rem_s.
      destruct (Z.rem n 2 =? 0) eqn:Ee.
      * apply Z.eqb_eq in Ee. split; [| reflexivity].
        intros [_ Hp]. exfalso. apply (Hp 2); [lia |].
        rewrite Z.rem_mod_nonneg in Ee by lia.
        apply Z.mod_divide; [lia | exact Ee].
      * apply Z.eqb_neq in Ee.
        apply prime_loop_correct; try lia.
        -- reflexivity.
        -- intros d Hd. assert (d = 2) as -> by lia.
           apply odd_not_divided_by_even; try lia. reflexivity.
Qed.

Lemma prime_module_correct_witness :
  (15 < 2147302921)%N /\ 23170 <= Z.of_nat (Z.to_nat 23170) /\
  ~ Z.prime (Z.of_N 15) /\
  prime_main (Z.to_nat 23170) 15 = Returned 0.
Proof.
  assert (H15 : ~ Z.prime (Z.of_N 15)).
  { intros [_ H]. apply (H 3); [lia | exists 5; reflexivity]. }
  split; [lia |]. split; [lia |]. split; [exact H15 |].
  destruct (prime_module_correct 15 (Z.to_nat 23170)) as [_ H];
    [lia | lia | exact (H H15)].
Defined.

End EmittedAlgorithms.
